(** * Fraud-detection and sequential agent workflows: stage handlers,
      stream consumers and the graph execution engine they run on.

    Sources embedded here:
    - [production-ready-observability/workflows/workflow.py]
      (the three fraud-detection executors and the metrics they record,
      the shared client and the chat clients,
      [run_fraud_detection_workflow], the consuming loop of [main]);
    - [from-zero-to-hero/orchestration/demo/sequential_agents.py]
      (the three sequential executors with what they print, and the graph
      built in [main]);
    - [production-ready-observability/batch_run/continuous_runner.py]
      (the loop of [main]).

    Python [str] is modelled as [string] (ASCII text), Python [int] as [Z],
    Python lists as [list], [Optional[T]] as [option T].  The spans and
    business events of the handlers touch neither the workflow context nor
    the payloads and are left out of the handlers; the metrics recorded on
    the telemetry manager are given apart, in [Telemetry]. *)

From Stdlib Require Import ZArith QArith Ascii.
From stdpp Require Import base option list gmap strings pretty.

#[local] Open Scope Z_scope.

(* ===================================================================== *)
(** * Python string primitives used by the handlers                       *)
(* ===================================================================== *)

Module Py.

Definition between (lo hi : nat) (c : ascii) : bool :=
  (lo <=? nat_of_ascii c)%nat && (nat_of_ascii c <=? hi)%nat.

(** [c.lower()] on one ASCII character. *)
Definition lower_char (c : ascii) : ascii :=
  if between 65 90 c then ascii_of_nat (nat_of_ascii c + 32) else c.

(** [str.lower()]. *)
Fixpoint lower (s : string) : string :=
  match s with
  | EmptyString => EmptyString
  | String c s' => String (lower_char c) (lower s')
  end.

(** Character classes of [re] on ASCII text: [\d], [\s], [\w]. *)
Definition is_digit (c : ascii) : bool := between 48 57 c.

Definition is_space (c : ascii) : bool :=
  between 9 13 c || between 28 32 c.

Definition is_word (c : ascii) : bool :=
  between 48 57 c || between 65 90 c || between 97 122 c
  || (nat_of_ascii c =? 95)%nat.

(** [s.startswith(p)], returning what follows the prefix. *)
Fixpoint strip_prefix (p s : string) : option string :=
  match p with
  | EmptyString => Some s
  | String a p' =>
      match s with
      | EmptyString => None
      | String b s' => if Ascii.eqb a b then strip_prefix p' s' else None
      end
  end.

(** [needle in hay]. *)
Fixpoint contains (needle hay : string) : bool :=
  match strip_prefix needle hay with
  | Some _ => true
  | None =>
      match hay with
      | EmptyString => false
      | String _ hay' => contains needle hay'
      end
  end.

(** The last character of [s], or [d] when [s] is empty. *)
Fixpoint last_char (d : option ascii) (s : string) : option ascii :=
  match s with
  | EmptyString => d
  | String c s' => last_char (Some c) s'
  end.

Fixpoint all_chars (p : ascii -> bool) (s : string) : bool :=
  match s with
  | EmptyString => true
  | String c s' => p c && all_chars p s'
  end.

Definition digit_value (c : ascii) : Z := Z.of_nat (nat_of_ascii c) - 48.

Fixpoint int_digits (acc : Z) (s : string) : Z :=
  match s with
  | EmptyString => acc
  | String c s' => int_digits (10 * acc + digit_value c) s'
  end.

(** [int(s)] on the strings a [(\d{1,3})] group can hold: a non-empty run of
    decimal digits.  Any other string is a [ValueError] ([None]). *)
Definition int (s : string) : option Z :=
  match s with
  | EmptyString => None
  | _ => if all_chars is_digit s then Some (int_digits 0 s) else None
  end.

End Py.

(* ===================================================================== *)
(** * The fragment of [re] used by [RiskAnalyserAgentExecutor.handle]     *)
(* ===================================================================== *)

Module Re.

(** Patterns: literals, greedy repetition of a character class
    ([\s*], [[:\s]*], [\d{1,3}]), sequence, alternation, greedy [?],
    numbered capturing groups and the word boundary [\b]. *)
Inductive regex : Type :=
| Lit (l : string)
| Rep (cls : ascii -> bool) (lo : nat) (hi : option nat)
| Seq (r1 r2 : regex)
| Alt (r1 r2 : regex)
| Opt (r : regex)
| Grp (i : nat) (r : regex)
| Bnd.

(** A candidate match: the text consumed, the text left, the groups. *)
Record cand : Type := Cand {
  consumed : string;
  rest : string;
  groups : gmap nat string
}.

Definition hi_open (hi : option nat) : bool :=
  match hi with Some O => false | _ => true end.

Definition hi_pred (hi : option nat) : option nat :=
  match hi with Some h => Some (Nat.pred h) | None => None end.

(** Greedy repetition: longest run first, then shorter ones down to [lo]. *)
Fixpoint rep (cls : ascii -> bool) (lo : nat) (hi : option nat)
    (s : string) (g : gmap nat string) : list cand :=
  let stop := match lo with O => [Cand EmptyString s g] | S _ => [] end in
  match s with
  | String c s' =>
      if cls c && hi_open hi then
        fmap (fun k => Cand (String c (consumed k)) (rest k) (groups k))
            (rep cls (Nat.pred lo) (hi_pred hi) s' g) ++ stop
      else stop
  | EmptyString => stop
  end.

Definition word_before (prev : option ascii) : bool :=
  match prev with Some c => Py.is_word c | None => false end.

Definition word_after (s : string) : bool :=
  match s with String c _ => Py.is_word c | EmptyString => false end.

(** All matches of [r] at the start of [s], in the order a backtracking
    matcher tries them; [prev] is the character before [s]. *)
Fixpoint matches (r : regex) (prev : option ascii) (s : string)
    (g : gmap nat string) : list cand :=
  match r with
  | Lit l =>
      match Py.strip_prefix l s with
      | Some s' => [Cand l s' g]
      | None => []
      end
  | Rep cls lo hi => rep cls lo hi s g
  | Seq r1 r2 =>
      k1 ← matches r1 prev s g;
      k2 ← matches r2 (Py.last_char prev (consumed k1)) (rest k1) (groups k1);
      [Cand (consumed k1 +:+ consumed k2) (rest k2) (groups k2)]
  | Alt r1 r2 => matches r1 prev s g ++ matches r2 prev s g
  | Opt r1 => matches r1 prev s g ++ [Cand EmptyString s g]
  | Grp i r1 =>
      fmap (fun k => Cand (consumed k) (rest k) (<[i := consumed k]> (groups k)))
          (matches r1 prev s g)
  | Bnd =>
      if xorb (word_before prev) (word_after s)
      then [Cand EmptyString s g] else []
  end.

(** [re.search(r, s)]: the first match at the leftmost position that has
    one; the result is the match object's groups. *)
Fixpoint search_from (r : regex) (prev : option ascii) (s : string)
    : option (gmap nat string) :=
  match matches r prev s ∅ with
  | k :: _ => Some (groups k)
  | [] =>
      match s with
      | EmptyString => None
      | String c s' => search_from r (Some c) s'
      end
  end.

Definition search (r : regex) (s : string) : option (gmap nat string) :=
  search_from r None s.

(** The truth value of a match object: [if re.search(...)]. *)
Definition found (m : option (gmap nat string)) : bool :=
  match m with Some _ => true | None => false end.

(** [match.group(i)]; [None] when the group took no part in the match. *)
Definition group (m : gmap nat string) (i : nat) : option string := m !! i.

End Re.

(* ===================================================================== *)
(** * Chat agents and the workflow context, as the handlers see them      *)
(* ===================================================================== *)

(** [ChatMessage(role=..., text=...)]. *)
Record ChatMessage : Type := mkChatMessage { role : string; text : string }.

(** What [await agent.run(messages)] does: raise an exception (kept as its
    [str(e)]), or return a response with its [messages]. *)
Inductive AgentRunResponse : Type :=
| AgentRaises (e : string)
| AgentResponse (messages : list ChatMessage).

(** A [ChatAgent]: the remote model is a function of the conversation sent. *)
Record ChatAgent : Type := mkChatAgent {
  name : string;
  run : list ChatMessage -> AgentRunResponse
}.

(** Python's [typing.Never]. *)
Definition Never : Type := Empty_set.

(** The calls a handler makes on its [WorkflowContext[T_Out, W_Out]]. *)
Inductive CtxCall (T_Out W_Out : Type) : Type :=
| send_message (m : T_Out)
| yield_output (o : W_Out).
Arguments send_message {T_Out W_Out} m.
Arguments yield_output {T_Out W_Out} o.

(** Outcome of a Python block: a value, or a raised exception. *)
Inductive result (A : Type) : Type :=
| Return (a : A)
| Raise (e : string).
Arguments Return {A} a.
Arguments Raise {A} e.

(** A handler body: the context calls made so far and how the block ended. *)
Definition Handler (T_Out W_Out A : Type) : Type :=
  (list (CtxCall T_Out W_Out) * result A)%type.

Section HandlerMonad.
Context {T_Out W_Out : Type}.

Definition h_ret {A} (a : A) : Handler T_Out W_Out A := ([], Return a).

Definition h_bind {A B} (m : Handler T_Out W_Out A)
    (k : A -> Handler T_Out W_Out B) : Handler T_Out W_Out B :=
  match m with
  | (c1, Return a) => let '(c2, r) := k a in (c1 ++ c2, r)
  | (c1, Raise e) => (c1, Raise e)
  end.

(** [try: body except Exception as e: handler(e)]. *)
Definition try_except {A} (body : Handler T_Out W_Out A)
    (handler : string -> Handler T_Out W_Out A) : Handler T_Out W_Out A :=
  match body with
  | (c1, Raise e) => let '(c2, r) := handler e in (c1 ++ c2, r)
  | (c1, Return a) => (c1, Return a)
  end.

Definition raise {A} (e : string) : Handler T_Out W_Out A := ([], Raise e).

(** [await ctx.send_message(m)] and [await ctx.yield_output(o)]. *)
Definition ctx_send_message (m : T_Out) : Handler T_Out W_Out unit :=
  ([send_message m], Return tt).

Definition ctx_yield_output (o : W_Out) : Handler T_Out W_Out unit :=
  ([yield_output o], Return tt).

(** [await agent.run(messages)], giving [response.messages]. *)
Definition agent_run (a : ChatAgent) (ms : list ChatMessage)
    : Handler T_Out W_Out (list ChatMessage) :=
  match run a ms with
  | AgentRaises e => raise e
  | AgentResponse out => h_ret out
  end.

(** Lifting of a pure computation that may raise. *)
Definition lift {A} (r : result A) : Handler T_Out W_Out A := ([], r).
End HandlerMonad.

#[global] Instance Handler_ret {T W} : MRet (Handler T W) := @h_ret T W.
#[global] Instance Handler_bind {T W} : MBind (Handler T W) :=
  fun A B k m => h_bind m k.

(** The context calls of a finished invocation, and the exception that
    escaped it, if any. *)
Definition calls {T W A} (h : Handler T W A) : list (CtxCall T W) := fst h.

Definition raised {T W A} (h : Handler T W A) : option string :=
  match snd h with Raise e => Some e | Return _ => None end.

(** [response.messages[-1].text if response.messages else "No response"]. *)
Definition last_text_or_no_response (messages : list ChatMessage) : string :=
  match last messages with
  | Some m => text m
  | None => "No response"
  end.

Definition nl : string := String (ascii_of_nat 10) EmptyString.

(* ===================================================================== *)
(** * workflows/workflow.py: request and response models                  *)
(* ===================================================================== *)

(** Python [float] values are only carried from one model to the next. *)
Definition float : Type := Q.

Module AnalysisRequest.
Record t : Type := mk {
  transaction_id : string;
  customer_id : string;
  amount : option float;
  currency : option string
}.
End AnalysisRequest.

Module CustomerDataResponse.
Record t : Type := mk {
  customer_id : string;
  transaction_id : string;
  analysis : string;
  status : string;
  amount : option float;
  currency : option string
}.
End CustomerDataResponse.

Module RiskAnalysisResponse.
Record t : Type := mk {
  transaction_id : string;
  customer_id : string;
  risk_analysis : string;
  risk_score : Z;
  risk_level : string;
  recommendation : string;
  status : string;
  amount : option float;
  currency : option string;
  model_confidence : option float
}.
End RiskAnalysisResponse.

Module FraudAlertResponse.
Record t : Type := mk {
  transaction_id : string;
  customer_id : string;
  alert_response : string;
  alert_created : bool;
  workflow_status : string;
  risk_score : Z;
  risk_level : string
}.
End FraudAlertResponse.

(** An [Executor] instance: the attributes [__init__] sets. *)
Module Executor.
Record t : Type := mk { agent : ChatAgent; id : string }.
End Executor.

(* ===================================================================== *)
(** * workflows/workflow.py: the three executors                          *)
(* ===================================================================== *)

Module CustomerDataAgentExecutor.
Import AnalysisRequest.

Definition init (agent : ChatAgent) : Executor.t :=
  Executor.mk agent "CustomerDataAgent".

Definition prompt (request : AnalysisRequest.t) : string :=
  "Analyze customer " +:+ customer_id request +:+ " and their transactions "
  +:+ "comprehensively for fraud detection purposes.".

Definition handle (self : Executor.t) (request : AnalysisRequest.t)
    : Handler CustomerDataResponse.t Never unit :=
  try_except
    (messages ← agent_run (Executor.agent self)
                   [mkChatMessage "user" (prompt request)];
     let analysis := last_text_or_no_response messages in
     ctx_send_message
       (CustomerDataResponse.mk (customer_id request) (transaction_id request)
          analysis "SUCCESS" (amount request) (currency request)))
    (fun e =>
     ctx_send_message
       (CustomerDataResponse.mk (customer_id request) (transaction_id request)
          ("Error: " +:+ e) "ERROR" None (Some "USD"))).
End CustomerDataAgentExecutor.

Module RiskAnalyserAgentExecutor.
Import CustomerDataResponse Re.

Definition init (agent : ChatAgent) : Executor.t :=
  Executor.mk agent "RiskAnalyserAgent".

Definition prompt (customer_response : CustomerDataResponse.t) : string :=
  "Based on this customer data analysis, perform a comprehensive "
  +:+ "risk assessment:" +:+ nl +:+ nl +:+ analysis customer_response
  +:+ nl +:+ nl
  +:+ "Transaction ID: " +:+ transaction_id customer_response +:+ nl
  +:+ "Customer ID: " +:+ customer_id customer_response +:+ nl +:+ nl
  +:+ "Provide a complete risk assessment with score (0-100), level "
  +:+ "(LOW/MEDIUM/HIGH), and recommendation (ALLOW/INVESTIGATE/BLOCK).".

Infix "⋅" := Seq (at level 41, right associativity).

(** [\s*], [[:\s]*] and [(\d{1,3})]. *)
Definition ws : regex := Rep Py.is_space 0 None.
Definition colon_ws : regex :=
  Rep (fun c => Ascii.eqb c ":"%char || Py.is_space c) 0 None.
Definition digits13 : regex := Grp 1 (Rep Py.is_digit 1 (Some 3%nat)).

Definition patterns : list regex := [
  (* r"risk\s*score[:\s]*(\d{1,3})(?:\s*/\s*100)?" *)
  Lit "risk" ⋅ ws ⋅ Lit "score" ⋅ colon_ws ⋅ digits13
    ⋅ Opt (ws ⋅ Lit "/" ⋅ ws ⋅ Lit "100");
  (* r"score[:\s]*(\d{1,3})\s*/\s*100" *)
  Lit "score" ⋅ colon_ws ⋅ digits13 ⋅ ws ⋅ Lit "/" ⋅ ws ⋅ Lit "100";
  (* r"(\d{1,3})\s*(?:out of|/)\s*100" *)
  digits13 ⋅ ws ⋅ Alt (Lit "out of") (Lit "/") ⋅ ws ⋅ Lit "100";
  (* r"\*\*risk[:\s]*(\d{1,3})\*\*" *)
  Lit "**risk" ⋅ colon_ws ⋅ digits13 ⋅ Lit "**";
  (* r"overall\s*risk[:\s]*(\d{1,3})" *)
  Lit "overall" ⋅ ws ⋅ Lit "risk" ⋅ colon_ws ⋅ digits13;
  (* r"assessment[:\s]*(\d{1,3})" *)
  Lit "assessment" ⋅ colon_ws ⋅ digits13
].

(** r"\b(high|critical|severe)\s*(risk)?" and its two siblings. *)
Definition level_pattern (words : regex) : regex :=
  Bnd ⋅ Grp 1 words ⋅ ws ⋅ Opt (Grp 2 (Lit "risk")).

Definition high_pattern : regex :=
  level_pattern (Alt (Lit "high") (Alt (Lit "critical") (Lit "severe"))).
Definition medium_pattern : regex :=
  level_pattern (Alt (Lit "medium") (Lit "moderate")).
Definition low_pattern : regex :=
  level_pattern (Alt (Lit "low") (Lit "minimal")).

(** [int(match.group(1))]. *)
Definition int_group1 (m : gmap nat string) : result Z :=
  match group m 1 with
  | None => Raise "int() argument must be a string, not 'NoneType'"
  | Some g =>
      match Py.int g with
      | Some n => Return n
      | None => Raise ("invalid literal for int() with base 10: " +:+ g)
      end
  end.

(** The [for pattern in patterns] loop: [risk_score] after it. *)
Fixpoint scan_patterns (ps : list regex) (lowered : string)
    : result (option Z) :=
  match ps with
  | [] => Return None
  | pattern :: ps' =>
      match search pattern lowered with
      | Some m =>
          match int_group1 m with
          | Raise e => Raise e
          | Return score =>
              if (0 <=? score) && (score <=? 100) then Return (Some score)
              else scan_patterns ps' lowered
          end
      | None => scan_patterns ps' lowered
      end
  end.

(** The level-keyword fallback taken when no score was found. *)
Definition fallback_score (lowered : string) : Z :=
  if found (search high_pattern lowered) then 85
  else if found (search medium_pattern lowered) then 55
  else if found (search low_pattern lowered) then 25
  else 50.

Definition parse_risk_score (risk_analysis : string) : result Z :=
  match scan_patterns patterns (Py.lower risk_analysis) with
  | Raise e => Raise e
  | Return (Some score) => Return score
  | Return None => Return (fallback_score (Py.lower risk_analysis))
  end.

Definition level_of (risk_score : Z) : string :=
  if 75 <=? risk_score then "HIGH"
  else if 40 <=? risk_score then "MEDIUM" else "LOW".

Definition recommendation_of (risk_level : string) : string :=
  if String.eqb risk_level "HIGH" then "BLOCK"
  else if String.eqb risk_level "MEDIUM" then "INVESTIGATE" else "ALLOW".

(** [abs(risk_score - 50) / 50]. *)
Definition confidence_of (risk_score : Z) : float :=
  Qmake (Z.abs (risk_score - 50)) 50.

Definition handle (self : Executor.t)
    (customer_response : CustomerDataResponse.t)
    : Handler RiskAnalysisResponse.t Never unit :=
  try_except
    (messages ← agent_run (Executor.agent self)
                   [mkChatMessage "user" (prompt customer_response)];
     let risk_analysis := last_text_or_no_response messages in
     risk_score ← lift (parse_risk_score risk_analysis);
     let risk_level := level_of risk_score in
     let recommendation := recommendation_of risk_level in
     let confidence_score := confidence_of risk_score in
     ctx_send_message
       (RiskAnalysisResponse.mk
          (transaction_id customer_response) (customer_id customer_response)
          risk_analysis risk_score risk_level recommendation "SUCCESS"
          (amount customer_response) (currency customer_response)
          (Some confidence_score)))
    (fun e =>
     ctx_send_message
       (RiskAnalysisResponse.mk
          (transaction_id customer_response) (customer_id customer_response)
          ("Error: " +:+ e) 0 "UNKNOWN" "INVESTIGATE" "ERROR"
          None (Some "USD") None)).
End RiskAnalyserAgentExecutor.

Module FraudAlertAgentExecutor.
Import RiskAnalysisResponse.

Definition init (agent : ChatAgent) : Executor.t :=
  Executor.mk agent "FraudAlertAgent".

Definition severity_of (risk_score : Z) : string :=
  if 90 <=? risk_score then "CRITICAL"
  else if 75 <=? risk_score then "HIGH"
  else if 50 <=? risk_score then "MEDIUM" else "LOW".

Definition prompt (risk_response : RiskAnalysisResponse.t) : string :=
  let severity := severity_of (risk_score risk_response) in
  "Based on this risk analysis, determine if a fraud alert should "
  +:+ "be created:" +:+ nl +:+ nl
  +:+ "Risk Analysis:" +:+ nl +:+ risk_analysis risk_response +:+ nl +:+ nl
  +:+ "Transaction ID: " +:+ transaction_id risk_response +:+ nl
  +:+ "Customer ID: " +:+ customer_id risk_response +:+ nl
  +:+ "Risk Score: " +:+ pretty (risk_score risk_response) +:+ "/100" +:+ nl
  +:+ "Risk Level: " +:+ risk_level risk_response +:+ nl
  +:+ "Recommendation: " +:+ recommendation risk_response +:+ nl
  +:+ "Severity: " +:+ severity +:+ nl +:+ nl
  +:+ "If risk score >= 40, create a fraud alert. Otherwise explain "
  +:+ "why no alert is needed.".

Definition alert_created_of (alert_response : string) (risk_score : Z)
    : bool :=
  Py.contains "alert created" (Py.lower alert_response)
  || (40 <=? risk_score).

Definition handle (self : Executor.t)
    (risk_response : RiskAnalysisResponse.t)
    : Handler Never FraudAlertResponse.t unit :=
  try_except
    (messages ← agent_run (Executor.agent self)
                   [mkChatMessage "user" (prompt risk_response)];
     let alert_response := last_text_or_no_response messages in
     let alert_created :=
       alert_created_of alert_response (risk_score risk_response) in
     ctx_yield_output
       (FraudAlertResponse.mk
          (transaction_id risk_response) (customer_id risk_response)
          alert_response alert_created "SUCCESS"
          (risk_score risk_response) (risk_level risk_response)))
    (fun e =>
     ctx_yield_output
       (FraudAlertResponse.mk
          (transaction_id risk_response) (customer_id risk_response)
          ("Error: " +:+ e) false "ERROR"
          (risk_score risk_response) (risk_level risk_response))).
End FraudAlertAgentExecutor.

(* ===================================================================== *)
(** * orchestration/demo/sequential_agents.py: the three executors        *)
(* ===================================================================== *)

(** [response.messages[-1]]: an [IndexError] on an empty list.  The handlers
    evaluate it to print the reply before they extend the conversation. *)
Definition last_message {T W} (messages : list ChatMessage)
    : Handler T W ChatMessage :=
  match last messages with
  | Some m => mret m
  | None => raise "list index out of range"
  end.

Module ResearcherAgentV2Executor.
Definition init (agent : ChatAgent) : Executor.t :=
  Executor.mk agent "ResearcherAgentV2".

(** [message: ChatMessage | list[ChatMessage]]. *)
Definition handle (self : Executor.t)
    (message : ChatMessage + list ChatMessage)
    : Handler (list ChatMessage) Never unit :=
  let messages :=
    match message with inr l => l | inl m => [m] end in
  response ← agent_run (Executor.agent self) messages;
  _ ← last_message response;
  (* messages.extend(response.messages) *)
  let messages := messages ++ response in
  ctx_send_message messages.
End ResearcherAgentV2Executor.

Module WriterAgentV2Executor.
Definition init (agent : ChatAgent) : Executor.t :=
  Executor.mk agent "WriterAgentV2".

Definition handle (self : Executor.t) (messages : list ChatMessage)
    : Handler (list ChatMessage) Never unit :=
  response ← agent_run (Executor.agent self) messages;
  _ ← last_message response;
  let messages := messages ++ response in
  ctx_send_message messages.
End WriterAgentV2Executor.

Module ReviewerAgentV2Executor.
Definition init (agent : ChatAgent) : Executor.t :=
  Executor.mk agent "ReviewerAgentV2".

Definition handle (self : Executor.t) (messages : list ChatMessage)
    : Handler Never (list ChatMessage) unit :=
  response ← agent_run (Executor.agent self) messages;
  _ ← last_message response;
  let messages := messages ++ response in
  ctx_yield_output messages.
End ReviewerAgentV2Executor.

(* ===================================================================== *)
(** * Events of a run and the consuming loops                             *)
(* ===================================================================== *)

Inductive RunState : Type := INITIALIZING | RUNNING | COMPLETED | FAILED.

#[global] Instance RunState_eq_dec : EqDecision RunState.
Proof. solve_decision. Defined.

(** [WorkflowStatusEvent] and [WorkflowOutputEvent]. *)
Inductive Event (P : Type) : Type :=
| StatusEvent (state : RunState)
| OutputEvent (data : P).
Arguments StatusEvent {P} state.
Arguments OutputEvent {P} data.

(** The loop of [run_fraud_detection_workflow]:
    [final_result = None; async for event in stream:
       if isinstance(event, WorkflowOutputEvent): final_result = event.data]. *)
Definition consume_step {P} (final_result : option P) (event : Event P)
    : option P :=
  match event with
  | OutputEvent data => Some data
  | StatusEvent _ => final_result
  end.

Definition consume {P} (stream : list (Event P)) : option P :=
  foldl consume_step None stream.

(** The payloads of the [WorkflowOutputEvent]s of a stream, in order. *)
Definition outputs {P} (stream : list (Event P)) : list P :=
  omap (fun event =>
          match event with OutputEvent data => Some data | _ => None end)
       stream.

(* ===================================================================== *)
(** * The graph execution engine ([WorkflowBuilder], [run_stream])        *)
(* ===================================================================== *)

(** The executors above run on the engine imported from [agent_framework];
    its code is not part of the sources embedded here.  Everything in this
    module follows the specification of the engine (sections 3, 4 and 7). *)

Module Engine.

(** Modelled from the spec: the violations [build()] reports, section 4.1. *)
Inductive Violation : Type :=
| MissingEntry
| UnreachableStage (id : string)
| DuplicateEdge (source target : string).

(** Modelled from the spec: the build-time errors of section 7. *)
Inductive BuildError : Type :=
| DuplicateStageError (id : string)
| UnknownStageError (id : string)
| InvalidGraphError (v : Violation).

(** Modelled from the spec: the lifecycle facts of a Run, in the order
    they become true; kept to state ordering properties. *)
Inductive Activity : Type :=
| Invoked (id : string)
| Emitted (id : string)
| Completed (id : string)
| Faulted (id : string).

#[global] Instance Activity_eq_dec : EqDecision Activity.
Proof. solve_decision. Defined.

Section WithTypes.
(** Envelope payloads, terminal outputs, and stage instances. *)
Context {Msg Out Inst : Type}.

(** Modelled from the spec: a stage, registered as a factory that builds
    the instance and the handler [(envelope, RunContext) -> outcome] of
    that instance; the handler may change the instance it runs on. *)
Record Stage : Type := mkStage {
  factory : unit -> Inst;
  handler : Inst -> Msg -> Inst * Handler Msg Out unit
}.

(** Modelled from the spec: the mutable Graph Builder of section 4.1:
    the stages registered so far, the edges recorded so far, the entry
    stage if one was designated. *)
Record Builder : Type := mkBuilder {
  b_stages : gmap string Stage;
  b_edges : list (string * string);
  b_entry : option string
}.

(** Modelled from the spec: the immutable Graph of section 3. *)
Record Graph : Type := mkGraph {
  stages : gmap string Stage;
  edges : list (string * string);
  entry : string
}.

(** Modelled from the spec: a fresh builder, [WorkflowBuilder()]. *)
Definition WorkflowBuilder : Builder := mkBuilder ∅ [] None.

(** Modelled from the spec: [register(id, factory)], in the sources
    [register_executor(factory, name=id)]; a second registration of an
    id fails with [DuplicateStageError]. *)
Definition register_executor (st : Stage) (id : string) (b : Builder)
    : BuildError + Builder :=
  match b_stages b !! id with
  | Some _ => inl (DuplicateStageError id)
  | None => inr (mkBuilder (<[id := st]> (b_stages b)) (b_edges b) (b_entry b))
  end.

(** Modelled from the spec: [connect(sourceId, targetId)], in the sources
    [add_edge]; the edge is recorded and its endpoints are checked by
    [build]. *)
Definition add_edge (source target : string) (b : Builder)
    : BuildError + Builder :=
  inr (mkBuilder (b_stages b) (b_edges b ++ [(source, target)]) (b_entry b)).

(** Modelled from the spec: [setEntry(id)], in the sources
    [set_start_executor]; fails with [UnknownStageError] on an
    unregistered id. *)
Definition set_start_executor (id : string) (b : Builder)
    : BuildError + Builder :=
  match b_stages b !! id with
  | None => inl (UnknownStageError id)
  | Some _ => inr (mkBuilder (b_stages b) (b_edges b) (Some id))
  end.

(** Modelled from the spec: the targets of the edges whose source is
    [s], one per edge. *)
Definition successors (es : list (string * string)) (s : string)
    : list string :=
  (filter (fun e => e.1 = s) es).*2.

(** Modelled from the spec: one round of following edges out of [R]. *)
Definition reach_step (es : list (string * string)) (R : gset string)
    : gset string :=
  R ∪ list_to_set ((filter (fun e => e.1 ∈ R) es).*2).

(** Modelled from the spec: the stages reached from [e] in at most [n]
    rounds. *)
Definition reach (n : nat) (es : list (string * string)) (e : string)
    : gset string :=
  Nat.iter n (reach_step es) {[e]}.

(** Modelled from the spec: the first endpoint of an edge that names no
    registered stage. *)
Fixpoint unknown_endpoint (ids : gset string) (es : list (string * string))
    : option string :=
  match es with
  | [] => None
  | (s, t) :: es' =>
      if decide (s ∈ ids) then
        if decide (t ∈ ids) then unknown_endpoint ids es' else Some t
      else Some s
  end.

(** Modelled from the spec: the first edge that occurs again later. *)
Fixpoint duplicate_edge (es : list (string * string))
    : option (string * string) :=
  match es with
  | [] => None
  | e :: es' => if decide (e ∈ es') then Some e else duplicate_edge es'
  end.

(** Modelled from the spec: [build()] of section 4.1.  It checks the
    edge endpoints, the entry stage, the uniqueness of edges and the
    reachability of every stage from the entry, and returns the Graph. *)
Definition build (b : Builder) : BuildError + Graph :=
  let ids := dom (b_stages b) in
  match unknown_endpoint ids (b_edges b) with
  | Some id => inl (UnknownStageError id)
  | None =>
      match b_entry b with
      | None => inl (InvalidGraphError MissingEntry)
      | Some e =>
          if decide (e ∈ ids) then
            match duplicate_edge (b_edges b) with
            | Some (s, t) => inl (InvalidGraphError (DuplicateEdge s t))
            | None =>
                match elements (ids ∖ reach (size ids) (b_edges b) e) with
                | id :: _ => inl (InvalidGraphError (UnreachableStage id))
                | [] => inr (mkGraph (b_stages b) (b_edges b) e)
                end
            end
          else inl (InvalidGraphError MissingEntry)
      end
  end.

(** Modelled from the spec: a Run of section 3: its state, the FIFO work
    queue, the captured terminal output, the events appended so far and
    the stage instances made during this Run.  [history] and [handled]
    record what was done and which pairs were dequeued, in order. *)
Record Run : Type := mkRun {
  state : RunState;
  queue : list (string * Msg);
  output : option Out;
  events : list (Event Out);
  instances : gmap string Inst;
  history : list Activity;
  handled : list (string * Msg)
}.

(** Modelled from the spec: a Run as constructed, before any dispatch. *)
Definition new_run (g : Graph) (input : Msg) : Run :=
  mkRun INITIALIZING [(entry g, input)] None [] ∅ [] [].

(** Modelled from the spec: work begins, [StatusEvent RUNNING] is
    emitted. *)
Definition begin (r : Run) : Run :=
  mkRun RUNNING (queue r) (output r) (events r ++ [StatusEvent RUNNING])
        (instances r) (history r) (handled r).

(** Modelled from the spec: a stage fault or a protocol violation ends
    the Run in [FAILED]. *)
Definition fail (id : string) (r : Run) : Run :=
  mkRun FAILED (queue r) None (events r ++ [StatusEvent FAILED])
        (instances r) (history r ++ [Faulted id]) (handled r).

(** Modelled from the spec: [complete(payload)] records the terminal
    output and ends the Run in [COMPLETED]. *)
Definition complete (id : string) (o : Out) (r : Run) : Run :=
  mkRun COMPLETED (queue r) (Some o)
        (events r ++ [StatusEvent COMPLETED; OutputEvent o])
        (instances r) (history r ++ [Completed id]) (handled r).

(** Modelled from the spec: [emit(envelope)] enqueues the envelope to
    each edge whose source is this stage; with no such edge it is an
    emission to a nonexistent edge. *)
Definition emit (g : Graph) (id : string) (m : Msg) (r : Run) : Run :=
  match successors (edges g) id with
  | [] => fail id r
  | ts =>
      mkRun (state r) (queue r ++ ((fun t => (t, m)) <$> ts)) (output r)
            (events r) (instances r) (history r ++ [Emitted id])
            (handled r)
  end.

(** Modelled from the spec: step 2 of section 4.2: the instance of the
    stage in this Run, made by the factory unless already made. *)
Definition instance_of (st : Stage) (id : string) (r : Run) : Inst :=
  match instances r !! id with
  | Some inst => inst
  | None => factory st tt
  end.

(** Modelled from the spec: step 3 of section 4.2: the Run once the
    handler of stage [id] returned, leaving the instance [inst]. *)
Definition invoked (id : string) (inst : Inst) (env : Msg) (r : Run) : Run :=
  mkRun (state r) (queue r) (output r) (events r)
        (<[id := inst]> (instances r)) (history r ++ [Invoked id])
        (handled r ++ [(id, env)]).

(** Modelled from the spec: steps 2 to 4 of section 4.2 for the
    dequeued pair [(id, env)]: exactly one [emit] or one [complete] is an
    outcome, a raised exception is a stage fault, and no call or several
    calls are a protocol violation. *)
Definition dispatch (g : Graph) (id : string) (env : Msg) (r : Run) : Run :=
  match stages g !! id with
  | None => fail id r
  | Some st =>
      let '(inst, (cs, res)) := handler st (instance_of st id r) env in
      let r1 := invoked id inst env r in
      match res, cs with
      | Return _, [send_message m] => emit g id m r1
      | Return _, [yield_output o] => complete id o r1
      | _, _ => fail id r1
      end
  end.

(** Modelled from the spec: step 1 of section 4.2, the queue after the
    head was dequeued. *)
Definition pop (r : Run) (q : list (string * Msg)) : Run :=
  mkRun (state r) q (output r) (events r) (instances r) (history r)
        (handled r).

(** Modelled from the spec: the loop of section 4.2: while the Run is
    [RUNNING] and the queue is non-empty, dequeue and dispatch.  [None]
    when [fuel] dispatches did not end the loop. *)
Fixpoint run_loop (fuel : nat) (g : Graph) (r : Run) : option Run :=
  match state r with
  | RUNNING =>
      match queue r with
      | [] => Some r
      | (id, env) :: q =>
          match fuel with
          | O => None
          | S fuel' => run_loop fuel' g (dispatch g id env (pop r q))
          end
      end
  | _ => Some r
  end.

(** Modelled from the spec: one Run of [g] on [input]. *)
Definition execute (fuel : nat) (g : Graph) (input : Msg) : option Run :=
  run_loop fuel g (begin (new_run g input)).

(** Modelled from the spec: the Event Stream of one Run, as the
    consumer of [workflow.run_stream(input)] drains it. *)
Definition run_stream (fuel : nat) (g : Graph) (input : Msg)
    : option (list (Event Out)) :=
  events <$> execute fuel g input.

(** Modelled from the spec: successive Runs of one Graph; each Run owns
    its own queue, state, events and instances. *)
Definition run_each (fuel : nat) (g : Graph) (inputs : list Msg)
    : list (option Run) :=
  execute fuel g <$> inputs.



(** The conditions under which [build] is said to fail: an edge endpoint
    that names no registered stage. *)
Definition unregistered_endpoint (b : Builder) : Prop :=
  ∃ s t, (s, t) ∈ b_edges b ∧ (s ∉ dom (b_stages b) ∨ t ∉ dom (b_stages b)).

(** No entry stage: none designated, or none among the stages. *)
Definition no_entry (b : Builder) : Prop :=
  ∀ e, b_entry b = Some e → e ∉ dom (b_stages b).

(** [t] is reached from [s] by following edges. *)
Definition Reachable (es : list (string * string)) : relation string :=
  rtc (fun s t => (s, t) ∈ es).

(** A registered stage that the entry stage does not reach. *)
Definition unreachable_stage (b : Builder) : Prop :=
  ∃ e x, b_entry b = Some e ∧ x ∈ dom (b_stages b)
         ∧ ¬ Reachable (b_edges b) e x.

(** An edge recorded twice. *)
Definition repeated_edge (b : Builder) : Prop := ¬ NoDup (b_edges b).

Definition build_fails (b : Builder) : Prop :=
  ∃ err, build b = inl err.

End WithTypes.

Arguments Stage : clear implicits.
Arguments Builder : clear implicits.
Arguments Graph : clear implicits.
Arguments Run : clear implicits.

End Engine.

(** Chained builder calls, [WorkflowBuilder().register_executor(...)...]:
    the first call that raises ends the chain. *)
Definition and_then {A B} (m : Engine.BuildError + A)
    (f : A -> Engine.BuildError + B) : Engine.BuildError + B :=
  match m with inl e => inl e | inr a => f a end.

Infix ">>>" := and_then (at level 50, left associativity).

(** A typed handler run as a stage of the engine: its calls carry the
    engine's envelope type. *)
Definition retag {T W T' W' A} (f : T -> T') (h : W -> W')
    (m : Handler T W A) : Handler T' W' A :=
  (fmap (fun c => match c with
                 | send_message x => send_message (f x)
                 | yield_output o => yield_output (h o)
                 end) m.1, m.2).

Definition never {A} (x : Never) : A := match x with end.

(** A stage handed an envelope of a type it has no handler for. *)
Definition unhandled {T W} : Handler T W unit :=
  raise "no handler for this message type".

(* ===================================================================== *)
(** * workflows/workflow.py: the workflow and its runner                  *)
(* ===================================================================== *)

Module FraudWorkflow.
Import Engine.

(** The payload types that travel along the edges. *)
Inductive Message : Type :=
| Request (request : AnalysisRequest.t)
| CustomerData (customer_response : CustomerDataResponse.t)
| RiskAnalysis (risk_response : RiskAnalysisResponse.t).

Definition FraudStage : Type := Stage Message FraudAlertResponse.t Executor.t.
Definition Workflow : Type := Graph Message FraudAlertResponse.t Executor.t.

(** [lambda: CustomerDataAgentExecutor(customer_data_agent)]. *)
Definition customer_data_stage (customer_data_agent : ChatAgent) : FraudStage :=
  mkStage
    (fun _ => CustomerDataAgentExecutor.init customer_data_agent)
    (fun self m =>
       (self,
        match m with
        | Request request =>
            retag CustomerData never
                  (CustomerDataAgentExecutor.handle self request)
        | _ => unhandled
        end)).

(** [lambda: RiskAnalyserAgentExecutor(risk_analyser_agent)]. *)
Definition risk_analyser_stage (risk_analyser_agent : ChatAgent) : FraudStage :=
  mkStage
    (fun _ => RiskAnalyserAgentExecutor.init risk_analyser_agent)
    (fun self m =>
       (self,
        match m with
        | CustomerData customer_response =>
            retag RiskAnalysis never
                  (RiskAnalyserAgentExecutor.handle self customer_response)
        | _ => unhandled
        end)).

(** [lambda: FraudAlertAgentExecutor(fraud_alert_agent)]. *)
Definition fraud_alert_stage (fraud_alert_agent : ChatAgent) : FraudStage :=
  mkStage
    (fun _ => FraudAlertAgentExecutor.init fraud_alert_agent)
    (fun self m =>
       (self,
        match m with
        | RiskAnalysis risk_response =>
            retag never id
                  (FraudAlertAgentExecutor.handle self risk_response)
        | _ => unhandled
        end)).

(** The builder calls of [run_fraud_detection_workflow] and of [main],
    before [.build()]. *)
Definition builder (customer_data_agent risk_analyser_agent
                    fraud_alert_agent : ChatAgent)
    : BuildError + Builder Message FraudAlertResponse.t Executor.t :=
  inr WorkflowBuilder
  >>> register_executor (customer_data_stage customer_data_agent)
                        "CustomerDataAgent"
  >>> register_executor (risk_analyser_stage risk_analyser_agent)
                        "RiskAnalyserAgent"
  >>> register_executor (fraud_alert_stage fraud_alert_agent)
                        "FraudAlertAgent"
  >>> add_edge "CustomerDataAgent" "RiskAnalyserAgent"
  >>> add_edge "RiskAnalyserAgent" "FraudAlertAgent"
  >>> set_start_executor "CustomerDataAgent".

Definition workflow (customer_data_agent risk_analyser_agent
                     fraud_alert_agent : ChatAgent)
    : BuildError + Workflow :=
  builder customer_data_agent risk_analyser_agent fraud_alert_agent >>> build.

(** [run_fraud_detection_workflow]: build the workflow, make the request,
    drain the stream and return [final_result].  The outer [None] stands
    for a call that raised while building or that did not finish within
    [fuel] dispatches. *)
Definition run_fraud_detection_workflow (fuel : nat)
    (customer_data_agent risk_analyser_agent fraud_alert_agent : ChatAgent)
    (transaction_id customer_id : string)
    (amount : option float) (currency : option string)
    : option (option FraudAlertResponse.t) :=
  match workflow customer_data_agent risk_analyser_agent fraud_alert_agent with
  | inl _ => None
  | inr workflow =>
      let request :=
        AnalysisRequest.mk transaction_id customer_id amount currency in
      consume <$> run_stream fuel workflow (Request request)
  end.

End FraudWorkflow.

(* ===================================================================== *)
(** * orchestration/demo/sequential_agents.py: the workflow of [main]     *)
(* ===================================================================== *)

Module SequentialWorkflow.
Import Engine.

(** The first stage takes [ChatMessage | list[ChatMessage]], the others
    take [list[ChatMessage]]. *)
Definition Message : Type := (ChatMessage + list ChatMessage)%type.

Definition SeqStage : Type := Stage Message (list ChatMessage) Executor.t.
Definition Workflow : Type := Graph Message (list ChatMessage) Executor.t.

Definition researcher_stage (researcher : ChatAgent) : SeqStage :=
  mkStage
    (fun _ => ResearcherAgentV2Executor.init researcher)
    (fun self m =>
       (self, retag inr never (ResearcherAgentV2Executor.handle self m))).

Definition writer_stage (writer : ChatAgent) : SeqStage :=
  mkStage
    (fun _ => WriterAgentV2Executor.init writer)
    (fun self m =>
       (self,
        match m with
        | inr messages =>
            retag inr never (WriterAgentV2Executor.handle self messages)
        | inl _ => unhandled
        end)).

Definition reviewer_stage (reviewer : ChatAgent) : SeqStage :=
  mkStage
    (fun _ => ReviewerAgentV2Executor.init reviewer)
    (fun self m =>
       (self,
        match m with
        | inr messages =>
            retag never id (ReviewerAgentV2Executor.handle self messages)
        | inl _ => unhandled
        end)).

Definition builder (researcher writer reviewer : ChatAgent)
    : BuildError + Builder Message (list ChatMessage) Executor.t :=
  inr WorkflowBuilder
  >>> register_executor (researcher_stage researcher) "ResearcherAgentV2"
  >>> register_executor (writer_stage writer) "WriterAgentV2"
  >>> register_executor (reviewer_stage reviewer) "ReviewerAgentV2"
  >>> add_edge "ResearcherAgentV2" "WriterAgentV2"
  >>> add_edge "WriterAgentV2" "ReviewerAgentV2"
  >>> set_start_executor "ResearcherAgentV2".

Definition workflow (researcher writer reviewer : ChatAgent)
    : BuildError + Workflow :=
  builder researcher writer reviewer >>> build.
End SequentialWorkflow.

(* ===================================================================== *)
(** * Notions used to state the properties                                *)
(* ===================================================================== *)

(** Agents with a fixed behaviour, for the examples. *)
Definition replying (replies : list string) : ChatAgent :=
  mkChatAgent "sample"
    (fun _ => AgentResponse (mkChatMessage "assistant" <$> replies)).

Definition failing (e : string) : ChatAgent :=
  mkChatAgent "sample" (fun _ => AgentRaises e).

(** [needle] occurs in [text] when case is ignored. *)
Definition contains_ci (needle text : string) : Prop :=
  ∃ pre mid post, text = pre +:+ mid +:+ post ∧ Py.lower mid = needle.

(** What a sequential executor does with the conversation [messages]:
    nothing but raise when its agent raises or returns no message, and
    otherwise one call with the conversation extended by the reply. *)
Definition extends_conversation {T W}
    (agent : ChatAgent) (messages : list ChatMessage)
    (outcome : list ChatMessage → CtxCall T W)
    (h : Handler T W unit) : Prop :=
  match run agent messages with
  | AgentRaises e => h = ([], Raise e)
  | AgentResponse [] => h = ([], Raise "list index out of range")
  | AgentResponse response =>
      h = ([outcome (messages ++ response)], Return tt)
  end.

Module ReSem.
Import Re.

(** The texts a pattern matches and the groups it sets, read off the
    pattern ([\b] is read as the empty text). *)
Fixpoint sem (r : regex) (txt : string) (c c' : gmap nat string) : Prop :=
  match r with
  | Lit l => txt = l ∧ c' = c
  | Rep cls lo hi =>
      Py.all_chars cls txt = true ∧ (lo ≤ String.length txt)%nat
      ∧ (∀ h, hi = Some h → (String.length txt ≤ h)%nat) ∧ c' = c
  | Seq r1 r2 =>
      ∃ t1 t2 c1, txt = t1 +:+ t2 ∧ sem r1 t1 c c1 ∧ sem r2 t2 c1 c'
  | Alt r1 r2 => sem r1 txt c c' ∨ sem r2 txt c c'
  | Opt r1 => sem r1 txt c c' ∨ (txt = EmptyString ∧ c' = c)
  | Grp i r1 => ∃ c1, sem r1 txt c c1 ∧ c' = <[i := txt]> c1
  | Bnd => txt = EmptyString ∧ c' = c
  end.

(** What a match of a score pattern leaves in group 1. *)
Definition score_group (m : gmap nat string) : Prop :=
  ∃ g, m !! 1%nat = Some g ∧ g ≠ EmptyString
       ∧ Py.all_chars Py.is_digit g = true.

End ReSem.

Module Runs.
Import Engine.

(** A rank that strictly decreases along every edge: the graph is acyclic. *)
Definition ranked (es : list (string * string)) (rank : string → nat) : Prop :=
  ∀ s t, (s, t) ∈ es → (rank t < rank s)%nat.

(** The dispatches stage [s] can cause, itself included, in a graph whose
    paths from [s] have at most [n] edges. *)
Fixpoint pot (es : list (string * string)) (n : nat) (s : string) : nat :=
  match n with
  | O => 1%nat
  | S n' => S (sum_list_with (pot es n') (successors es s))
  end.

Definition is_terminal {P} (ev : Event P) : bool :=
  match ev with
  | StatusEvent COMPLETED | StatusEvent FAILED => true
  | _ => false
  end.

(** An event without its payload. *)
Definition shape {P} (ev : Event P) : Event unit :=
  match ev with
  | StatusEvent st => StatusEvent st
  | OutputEvent _ => OutputEvent tt
  end.

Definition stream_shape {P} (stream : list (Event P)) : list (Event unit) :=
  shape <$> stream.

(** The edges of the chain [s0 -> s1 -> ...]. *)
Definition chain_edges (ids : list string) : list (string * string) :=
  zip ids (tail ids).

(** The history of the stages [ids], each invoked and then emitting. *)
Definition forwarded (ids : list string) : list Activity :=
  s ← ids; [Invoked s; Emitted s].

(** How often the handler of stage [id] was invoked. *)
Definition invocations (id : string) (h : list Activity) : nat :=
  length (filter (λ a, a = Invoked id) h).

Definition fraud_ids : list string :=
  ["CustomerDataAgent"; "RiskAnalyserAgent"; "FraudAlertAgent"].

Definition sequential_ids : list string :=
  ["ResearcherAgentV2"; "WriterAgentV2"; "ReviewerAgentV2"].

Section WithTypes.
Context {Msg Out Inst : Type}.
Implicit Types (g : Graph Msg Out Inst) (r : Run Msg Out Inst).

(** Enough fuel for any Run of a graph ranked by [rank]. *)
Definition dispatch_bound g (rank : string → nat) : nat :=
  pot (edges g) (rank (entry g)) (entry g).

Definition run_shape (r : option (Run Msg Out Inst))
    : option (list (Event unit)) :=
  match r with Some r => Some (stream_shape (events r)) | None => None end.

(** A linear graph over the stages [ids], entered at the first. *)
Definition linear g (ids : list string) : Prop :=
  NoDup ids ∧ head ids = Some (entry g) ∧ edges g = chain_edges ids
  ∧ ∀ s, s ∈ ids → is_Some (stages g !! s).

(** A Run that is dispatching: nothing terminal was appended yet. *)
Definition in_progress r : Prop :=
  state r = RUNNING ∧ queue r ≠ [] ∧ output r = None
  ∧ events r = [StatusEvent RUNNING].

(** A Run that ended, with the events it leaves. *)
Definition settled r : Prop :=
  (state r = FAILED ∧ output r = None
   ∧ events r = [StatusEvent RUNNING; StatusEvent FAILED])
  ∨ (∃ o, state r = COMPLETED ∧ output r = Some o
          ∧ events r = [StatusEvent RUNNING; StatusEvent COMPLETED;
                        OutputEvent o]).

(** The ways a dispatch can end. *)
Inductive dispatched g (id : string) (env : Msg) r : Run Msg Out Inst → Prop :=
| dispatched_unknown :
    stages g !! id = None →
    dispatched g id env r (fail id r)
| dispatched_fault st :
    stages g !! id = Some st →
    dispatched g id env r
      (fail id (invoked id (handler st (instance_of st id r) env).1 env r))
| dispatched_complete st o :
    stages g !! id = Some st →
    dispatched g id env r
      (complete id o
         (invoked id (handler st (instance_of st id r) env).1 env r))
| dispatched_emit st m :
    stages g !! id = Some st →
    successors (edges g) id ≠ [] →
    (handler st (instance_of st id r) env).2 = ([send_message m], Return tt) →
    dispatched g id env r
      (emit g id m
         (invoked id (handler st (instance_of st id r) env).1 env r)).



(** The chain of builder calls of both sources, on any three stages. *)
Definition built (st1 st2 st3 : Stage Msg Out Inst) (n1 n2 n3 : string)
    : BuildError + Graph Msg Out Inst :=
  inr WorkflowBuilder
  >>> register_executor st1 n1
  >>> register_executor st2 n2
  >>> register_executor st3 n3
  >>> add_edge n1 n2
  >>> add_edge n2 n3
  >>> set_start_executor n1
  >>> build.

Definition no_graph : Graph Msg Out Inst := mkGraph ∅ [] "".

End WithTypes.
End Runs.

Module Samples.
Import Engine Runs.

(** A stage that counts its invocations, and a graph of that stage alone. *)
Definition counting_stage : Stage unit nat nat :=
  mkStage (λ _, 0%nat) (λ n _, (S n, ([yield_output (S n)], Return tt))).

Definition counting_graph : Graph unit nat nat :=
  mkGraph {["count" := counting_stage]} [] "count".

(** Two stages and the same edge recorded twice. *)
Definition two_edges_builder : Builder unit unit unit :=
  let st := mkStage (λ _, tt) (λ i _, (i, ([], Return tt))) in
  mkBuilder (<["B" := st]> (<["A" := st]> ∅)) [("A", "B"); ("A", "B")]
            (Some "A").

Definition sample_fraud_workflow : FraudWorkflow.Workflow :=
  match FraudWorkflow.workflow (replying ["customer profile"])
          (replying ["Risk Score: 82/100"]) (replying ["Alert created"]) with
  | inr g => g
  | inl _ => no_graph
  end.

Definition sample_request : FraudWorkflow.Message :=
  FraudWorkflow.Request
    (AnalysisRequest.mk "TX1001" "CUST1001" None (Some "USD")).

Definition fraud_rank (id : string) : nat :=
  if String.eqb id "CustomerDataAgent" then 2%nat
  else if String.eqb id "RiskAnalyserAgent" then 1%nat else 0%nat.

End Samples.

(* ===================================================================== *)
(** * Further Python primitives: slices, upper case, truth values         *)
(* ===================================================================== *)

Module PyText.

(** [c.upper()] on one ASCII character. *)
Definition upper_char (c : ascii) : ascii :=
  if Py.between 97 122 c then ascii_of_nat (nat_of_ascii c - 32) else c.

(** [str.upper()]. *)
Fixpoint upper (s : string) : string :=
  match s with
  | EmptyString => EmptyString
  | String c s' => String (upper_char c) (upper s')
  end.

(** [s[:n]]. *)
Fixpoint slice_to (n : nat) (s : string) : string :=
  match n, s with
  | S n', String c s' => String c (slice_to n' s')
  | _, _ => EmptyString
  end.

(** The truth value of an [Optional[float]]: [None] and zero are false. *)
Definition truthy (x : option float) : bool :=
  match x with
  | Some a => negb (Qeq_bool a 0)
  | None => false
  end.

(** The truth value of an [Optional[str]]: [None] and the empty string are
    false. *)
Definition truthy_str (x : option string) : bool :=
  match x with
  | Some EmptyString | None => false
  | Some _ => true
  end.

(** [x or d] on an [Optional[float]] and on an [Optional[str]]. *)
Definition or_float (x : option float) (d : float) : float :=
  match x with
  | Some a => if truthy x then a else d
  | None => d
  end.

Definition or_str (x : option string) (d : string) : string :=
  match x with
  | Some a => if truthy_str x then a else d
  | None => d
  end.

End PyText.

(* ===================================================================== *)
(** * workflows/workflow.py: the metrics recorded by the handlers         *)
(* ===================================================================== *)

Module Telemetry.

(** The [telemetry.record_*] calls of the risk and alert handlers, each
    with the arguments of the call in the order the handler gives them.
    The telemetry manager is taken not to raise, and an amount is read as
    the rational number the finite [float] stands for. *)
Inductive Call : Type :=
| record_risk_score (risk_score : Z) (transaction_id recommendation : string)
| record_model_prediction (transaction_id model_version : string)
    (confidence_score : float) (prediction : string)
    (top_features : list string)
| record_customer_friction (customer_id transaction_id friction_type : string)
    (transaction_declined : bool)
| record_fraud_alert_created
    (alert_id severity recommendation transaction_id : string)
| record_fraud_prevented (transaction_id : string)
    (blocked_amount : option float) (currency fraud_type : string)
    (risk_score : Z)
| record_sar_filed (transaction_id sar_id filing_deadline : string)
    (amount_threshold_exceeded : bool) (customer_id : string).

(** What the clock and [uuid] give while [FraudAlertAgentExecutor.handle]
    files a report: [datetime.now().strftime('%Y')], [uuid.uuid4().hex] and
    [(datetime.now() + timedelta(days=30)).strftime("%Y-%m-%d")]. *)
Record Ambient : Type := mkAmbient {
  year : string;
  uuid4_hex : string;
  in_30_days : string
}.

(** The calls of [RiskAnalyserAgentExecutor.handle]. *)
Definition risk_analyser_handle (self : Executor.t)
    (customer_response : CustomerDataResponse.t) : list Call :=
  let transaction_id := CustomerDataResponse.transaction_id customer_response in
  let customer_id := CustomerDataResponse.customer_id customer_response in
  match run (Executor.agent self)
            [mkChatMessage "user"
               (RiskAnalyserAgentExecutor.prompt customer_response)]
  with
  | AgentRaises _ => []
  | AgentResponse messages =>
      let risk_analysis := last_text_or_no_response messages in
      match RiskAnalyserAgentExecutor.parse_risk_score risk_analysis with
      | Raise _ => []
      | Return risk_score =>
          let risk_level := RiskAnalyserAgentExecutor.level_of risk_score in
          let recommendation :=
            RiskAnalyserAgentExecutor.recommendation_of risk_level in
          let confidence_score :=
            RiskAnalyserAgentExecutor.confidence_of risk_score in
          [record_risk_score risk_score transaction_id recommendation;
           record_model_prediction transaction_id "v2.3.1" confidence_score
             risk_level ["general_risk_assessment"]]
          ++ (if String.eqb recommendation "BLOCK"
                 || String.eqb recommendation "INVESTIGATE"
              then
                let friction_type :=
                  if String.eqb recommendation "BLOCK"
                  then "transaction_blocked" else "step_up_auth" in
                [record_customer_friction customer_id transaction_id
                   friction_type (String.eqb recommendation "BLOCK")]
              else [])
      end
  end.

(** [(risk_response.amount or 0) >= 10000]. *)
Definition amount_threshold (amount : option float) : bool :=
  Qle_bool (inject_Z 10000) (PyText.or_float amount (inject_Z 0)).

(** [f"SAR-{datetime.now().strftime('%Y')}-{uuid.uuid4().hex[:8].upper()}"]. *)
Definition sar_id_of (ambient : Ambient) : string :=
  "SAR-" +:+ year ambient +:+ "-"
  +:+ PyText.upper (PyText.slice_to 8 (uuid4_hex ambient)).

(** The calls of [FraudAlertAgentExecutor.handle]. *)
Definition fraud_alert_handle (ambient : Ambient) (self : Executor.t)
    (risk_response : RiskAnalysisResponse.t) : list Call :=
  let transaction_id := RiskAnalysisResponse.transaction_id risk_response in
  let recommendation := RiskAnalysisResponse.recommendation risk_response in
  let risk_score := RiskAnalysisResponse.risk_score risk_response in
  let amount := RiskAnalysisResponse.amount risk_response in
  let severity := FraudAlertAgentExecutor.severity_of risk_score in
  match run (Executor.agent self)
            [mkChatMessage "user"
               (FraudAlertAgentExecutor.prompt risk_response)]
  with
  | AgentRaises _ => []
  | AgentResponse messages =>
      let alert_response := last_text_or_no_response messages in
      let alert_created :=
        FraudAlertAgentExecutor.alert_created_of alert_response risk_score in
      if alert_created then
        [record_fraud_alert_created ("ALERT-" +:+ transaction_id) severity
           recommendation transaction_id]
        ++ (if String.eqb recommendation "BLOCK" && PyText.truthy amount
            then
              [record_fraud_prevented transaction_id amount
                 (PyText.or_str
                    (RiskAnalysisResponse.currency risk_response) "USD")
                 "general_fraud" risk_score]
            else [])
        ++ (if String.eqb severity "CRITICAL" || String.eqb severity "HIGH"
               || amount_threshold amount
            then
              [record_sar_filed transaction_id (sar_id_of ambient)
                 (in_30_days ambient) (amount_threshold amount)
                 (RiskAnalysisResponse.customer_id risk_response)]
            else [])
      else []
  end.

(** The kinds of call. *)
Definition is_alert (c : Call) : bool :=
  match c with record_fraud_alert_created _ _ _ _ => true | _ => false end.

Definition is_prevented (c : Call) : bool :=
  match c with record_fraud_prevented _ _ _ _ _ => true | _ => false end.

Definition is_sar (c : Call) : bool :=
  match c with record_sar_filed _ _ _ _ _ => true | _ => false end.

End Telemetry.

(* ===================================================================== *)
(** * workflows/workflow.py: the shared client and the chat clients       *)
(* ===================================================================== *)

Module Clients.

(** [AsyncAzureOpenAI(azure_endpoint=..., azure_ad_token_provider=...,
    api_version=...)]; the token provider is kept as the scope it was
    requested for. *)
Record AsyncAzureOpenAI : Type := mkAsyncAzureOpenAI {
  azure_endpoint : string;
  azure_ad_token_provider : string;
  api_version : string
}.

(** [get_openai_client()]: the function reads [os.environ] and the module
    variable [_openai_client]; it returns its result together with the
    value the variable holds afterwards.  A missing key of [os.environ] is
    a [KeyError], whose text is the quoted key. *)
Definition get_openai_client (environ : gmap string string)
    (_openai_client : option AsyncAzureOpenAI)
    : result AsyncAzureOpenAI * option AsyncAzureOpenAI :=
  match _openai_client with
  | Some client => (Return client, _openai_client)
  | None =>
      let token_provider := "https://cognitiveservices.azure.com/.default" in
      match environ !! "AZURE_OPENAI_ENDPOINT" with
      | Some endpoint =>
          let client :=
            mkAsyncAzureOpenAI endpoint token_provider "2024-10-21" in
          (Return client, Some client)
      | None => (Raise "'AZURE_OPENAI_ENDPOINT'", None)
      end
  end.

(** [os.environ.get("MODEL_DEPLOYMENT_NAME", "gpt-4")]. *)
Definition get_model_id (environ : gmap string string) : string :=
  default "gpt-4" (environ !! "MODEL_DEPLOYMENT_NAME").

Section Library.
(** The class [OpenAIChatClient] is agent_framework's: what its
    constructor returns or raises for the environment, the client and the
    model id it is given is left open. *)
Context {ChatClient : Type}.
Variable OpenAIChatClient :
  gmap string string → AsyncAzureOpenAI → string → result ChatClient.

(** [OpenAIChatClient(async_client=get_openai_client(),
    model_id=get_model_id())]: the arguments are evaluated in this order,
    then the constructor runs. *)
Definition create_chat_client (environ : gmap string string)
    (_openai_client : option AsyncAzureOpenAI)
    : result ChatClient * option AsyncAzureOpenAI :=
  match get_openai_client environ _openai_client with
  | (Return client, _openai_client) =>
      (OpenAIChatClient environ client (get_model_id environ),
       _openai_client)
  | (Raise e, _openai_client) => (Raise e, _openai_client)
  end.

(** Successive calls of [create_chat_client], one for each environment of
    [environs], in a process that starts with [_openai_client]. *)
Fixpoint create_chat_clients (environs : list (gmap string string))
    (_openai_client : option AsyncAzureOpenAI)
    : list (result ChatClient) :=
  match environs with
  | [] => []
  | environ :: environs' =>
      let '(r, _openai_client) := create_chat_client environ _openai_client in
      r :: create_chat_clients environs' _openai_client
  end.
End Library.

(** The endpoint of the first environment of [environs] that has one. *)
Definition first_endpoint (environs : list (gmap string string))
    : option string :=
  head (omap (λ environ, environ !! "AZURE_OPENAI_ENDPOINT") environs).

End Clients.

(* ===================================================================== *)
(** * orchestration/demo/sequential_agents.py: what the handlers print    *)
(* ===================================================================== *)

Module SequentialOutput.

(** [f"{text[:500]}..." if len(text) > 500 else text]. *)
Definition preview (text : string) : string :=
  if (500 <? String.length text)%nat
  then PyText.slice_to 500 text +:+ "..."
  else text.

(** The arguments of the [print] calls of a handler, in order: nothing when
    the agent raises; the header alone when the reply has no message, since
    [response.messages[-1]] then raises before the second [print]. *)
Definition prints (header : string) (agent : ChatAgent)
    (messages : list ChatMessage) : list string :=
  match run agent messages with
  | AgentRaises _ => []
  | AgentResponse response =>
      header ::
      match last response with
      | Some m => [preview (text m)]
      | None => []
      end
  end.

Definition researcher_prints (self : Executor.t)
    (message : ChatMessage + list ChatMessage) : list string :=
  prints (nl +:+ "ResearcherAgentV2 output:") (Executor.agent self)
    (match message with inr l => l | inl m => [m] end).

Definition writer_prints (self : Executor.t) (messages : list ChatMessage)
    : list string :=
  prints (nl +:+ "WriterAgentV2 output:") (Executor.agent self) messages.

Definition reviewer_prints (self : Executor.t) (messages : list ChatMessage)
    : list string :=
  prints (nl +:+ "ReviewerAgentV2 output:") (Executor.agent self) messages.

End SequentialOutput.

(* ===================================================================== *)
(** * batch_run/continuous_runner.py: the loop of [main]                  *)
(* ===================================================================== *)

Module ContinuousRunner.

(** How [await run_batch_simulation(...)] ends: it returns, it raises an
    [Exception], or the task is cancelled there (Ctrl+C), which
    [except Exception] does not catch. *)
Inductive Batch : Type := Returns | Raises (e : string) | Cancelled.

(** What one turn of the loop meets: the end of the batch, the draw of
    [random.randint(1, 6)], and whether the sleep is cancelled. *)
Record Turn : Type := mkTurn {
  batch : Batch;
  delay_minutes : Z;
  sleep_cancelled : bool
}.

(** What a turn does: the prints (without the clock readings they show),
    the batch it starts, the sleep it asks for. *)
Inductive Action : Type :=
| PrintRun (run_number : Z)
| RunBatch (num_transactions : Z) (delay_between : float)
    (randomize_delay shuffle_transactions : bool)
| PrintFailed (run_number : Z) (e : string)
| PrintNextRun (delay_minutes : Z)
| Sleep (seconds : Z).

(** [while True: ...], along the turns given; the loop has no exit of its
    own, so the actions of a finite list of turns are a prefix of what it
    does. *)
Fixpoint loop (run_number : Z) (turns : list Turn) : list Action :=
  match turns with
  | [] => []
  | turn :: turns' =>
      let run_number := run_number + 1 in
      let after_batch :=
        [PrintNextRun (delay_minutes turn); Sleep (delay_minutes turn * 60)]
        ++ (if sleep_cancelled turn then [] else loop run_number turns') in
      [PrintRun run_number; RunBatch 15 (inject_Z 1) true true]
      ++ match batch turn with
         | Returns => after_batch
         | Raises e => PrintFailed run_number e :: after_batch
         | Cancelled => []
         end
  end.

Definition main (turns : list Turn) : list Action := loop 0 turns.

(** The numbers of the runs started, and the sleeps asked for. *)
Definition started (actions : list Action) : list Z :=
  omap (λ a, match a with PrintRun n => Some n | _ => None end) actions.

Definition sleeps (actions : list Action) : list Z :=
  omap (λ a, match a with Sleep s => Some s | _ => None end) actions.


Definition uninterrupted (turn : Turn) : Prop :=
  batch turn ≠ Cancelled ∧ sleep_cancelled turn = false.

End ContinuousRunner.

(* ===================================================================== *)
(** * Notions used to state the further properties                        *)
(* ===================================================================== *)

(** The payloads that pass along the two edges of the fraud-detection
    graph: what the first executor sends on [request], what the second
    sends on that, what the third yields on that. *)
Definition fraud_chain (s1 s2 s3 : Executor.t) (request : AnalysisRequest.t)
    (c : CustomerDataResponse.t) (k : RiskAnalysisResponse.t)
    (f : FraudAlertResponse.t) : Prop :=
  calls (CustomerDataAgentExecutor.handle s1 request) = [send_message c]
  ∧ calls (RiskAnalyserAgentExecutor.handle s2 c) = [send_message k]
  ∧ calls (FraudAlertAgentExecutor.handle s3 k) = [yield_output f].

(** What a sequential handler with the header [header] prints on the
    conversation [messages]: nothing when its agent raises, the header
    alone when the reply holds no message, and otherwise the header and
    the text of the last message, whole up to 500 characters and cut to
    its first 500 characters followed by "..." beyond. *)
Definition prints_reply (header : string) (agent : ChatAgent)
    (messages : list ChatMessage) (printed : list string) : Prop :=
  match run agent messages with
  | AgentRaises _ => printed = []
  | AgentResponse response =>
      match last response with
      | None => printed = [header]
      | Some m =>
          ∃ p,
            printed = [header; p]
            ∧ (String.length p ≤ 503)%nat
            ∧ ((String.length (text m) ≤ 500)%nat → p = text m)
            ∧ ((500 < String.length (text m))%nat →
               p = PyText.slice_to 500 (text m) +:+ "...")
            ∧ PyText.slice_to 500 p = PyText.slice_to 500 (text m)
      end
  end.

(** The agent of an executor raised, or replied, on the prompt [p]. *)
Definition agent_raised (self : Executor.t) (p : string) : Prop :=
  ∃ e, run (Executor.agent self) [mkChatMessage "user" p] = AgentRaises e.

Definition agent_replied (self : Executor.t) (p : string) : Prop :=
  ∃ messages,
    run (Executor.agent self) [mkChatMessage "user" p]
    = AgentResponse messages.

(** The score formats named in the comments of the pattern list. *)
Definition documented_formats (score : string) : list string :=
  ["Risk Score: " +:+ score;
   "Risk Score: " +:+ score +:+ "/100";
   "Score: " +:+ score +:+ "/100";
   score +:+ " out of 100";
   score +:+ "/100";
   "**Risk: " +:+ score +:+ "**";
   "Overall Risk: " +:+ score;
   "Assessment: " +:+ score].

(** The text goes on with a digit. *)
Definition next_is_digit (s : string) : bool :=
  match s with
  | String c _ => Py.is_digit c
  | EmptyString => false
  end.

(** No character of the text is a digit. *)
Definition digit_free (s : string) : bool :=
  Py.all_chars (λ c, negb (Py.is_digit c)) s.

(** The decimal digits, and the check that every documented format around
    the digits [d] is read as [int(d)] when that is at most 100. *)
Definition digit_chars : list ascii :=
  ["0"; "1"; "2"; "3"; "4"; "5"; "6"; "7"; "8"; "9"]%char.

Definition reads_documented (d : string) : bool :=
  match Py.int d with
  | Some n =>
      if n <=? 100 then
        forallb
          (λ t, match RiskAnalyserAgentExecutor.parse_risk_score t with
                | Return m => m =? n
                | Raise _ => false
                end)
          (documented_formats d)
      else true
  | None => true
  end.

(* ===================================================================== *)
(** * Runs of a workflow that keeps its stage instances                   *)
(* ===================================================================== *)

(** The spec places the call of a stage factory in two ways: section 3
    has "a factory invoked at build time", sections 4.1 and 4.2 have the
    instance made at run start.  [Engine.new_run] follows the second; this
    module follows the first, on which the built workflow holds the
    instances and a Run finds in them what earlier Runs left. *)

Module Reuse.
Import Engine.

Section WithTypes.
Context {Msg Out Inst : Type}.
Implicit Types (g : Graph Msg Out Inst) (r : Run Msg Out Inst).









End WithTypes.



End Reuse.

(* ===================================================================== *)
(** * Facts about the definitions                                         *)
(* ===================================================================== *)

#[local] Set Warnings "-clear-no-such-hyp".

(** ** The matcher is sound for the declarative reading of patterns *)

Module ReFacts.
Import Re ReSem.

Lemma append_cons c (a b : string) : String c a +:+ b = String c (a +:+ b).
Proof. reflexivity. Qed.

Lemma append_empty (b : string) : EmptyString +:+ b = b.
Proof. reflexivity. Qed.

Lemma strip_prefix_Some p s s' :
  Py.strip_prefix p s = Some s' → s = p +:+ s'.
Proof.
  revert s; induction p as [|a p IH]; intros s; simpl; [by intros [= ->]|].
  destruct s as [|b s]; [congruence|].
  destruct (Ascii.eqb_spec a b) as [->|]; [|congruence].
  intros H; rewrite append_cons; f_equal; auto.
Qed.

Lemma append_assoc (a b c : string) : (a +:+ b) +:+ c = a +:+ (b +:+ c).
Proof.
  induction a; [done|]. rewrite !append_cons. congruence.
Qed.

Lemma rep_sound cls lo hi s g k :
  k ∈ rep cls lo hi s g →
  s = consumed k +:+ rest k ∧ sem (Rep cls lo hi) (consumed k) g (groups k).
Proof.
  revert lo hi k; induction s as [|c s IH]; intros lo hi k; simpl.
  - destruct lo; [|by intros ?%elem_of_nil].
    intros ->%list_elem_of_singleton; simpl.
    repeat split; auto. intros; lia.
  - assert (Hstop : k ∈ match lo with
                        | O => [Cand EmptyString (String c s) g]
                        | S _ => []
                        end →
            String c s = consumed k +:+ rest k
            ∧ sem (Rep cls lo hi) (consumed k) g (groups k)).
    { destruct lo; [|by intros ?%elem_of_nil].
      intros ->%list_elem_of_singleton; simpl.
      repeat split; auto. intros; lia. }
    destruct (cls c && hi_open hi) eqn:E; [|done].
    apply andb_prop in E as [Ec Eh].
    intros [Hin|Hin]%elem_of_app; [|by auto].
    apply list_elem_of_fmap in Hin as (k' & -> & Hin).
    apply IH in Hin as (-> & Hall & Hlo & Hhi & Hg); simpl.
    rewrite Ec, Hall. repeat split; auto.
    + lia.
    + intros h ->. destruct h; [done|]. specialize (Hhi h eq_refl). lia.
Qed.

Lemma matches_sound r : ∀ prev s g k,
  k ∈ matches r prev s g →
  s = consumed k +:+ rest k ∧ sem r (consumed k) g (groups k).
Proof.
  induction r as [l|cls lo hi|r1 IH1 r2 IH2|r1 IH1 r2 IH2|r IH|i r IH|];
    intros prev s g k; simpl.
  - destruct (Py.strip_prefix l s) as [s'|] eqn:E; [|by intros ?%elem_of_nil].
    intros ->%list_elem_of_singleton; simpl.
    split; [by apply strip_prefix_Some|done].
  - apply rep_sound.
  - intros (k1 & Hk & H1)%list_elem_of_bind.
    apply list_elem_of_bind in Hk as (k2 & Hk & H2).
    apply list_elem_of_singleton in Hk as ->; simpl.
    apply IH1 in H1 as [E1 S1]. apply IH2 in H2 as [E2 S2].
    split; [by rewrite append_assoc, <- E2|].
    by exists (consumed k1), (consumed k2), (groups k1).
  - intros [H|H]%elem_of_app.
    + apply IH1 in H as [E S]. auto.
    + apply IH2 in H as [E S]. auto.
  - intros [H|H]%elem_of_app; [apply IH in H as [E S]; by auto|].
    apply list_elem_of_singleton in H as ->; simpl. auto.
  - intros (k' & -> & H)%list_elem_of_fmap; simpl.
    apply IH in H as [E S]. eauto.
  - destruct (xorb _ _); [|by intros ?%elem_of_nil].
    intros ->%list_elem_of_singleton; simpl. auto.
Qed.

Lemma search_from_sound r : ∀ s prev m,
  search_from r prev s = Some m → ∃ txt, sem r txt ∅ m.
Proof.
  induction s as [|c s IH]; intros prev m; simpl.
  - destruct (matches r prev EmptyString ∅) as [|k ?] eqn:E; [done|].
    intros [= <-]. exists (consumed k).
    eapply matches_sound. rewrite E. left.
  - destruct (matches r prev (String c s) ∅) as [|k ?] eqn:E; [by apply IH|].
    intros [= <-]. exists (consumed k).
    eapply matches_sound. rewrite E. left.
Qed.
End ReFacts.

(** ** The score loop of the risk analyser *)

Module RiskFacts.
Import Re ReSem ReFacts RiskAnalyserAgentExecutor.

Lemma sem_ws txt c c' : sem ws txt c c' → c' = c.
Proof. by intros (_ & _ & _ & ->). Qed.

Lemma sem_colon_ws txt c c' : sem colon_ws txt c c' → c' = c.
Proof. by intros (_ & _ & _ & ->). Qed.

Lemma sem_digits13 txt c c' :
  sem digits13 txt c c' → score_group c'.
Proof.
  intros (c1 & (Hall & Hlo & _ & ->) & ->).
  exists txt. rewrite lookup_insert_eq. split; [done|]. split; [|done].
  intros ->. simpl in Hlo. lia.
Qed.

Ltac sem_inv :=
  repeat match goal with
  | H : sem (Seq _ _) _ _ _ |- _ =>
      destruct H as (? & ? & ? & ? & ? & ?)
  | H : sem (Lit _) _ _ _ |- _ => destruct H as [? ?]
  | H : sem (Opt _) _ _ _ |- _ => destruct H as [?|[? ?]]
  | H : sem (Alt _ _) _ _ _ |- _ => destruct H as [?|?]
  | H : sem ws _ _ _ |- _ => apply sem_ws in H
  | H : sem colon_ws _ _ _ |- _ => apply sem_colon_ws in H
  | H : sem digits13 _ _ _ |- _ => apply sem_digits13 in H
  end; subst.

Lemma patterns_score_group p txt m :
  p ∈ patterns → sem p txt ∅ m → score_group m.
Proof.
  unfold patterns. rewrite !elem_of_cons, elem_of_nil.
  intros [->|[->|[->|[->|[->|[->|[]]]]]]] H; sem_inv; assumption.
Qed.

Lemma int_group1_score_group m :
  score_group m → ∃ n, int_group1 m = Return n.
Proof.
  intros (g & Hg & Hne & Hall). unfold int_group1, group. rewrite Hg.
  unfold Py.int. destruct g; [done|]. rewrite Hall. eauto.
Qed.

(** The score loop never raises, and a score it accepts lies in 0..100 and
    was read by one of the patterns. *)
Lemma scan_patterns_spec ps lowered :
  ps ⊆ patterns →
  ∃ o, scan_patterns ps lowered = Return o ∧
       ∀ score, o = Some score →
         0 <= score <= 100 ∧
         ∃ p m, p ∈ ps ∧ search p lowered = Some m
                ∧ int_group1 m = Return score.
Proof.
  induction ps as [|p ps IH]; intros Hsub; simpl.
  - exists None. split; [done|]. intros ? [=].
  - assert (Hps : ps ⊆ patterns) by set_solver.
    destruct (IH Hps) as (o & Ho & Hspec).
    assert (Hrest : ∃ o, scan_patterns ps lowered = Return o ∧
       ∀ score, o = Some score →
         0 <= score <= 100 ∧
         ∃ p0 m, p0 ∈ p :: ps ∧ search p0 lowered = Some m
                ∧ int_group1 m = Return score).
    { exists o. split; [done|]. intros score Hs.
      destruct (Hspec score Hs) as (? & p0 & m & ? & ? & ?).
      split; [done|]. exists p0, m. set_solver. }
    destruct (search p lowered) as [m|] eqn:Es; [|done].
    destruct (search_from_sound _ _ _ _ Es) as (txt & Hsem).
    assert (Hp : p ∈ patterns) by set_solver.
    destruct (int_group1_score_group m (patterns_score_group _ _ _ Hp Hsem))
      as (n & Hn).
    rewrite Hn.
    destruct ((0 <=? n) && (n <=? 100)) eqn:Eb; [|done].
    exists (Some n). split; [done|]. intros score [= <-].
    apply andb_prop in Eb as [?%Z.leb_le ?%Z.leb_le].
    split; [lia|]. exists p, m. set_solver.
Qed.

Lemma fallback_score_values lowered :
  fallback_score lowered ∈ [85; 55; 25; 50].
Proof.
  unfold fallback_score.
  repeat match goal with |- context [found ?x] => destruct (found x) end;
    set_solver.
Qed.

Lemma parse_risk_score_spec risk_analysis :
  ∃ score, parse_risk_score risk_analysis = Return score ∧
    0 <= score <= 100 ∧
    ((∃ p m, p ∈ patterns ∧ search p (Py.lower risk_analysis) = Some m
             ∧ int_group1 m = Return score)
     ∨ (scan_patterns patterns (Py.lower risk_analysis) = Return None
        ∧ score = fallback_score (Py.lower risk_analysis)
        ∧ score ∈ [85; 55; 25; 50])).
Proof.
  unfold parse_risk_score.
  destruct (scan_patterns_spec patterns (Py.lower risk_analysis))
    as (o & -> & Hspec); [done|].
  destruct o as [score|].
  - destruct (Hspec score eq_refl) as (? & p & m & ? & ? & ?).
    exists score. split; [done|]. split; [done|]. left. eauto.
  - exists (fallback_score (Py.lower risk_analysis)).
    pose proof (fallback_score_values (Py.lower risk_analysis)) as Hv.
    split; [done|]. split; [|right; done].
    set_solver by lia.
Qed.

Lemma level_of_spec score :
  (level_of score = "HIGH" ↔ 75 <= score)
  ∧ (level_of score = "MEDIUM" ↔ 40 <= score < 75)
  ∧ (level_of score = "LOW" ↔ score < 40).
Proof.
  unfold level_of.
  destruct (Z.leb_spec 75 score), (Z.leb_spec 40 score);
    repeat split; intros; try done; try lia.
Qed.

Lemma recommendation_of_level score :
  let level := level_of score in
  (recommendation_of level = "BLOCK" ↔ level = "HIGH")
  ∧ (recommendation_of level = "INVESTIGATE" ↔ level = "MEDIUM")
  ∧ (recommendation_of level = "ALLOW" ↔ level = "LOW").
Proof.
  unfold level_of.
  destruct (75 <=? score), (40 <=? score); simpl; repeat split; done.
Qed.
End RiskFacts.

(** ** Substring search and lower-casing *)

Module PyFacts.
Import ReFacts.
Lemma strip_prefix_app p s : Py.strip_prefix p (p +:+ s) = Some s.
Proof.
  induction p as [|a p IH]; [done|].
  rewrite append_cons; simpl. by rewrite Ascii.eqb_refl.
Qed.

Lemma contains_unfold needle hay :
  Py.contains needle hay =
  match Py.strip_prefix needle hay with
  | Some _ => true
  | None =>
      match hay with
      | EmptyString => false
      | String _ hay' => Py.contains needle hay'
      end
  end.
Proof. by destruct hay. Qed.

Lemma contains_spec needle hay :
  Py.contains needle hay = true ↔ ∃ pre post, hay = pre +:+ needle +:+ post.
Proof.
  split.
  - induction hay as [|c hay IH]; simpl.
    + destruct (Py.strip_prefix needle EmptyString) as [r|] eqn:E; [|done].
      intros _. exists EmptyString, r. by apply strip_prefix_Some in E.
    + destruct (Py.strip_prefix needle (String c hay)) as [r|] eqn:E.
      * intros _. exists EmptyString, r. by apply strip_prefix_Some in E.
      * intros (pre & post & ->)%IH. by exists (String c pre), post.
  - intros (pre & post & ->).
    induction pre as [|c pre IH].
    + rewrite append_empty, contains_unfold. by rewrite strip_prefix_app.
    + rewrite append_cons, contains_unfold, IH.
      by destruct (Py.strip_prefix _ _).
Qed.

Lemma lower_app a b : Py.lower (a +:+ b) = Py.lower a +:+ Py.lower b.
Proof.
  induction a as [|c a IH]; [done|].
  rewrite append_cons; simpl. by rewrite IH.
Qed.

Lemma lower_app_inv t a b :
  Py.lower t = a +:+ b →
  ∃ ta tb, t = ta +:+ tb ∧ Py.lower ta = a ∧ Py.lower tb = b.
Proof.
  revert t; induction a as [|c a IH]; intros t.
  - rewrite append_empty. intros <-. by exists EmptyString, t.
  - rewrite append_cons. destruct t as [|d t]; simpl; [done|].
    intros [= <- (ta & tb & -> & <- & <-)%IH].
    by exists (String d ta), tb.
Qed.

Lemma contains_lower needle text :
  Py.contains needle (Py.lower text) = true ↔ contains_ci needle text.
Proof.
  rewrite contains_spec. split.
  - intros (pre & post & (tpre & t' & -> & <- & H)%lower_app_inv).
    apply lower_app_inv in H as (mid & tpost & -> & <- & <-).
    by exists tpre, mid, tpost.
  - intros (pre & mid & post & -> & <-).
    exists (Py.lower pre), (Py.lower post). by rewrite !lower_app.
Qed.
End PyFacts.

(** ** The sequential handlers and the consuming loop *)

Module HandlerFacts.
Lemma last_message_cons {T W} m ms :
  ∃ l, @last_message T W (m :: ms) = ([], Return l).
Proof.
  unfold last_message. destruct (last (m :: ms)) eqn:E; [by eexists|].
  by apply last_None in E.
Qed.

Lemma researcher_extends self message :
  extends_conversation (Executor.agent self)
    (match message with inr l => l | inl m => [m] end) send_message
    (ResearcherAgentV2Executor.handle self message).
Proof.
  unfold extends_conversation, ResearcherAgentV2Executor.handle, agent_run.
  destruct (run _ _) as [e|[|m ms]]; [done|done|].
  unfold mbind, Handler_bind, h_ret; simpl.
  destruct (@last_message_cons (list ChatMessage) Never m ms) as [l ->]; simpl.
  done.
Qed.

Lemma writer_extends self messages :
  extends_conversation (Executor.agent self) messages send_message
    (WriterAgentV2Executor.handle self messages).
Proof.
  unfold extends_conversation, WriterAgentV2Executor.handle, agent_run.
  destruct (run _ _) as [e|[|m ms]]; [done|done|].
  unfold mbind, Handler_bind, h_ret; simpl.
  destruct (@last_message_cons (list ChatMessage) Never m ms) as [l ->]; simpl.
  done.
Qed.

Lemma reviewer_extends self messages :
  extends_conversation (Executor.agent self) messages yield_output
    (ReviewerAgentV2Executor.handle self messages).
Proof.
  unfold extends_conversation, ReviewerAgentV2Executor.handle, agent_run.
  destruct (run _ _) as [e|[|m ms]]; [done|done|].
  unfold mbind, Handler_bind, h_ret; simpl.
  destruct (@last_message_cons Never (list ChatMessage) m ms) as [l ->]; simpl.
  done.
Qed.
Lemma extends_conversation_inv {T W} agent messages
    (outcome : list ChatMessage → CtxCall T W) h c :
  extends_conversation agent messages outcome h →
  calls h = [c] →
  ∃ response, run agent messages = AgentResponse response
              ∧ response ≠ [] ∧ c = outcome (messages ++ response).
Proof.
  unfold extends_conversation.
  destruct (run agent messages) as [e|[|m ms]]; intros -> [=].
  subst c. by exists (m :: ms).
Qed.

(** The consuming loop started from [o]. *)
Lemma consume_from {P} (stream : list (Event P)) (o : option P) :
  foldl consume_step o stream
  = match last (outputs stream) with Some d => Some d | None => o end.
Proof.
  revert o; induction stream as [|ev stream IH]; intros o; [done|].
  simpl. rewrite IH. unfold outputs; simpl.
  destruct ev as [st|d]; simpl; fold (outputs stream); [reflexivity|].
  destruct (outputs stream) as [|d' ds] eqn:E; [done|].
  change (last (d :: d' :: ds)) with (last (d' :: ds)).
  destruct (last (d' :: ds)) eqn:E'; [done|]. by apply last_None in E'.
Qed.
End HandlerFacts.

(** ** Dispatch, and termination of Runs on acyclic graphs *)

Module EngineFacts.
Import Engine Runs.
#[local] Open Scope nat_scope.
Section Facts.
Context {Msg Out Inst : Type}.
Implicit Types (g : Graph Msg Out Inst) (r : Run Msg Out Inst).

Lemma sum_list_with_ext {A} (f h : A → nat) l :
  (∀ x, x ∈ l → f x = h x) → sum_list_with f l = sum_list_with h l.
Proof.
  induction l as [|x l IH]; intros H; simpl; [done|].
  rewrite H by left. rewrite IH; [done|]. intros y Hy. apply H. by right.
Qed.

Lemma sum_list_with_fmap {A B} (f : B → nat) (k : A → B) l :
  sum_list_with f (k <$> l) = sum_list_with (f ∘ k) l.
Proof.
  induction l as [|x l IH]; [done|]. rewrite fmap_cons. simpl.
  by rewrite IH.
Qed.

Lemma elem_of_successors es s t : t ∈ successors es s ↔ (s, t) ∈ es.
Proof.
  unfold successors. rewrite list_elem_of_fmap. split.
  - intros ([s' t'] & -> & [E Hin]%list_elem_of_filter). simpl in *. by subst.
  - intros Hin. exists (s, t). split; [done|].
    by apply list_elem_of_filter.
Qed.

Lemma dispatch_cases g id env r : dispatched g id env r (dispatch g id env r).
Proof.
  unfold dispatch.
  destruct (stages g !! id) as [st|] eqn:Est; [|by apply dispatched_unknown].
  pose proof (dispatched_fault g id env r st Est) as Hfault.
  pose proof (λ o, dispatched_complete g id env r st o Est) as Hcomplete.
  pose proof (λ m, dispatched_emit g id env r st m Est) as Hemit.
  destruct (handler st _ env) as [inst [cs res]]; simpl in *.
  destruct res as [[]|e]; [|done].
  destruct cs as [|[m|o] [|c cs]]; try done.
  destruct (successors (edges g) id) as [|t ts] eqn:E.
  - unfold emit. by rewrite E.
  - by apply Hemit.
Qed.

Lemma emit_enqueues g id m r :
  successors (edges g) id ≠ [] →
  emit g id m r
  = mkRun (state r)
          (queue r ++ ((λ t, (t, m)) <$> successors (edges g) id))
          (output r) (events r) (instances r) (history r ++ [Emitted id])
          (handled r).
Proof. unfold emit. by destruct (successors (edges g) id). Qed.

Lemma run_loop_settled fuel g r :
  state r ≠ RUNNING → run_loop fuel g r = Some r.
Proof. destruct fuel; simpl; by destruct (state r). Qed.

Section Potential.
Context (es : list (string * string)) (rank : string → nat).
Hypothesis Hranked : ranked es rank.

Lemma pot_pos n s : 1 ≤ pot es n s.
Proof. destruct n; simpl; lia. Qed.

Lemma pot_stable n : ∀ m s, rank s ≤ n → rank s ≤ m → pot es n s = pot es m s.
Proof.
  induction n as [|n IH]; intros m s Hn Hm.
  - assert (E : successors es s = []).
    { destruct (successors es s) as [|t ts] eqn:E; [done|].
      assert (Ht : t ∈ successors es s) by (rewrite E; left).
      apply elem_of_successors, Hranked in Ht. lia. }
    destruct m; simpl; [done|]. by rewrite E.
  - destruct m as [|m]; simpl.
    + assert (E : successors es s = []).
      { destruct (successors es s) as [|t ts] eqn:E; [done|].
        assert (Ht : t ∈ successors es s) by (rewrite E; left).
        apply elem_of_successors, Hranked in Ht. lia. }
      by rewrite E.
    + f_equal. apply sum_list_with_ext.
      intros t Ht%elem_of_successors%Hranked. apply IH; lia.
Qed.

Lemma pot_step n s :
  rank s ≤ n → 1 + sum_list_with (pot es n) (successors es s) ≤ pot es n s.
Proof.
  intros Hn. destruct n as [|n].
  - assert (E : successors es s = []).
    { destruct (successors es s) as [|t ts] eqn:E; [done|].
      assert (Ht : t ∈ successors es s) by (rewrite E; left).
      apply elem_of_successors, Hranked in Ht. lia. }
    rewrite E. simpl. lia.
  - change (pot es (S n) s)
      with (S (sum_list_with (pot es n) (successors es s))).
    apply Nat.eq_le_incl. f_equal. apply sum_list_with_ext.
    intros t Ht%elem_of_successors%Hranked. apply pot_stable; lia.
Qed.
End Potential.

Lemma dispatch_progress g id env q r :
  in_progress r →
  let r' := dispatch g id env (pop r q) in
  settled r'
  ∨ (in_progress r' ∧ successors (edges g) id ≠ []
     ∧ ∃ m, queue r' = q ++ ((λ t, (t, m)) <$> successors (edges g) id)).
Proof.
  intros (Hst & _ & Hout & Hev) r'. subst r'.
  destruct (dispatch_cases g id env (pop r q)) as [?|st ?|st o ?|st m ? Hne _].
  - left. left. simpl. by rewrite Hev.
  - left. left. simpl. by rewrite Hev.
  - left. right. exists o. simpl. by rewrite Hev.
  - right. rewrite emit_enqueues by done. split; [|eauto].
    repeat split; simpl; try done.
    destruct (successors (edges g) id); [done|]. by destruct q.
Qed.

Lemma run_loop_ends g rank n :
  ranked (edges g) rank →
  ∀ fuel r,
    in_progress r →
    Forall (λ p, rank p.1 ≤ n) (queue r) →
    sum_list_with (λ p, pot (edges g) n p.1) (queue r) ≤ fuel →
    ∃ r', run_loop fuel g r = Some r' ∧ settled r'.
Proof.
  intros Hranked. induction fuel as [|fuel IH]; intros r Hr Hrank Hfuel.
  - destruct Hr as (_ & Hq & _). destruct (queue r) as [|[id env] q]; [done|].
    simpl in Hfuel. pose proof (pot_pos (edges g) n id). lia.
  - pose proof Hr as (Hst & Hq & _).
    destruct (queue r) as [|[id env] q] eqn:Eq; [done|].
    simpl. rewrite Hst, Eq.
    apply Forall_cons in Hrank as [Hid Hrank]. simpl in Hid, Hfuel.
    destruct (dispatch_progress g id env q r Hr)
      as [Hset|(Hr' & Hne & m & Eq')].
    + exists (dispatch g id env (pop r q)). split; [|done].
      apply run_loop_settled. destruct Hset as [(-> & _)|(o & -> & _)]; done.
    + apply IH; [done| |]; rewrite Eq'.
      * apply Forall_app. split; [done|].
        apply Forall_fmap, Forall_forall. intros t Ht. simpl.
        apply elem_of_successors, Hranked in Ht. lia.
      * rewrite sum_list_with_app, sum_list_with_fmap.
        pose proof (pot_step _ _ Hranked n id Hid) as Hstep.
        change ((λ p : string * Msg, pot (edges g) n p.1) ∘ (λ t, (t, m)))
          with (pot (edges g) n).
        lia.
Qed.

Lemma begin_in_progress g input : in_progress (begin (new_run g input)).
Proof. by repeat split. Qed.

(** A Run that ended has settled, on any graph. *)
Lemma run_loop_settles g :
  ∀ fuel r r', in_progress r → run_loop fuel g r = Some r' → settled r'.
Proof.
  induction fuel as [|fuel IH]; intros r r' Hr; pose proof Hr as (Hst & Hq & _);
    simpl; rewrite Hst; destruct (queue r) as [|[id env] q] eqn:Eq;
    try done.
  destruct (dispatch_progress g id env q r Hr) as [Hset|(Hr' & _)].
  - rewrite run_loop_settled.
    + by intros [= <-].
    + destruct Hset as [(-> & _)|(o & -> & _)]; done.
  - by apply IH.
Qed.

Lemma execute_ends g rank input fuel :
  ranked (edges g) rank → dispatch_bound g rank ≤ fuel →
  ∃ r, execute fuel g input = Some r ∧ settled r.
Proof.
  intros Hranked Hfuel.
  apply (run_loop_ends g rank (rank (entry g)) Hranked).
  - apply begin_in_progress.
  - simpl. by repeat constructor.
  - simpl. unfold dispatch_bound in Hfuel. lia.
Qed.
End Facts.
End EngineFacts.

(** ** Runs of linear graphs *)

Module ChainFacts.
Import Engine Runs EngineFacts.
#[local] Open Scope nat_scope.
Section Facts.
Context {Msg Out Inst : Type}.
Implicit Types (g : Graph Msg Out Inst) (r : Run Msg Out Inst).

Lemma successors_cons s t es x :
  successors ((s, t) :: es) x
  = (if decide (s = x) then [t] else []) ++ successors es x.
Proof.
  unfold successors. rewrite filter_cons. simpl.
  by destruct (decide (s = x)).
Qed.

Lemma chain_sources ids s t : (s, t) ∈ chain_edges ids → s ∈ ids.
Proof. unfold chain_edges. intros H. by apply elem_of_zip_l in H. Qed.

Lemma successors_chain ids : ∀ k s,
  NoDup ids → ids !! k = Some s →
  successors (chain_edges ids) s = option_list (ids !! S k).
Proof.
  induction ids as [|a ids IH]; intros k s Hnd Hk; [done|].
  apply NoDup_cons in Hnd as [Ha Hnd].
  assert (Hno : ∀ x, x ∉ ids → successors (chain_edges ids) x = []).
  { intros x Hx. destruct (successors (chain_edges ids) x) as [|t ts] eqn:E;
      [done|].
    assert (Ht : t ∈ successors (chain_edges ids) x) by (rewrite E; left).
    apply elem_of_successors, chain_sources in Ht. done. }
  destruct ids as [|b ids].
  { destruct k; simpl in *; [done|]. by destruct k. }
  change (chain_edges (a :: b :: ids))
    with ((a, b) :: chain_edges (b :: ids)).
  rewrite successors_cons.
  destruct k as [|k]; simpl in Hk.
  - injection Hk as ->. rewrite decide_True by done.
    by rewrite (Hno s Ha).
  - rewrite decide_False.
    + simpl. by apply IH.
    + intros ->. apply Ha. by eapply list_elem_of_lookup_2.
Qed.

Lemma forwarded_snoc ids s :
  forwarded (ids ++ [s]) = forwarded ids ++ [Invoked s; Emitted s].
Proof. unfold forwarded. rewrite bind_app. by rewrite bind_singleton. Qed.

Lemma chain_run g ids :
  linear g ids →
  ∀ fuel k s r,
    ids !! k = Some s →
    state r = RUNNING → (∃ m, queue r = [(s, m)]) →
    history r = forwarded (take k ids) →
    length ids - k ≤ fuel →
    ∃ r' k' s',
      run_loop fuel g r = Some r' ∧ ids !! k' = Some s'
      ∧ (history r' = forwarded (take k' ids) ++ [Invoked s'; Completed s']
         ∨ history r' = forwarded (take k' ids) ++ [Invoked s'; Faulted s']).
Proof.
  intros (Hnd & Hentry & Hedges & Hreg).
  induction fuel as [|fuel IH]; intros k s r Hk Hst [m Hq] Hhist Hfuel.
  { apply lookup_lt_Some in Hk. lia. }
  simpl. rewrite Hst, Hq.
  destruct (Hreg s) as [st Hs]; [by eapply list_elem_of_lookup_2|].
  assert (Hdone : ∀ r', state r' ≠ RUNNING →
            (history r' = forwarded (take k ids) ++ [Invoked s; Completed s]
             ∨ history r' = forwarded (take k ids) ++ [Invoked s; Faulted s]) →
            ∃ r'' k' s',
              run_loop fuel g r' = Some r'' ∧ ids !! k' = Some s'
              ∧ (history r'' = forwarded (take k' ids)
                               ++ [Invoked s'; Completed s']
                 ∨ history r'' = forwarded (take k' ids)
                                 ++ [Invoked s'; Faulted s'])).
  { intros r' Hr' Hh. exists r', k, s. by rewrite run_loop_settled. }
  destruct (dispatch_cases g s m (pop r [])) as [E|st' E|st' o E|st' m' E Hne _].
  - congruence.
  - apply Hdone; [done|]. right. simpl. by rewrite Hhist, <- (assoc_L (++)).
  - apply Hdone; [done|]. left. simpl. by rewrite Hhist, <- (assoc_L (++)).
  - rewrite emit_enqueues by done.
    rewrite Hedges, (successors_chain ids k s Hnd Hk) in Hne |- *.
    destruct (ids !! S k) as [t|] eqn:Et; [|done].
    apply (IH (S k) t); simpl.
    + done.
    + done.
    + by eexists.
    + rewrite (take_S_r _ _ _ Hk), forwarded_snoc, Hhist.
      by rewrite <- (assoc_L (++)).
    + lia.
Qed.

Lemma execute_linear g ids input fuel :
  linear g ids → length ids ≤ fuel →
  ∃ r k s,
    execute fuel g input = Some r ∧ ids !! k = Some s
    ∧ (history r = forwarded (take k ids) ++ [Invoked s; Completed s]
       ∨ history r = forwarded (take k ids) ++ [Invoked s; Faulted s]).
Proof.
  intros Hlin Hfuel. pose proof Hlin as (_ & Hentry & _).
  apply (chain_run g ids Hlin fuel 0 (entry g)).
  - destruct ids; simpl in *; congruence.
  - done.
  - by eexists.
  - by rewrite take_0.
  - lia.
Qed.

Lemma invocations_app id h1 h2 :
  invocations id (h1 ++ h2) = invocations id h1 + invocations id h2.
Proof. unfold invocations. by rewrite filter_app, length_app. Qed.

Lemma invocations_forwarded id ids :
  NoDup ids →
  invocations id (forwarded ids) = if decide (id ∈ ids) then 1 else 0.
Proof.
  induction ids as [|a ids IH]; intros Hnd.
  - by rewrite decide_False by apply not_elem_of_nil.
  - apply NoDup_cons in Hnd as [Ha Hnd].
    change (forwarded (a :: ids))
      with ([Invoked a; Emitted a] ++ forwarded ids).
    rewrite invocations_app, (IH Hnd). unfold invocations.
    rewrite !filter_cons, filter_nil.
    destruct (decide (id = a)) as [->|Hne].
    + rewrite decide_True by done. rewrite decide_False by done.
      rewrite (decide_False (P := a ∈ ids)) by done.
      rewrite decide_True by left. done.
    + rewrite decide_False by congruence. rewrite decide_False by done.
      simpl. destruct (decide (id ∈ ids)) as [Hin|Hin].
      * rewrite decide_True by (by right). done.
      * rewrite decide_False; [done|]. by intros [?|?]%elem_of_cons.
Qed.

Lemma invocations_chain ids k s (last : Activity) i id :
  NoDup ids → ids !! k = Some s → ids !! i = Some id →
  (∀ x, last ≠ Invoked x) →
  invocations id (forwarded (take k ids) ++ [Invoked s; last])
  = if decide (i ≤ k) then 1 else 0.
Proof.
  intros Hnd Hk Hi Hlast.
  rewrite invocations_app, invocations_forwarded by (eapply sublist_NoDup; [done|apply sublist_take]).
  unfold invocations. rewrite !filter_cons, filter_nil.
  rewrite (decide_False (P := last = Invoked id)) by done.
  destruct (decide (i < k)) as [Hlt|Hge].
  - rewrite decide_True.
    2:{ apply list_elem_of_lookup. exists i. by rewrite lookup_take_lt. }
    rewrite decide_False.
    2:{ intros [= ->]. pose proof (NoDup_lookup _ _ _ _ Hnd Hk Hi). lia. }
    rewrite decide_True by lia. done.
  - rewrite decide_False.
    2:{ intros (j & Hj)%list_elem_of_lookup.
        apply lookup_take_Some in Hj as [Hj Hjk].
        pose proof (NoDup_lookup _ _ _ _ Hnd Hj Hi). lia. }
    destruct (decide (i = k)) as [->|Hne].
    + assert (s = id) as -> by congruence.
      rewrite decide_True by done. rewrite decide_True by lia. done.
    + rewrite decide_False.
      2:{ intros [= ->]. pose proof (NoDup_lookup _ _ _ _ Hnd Hk Hi). lia. }
      rewrite decide_False by lia. done.
Qed.
End Facts.
End ChainFacts.

(** ** The two workflows built in the sources *)

Module WorkflowFacts.
Import Engine Runs EngineFacts ChainFacts.
#[local] Open Scope nat_scope.

Section Built.
Context {Msg Out Inst : Type}.
Variables st1 st2 st3 : Stage Msg Out Inst.

Lemma fraud_names_built :
  ∃ g, built st1 st2 st3 "CustomerDataAgent" "RiskAnalyserAgent" "FraudAlertAgent"
       = inr g
       ∧ edges g = chain_edges fraud_ids
       ∧ entry g = "CustomerDataAgent"
       ∧ stages g !! "CustomerDataAgent" = Some st1
       ∧ stages g !! "RiskAnalyserAgent" = Some st2
       ∧ stages g !! "FraudAlertAgent" = Some st3
       ∧ dom (stages g) = list_to_set fraud_ids.
Proof.
  eexists. split; [vm_compute; reflexivity|].
  repeat split; vm_compute; reflexivity.
Qed.

Lemma sequential_names_built :
  ∃ g, built st1 st2 st3 "ResearcherAgentV2" "WriterAgentV2" "ReviewerAgentV2"
       = inr g
       ∧ edges g = chain_edges sequential_ids
       ∧ entry g = "ResearcherAgentV2"
       ∧ stages g !! "ResearcherAgentV2" = Some st1
       ∧ stages g !! "WriterAgentV2" = Some st2
       ∧ stages g !! "ReviewerAgentV2" = Some st3
       ∧ dom (stages g) = list_to_set sequential_ids.
Proof.
  eexists. split; [vm_compute; reflexivity|].
  repeat split; vm_compute; reflexivity.
Qed.
End Built.

Lemma fraud_workflow_built a1 a2 a3 :
  ∃ g, FraudWorkflow.workflow a1 a2 a3 = inr g
       ∧ edges g = chain_edges fraud_ids
       ∧ entry g = "CustomerDataAgent"
       ∧ stages g !! "CustomerDataAgent"
         = Some (FraudWorkflow.customer_data_stage a1)
       ∧ stages g !! "RiskAnalyserAgent"
         = Some (FraudWorkflow.risk_analyser_stage a2)
       ∧ stages g !! "FraudAlertAgent"
         = Some (FraudWorkflow.fraud_alert_stage a3)
       ∧ dom (stages g) = list_to_set fraud_ids.
Proof. apply fraud_names_built. Qed.

Lemma sequential_workflow_built a1 a2 a3 :
  ∃ g, SequentialWorkflow.workflow a1 a2 a3 = inr g
       ∧ edges g = chain_edges sequential_ids
       ∧ entry g = "ResearcherAgentV2"
       ∧ stages g !! "ResearcherAgentV2"
         = Some (SequentialWorkflow.researcher_stage a1)
       ∧ stages g !! "WriterAgentV2"
         = Some (SequentialWorkflow.writer_stage a2)
       ∧ stages g !! "ReviewerAgentV2"
         = Some (SequentialWorkflow.reviewer_stage a3)
       ∧ dom (stages g) = list_to_set sequential_ids.
Proof. apply sequential_names_built. Qed.

Section Steps.
Context {Msg Out Inst : Type}.
Implicit Types (g : Graph Msg Out Inst) (r : Run Msg Out Inst).



Lemma step_fault g fuel r id env q st inst' cs e :
  state r = RUNNING → queue r = (id, env) :: q →
  stages g !! id = Some st →
  handler st (instance_of st id r) env = (inst', (cs, Raise e)) →
  run_loop (S fuel) g r
  = Some (mkRun FAILED q None (events r ++ [StatusEvent FAILED])
            (<[id := inst']> (instances r))
            (history r ++ [Invoked id; Faulted id])
            (handled r ++ [(id, env)])).
Proof.
  intros Hst Hq Hs Hh. simpl. rewrite Hst, Hq.
  unfold dispatch. rewrite Hs.
  change (instance_of st id (pop r q)) with (instance_of st id r).
  rewrite Hh. rewrite run_loop_settled by done.
  unfold fail; simpl. by rewrite <- (assoc_L (++)).
Qed.
End Steps.




End WorkflowFacts.

(** ** The checks of [build] and reachability *)

Module BuildFacts.
Import Engine Runs EngineFacts.
#[local] Open Scope nat_scope.

Lemma unknown_endpoint_None ids es :
  unknown_endpoint ids es = None ↔
  ∀ s t, (s, t) ∈ es → s ∈ ids ∧ t ∈ ids.
Proof.
  induction es as [|[s t] es IH]; simpl.
  - split; [|done]. intros _ s t H. by apply elem_of_nil in H.
  - destruct (decide (s ∈ ids)) as [Hs|Hs].
    + destruct (decide (t ∈ ids)) as [Ht|Ht].
      * rewrite IH. split.
        -- intros H s' t' [[= -> ->]|Hin]%elem_of_cons; auto.
        -- intros H s' t' Hin. apply H. by right.
      * split; [done|]. intros H. destruct (H s t); [left|done].
    + split; [done|]. intros H. destruct (H s t); [left|done].
Qed.

Lemma duplicate_edge_None (es : list (string * string)) :
  duplicate_edge es = None ↔ NoDup es.
Proof.
  induction es as [|e es IH]; simpl.
  - split; [constructor|done].
  - rewrite NoDup_cons. destruct (decide (e ∈ es)); [|rewrite IH]; naive_solver.
Qed.

Lemma elem_of_reach_step es R x :
  x ∈ reach_step es R ↔ x ∈ R ∨ ∃ s, s ∈ R ∧ (s, x) ∈ es.
Proof.
  unfold reach_step. rewrite elem_of_union, elem_of_list_to_set.
  rewrite list_elem_of_fmap. split.
  - intros [?|([s t] & -> & [Hs Hin]%list_elem_of_filter)]; [by left|].
    right. by exists s.
  - intros [?|(s & Hs & Hin)]; [by left|]. right.
    exists (s, x). split; [done|]. by apply list_elem_of_filter.
Qed.

Lemma reach_S n es e : reach (S n) es e = reach_step es (reach n es e).
Proof. reflexivity. Qed.

Lemma reach_mono n es e : reach n es e ⊆ reach (S n) es e.
Proof. rewrite reach_S. intros x Hx. apply elem_of_reach_step. by left. Qed.

Lemma reach_entry n es e : e ∈ reach n es e.
Proof.
  induction n as [|n IH]; [by apply elem_of_singleton|by apply reach_mono].
Qed.

Lemma reach_sound n es e x : x ∈ reach n es e → Reachable es e x.
Proof.
  revert x; induction n as [|n IH]; intros x.
  - intros ->%elem_of_singleton. apply rtc_refl.
  - rewrite reach_S, elem_of_reach_step. intros [?|(s & Hs & Hin)]; [auto|].
    eapply rtc_r; [by apply IH|done].
Qed.

Lemma reach_within n es e (ids : gset string) :
  e ∈ ids → (∀ s t, (s, t) ∈ es → t ∈ ids) → reach n es e ⊆ ids.
Proof.
  intros He Hes. induction n as [|n IH]; intros x.
  - by intros ->%elem_of_singleton.
  - rewrite reach_S, elem_of_reach_step. intros [?|(s & _ & Hin)]; eauto.
Qed.

Lemma reach_grows n es e :
  reach (S n) es e = reach n es e ∨ n + 1 ≤ size (reach n es e).
Proof.
  induction n as [|n IH].
  - right. change (reach 0 es e) with ({[e]} : gset string).
    by rewrite size_singleton.
  - destruct (decide (reach (S n) es e = reach n es e)) as [E|Hne].
    + left. by rewrite (reach_S (S n)), E.
    + right. destruct IH as [?|IH]; [done|].
      assert (reach n es e ⊂ reach (S n) es e) as Hlt%subset_size; [|lia].
      split; [apply reach_mono|].
      intros Hback. apply Hne. apply set_eq. intros x. split; [apply Hback|].
      apply reach_mono.
Qed.

Lemma reach_complete es e (ids : gset string) x :
  e ∈ ids → (∀ s t, (s, t) ∈ es → t ∈ ids) →
  Reachable es e x → x ∈ reach (size ids) es e.
Proof.
  intros He Hes.
  assert (Hfix : reach (S (size ids)) es e = reach (size ids) es e).
  { destruct (reach_grows (size ids) es e) as [?|Hsz]; [done|].
    pose proof (subseteq_size _ _ (reach_within (size ids) es e ids He Hes)).
    lia. }
  unfold Reachable. revert x. apply rtc_ind_r.
  - apply reach_entry.
  - intros y z _ Hyz IH. rewrite <- Hfix, reach_S. apply elem_of_reach_step. right. eauto.
Qed.

Lemma unknown_endpoint_Some ids es x :
  unknown_endpoint ids es = Some x →
  ∃ s t, (s, t) ∈ es ∧ (s ∉ ids ∨ t ∉ ids).
Proof.
  induction es as [|[s t] es IH]; simpl; [done|].
  destruct (decide (s ∈ ids)) as [Hs|Hs].
  - destruct (decide (t ∈ ids)) as [Ht|Ht].
    + intros (s' & t' & Hin & H)%IH. exists s', t'. split; [by right|done].
    + intros _. exists s, t. split; [left|by right].
  - intros _. exists s, t. split; [left|by left].
Qed.

Section Build.
Context {Msg Out Inst : Type}.
Implicit Types (b : Builder Msg Out Inst).

(** What [build] has checked when it returns a Graph. *)
Lemma build_inr b g :
  build b = inr g →
  (∀ s t, (s, t) ∈ b_edges b →
          s ∈ dom (b_stages b) ∧ t ∈ dom (b_stages b))
  ∧ NoDup (b_edges b)
  ∧ ∃ e, b_entry b = Some e ∧ e ∈ dom (b_stages b)
         ∧ (∀ x, x ∈ dom (b_stages b) → Reachable (b_edges b) e x)
         ∧ g = mkGraph (b_stages b) (b_edges b) e.
Proof.
  unfold build.
  destruct (unknown_endpoint _ _) eqn:Eu; [done|].
  destruct (b_entry b) as [e|]; [|done].
  destruct (decide (e ∈ dom (b_stages b))) as [He|]; [|done].
  destruct (duplicate_edge _) as [[s t]|] eqn:Ed; [done|].
  destruct (elements _) as [|x xs] eqn:Ex; [|done].
  intros [= <-].
  split; [by apply unknown_endpoint_None|].
  split; [by apply duplicate_edge_None|].
  exists e. repeat split; try done.
  intros x Hx. apply (reach_sound (size (dom (b_stages b)))).
  apply elements_empty_inv in Ex.
  destruct (decide (x ∈ reach (size (dom (b_stages b))) (b_edges b) e));
    [done|].
  exfalso. apply (not_elem_of_empty (C := gset string) x).
  rewrite <- (leibniz_equiv _ _ Ex). by apply elem_of_difference.
Qed.

Lemma build_fails_iff b :
  build_fails b ↔
  unregistered_endpoint b ∨ no_entry b ∨ repeated_edge b
  ∨ unreachable_stage b.
Proof.
  split.
  - intros [err H]. unfold build in H.
    destruct (unknown_endpoint _ _) as [x|] eqn:Eu.
    { left. by apply unknown_endpoint_Some in Eu. }
    destruct (b_entry b) as [e|] eqn:Ee.
    2:{ right; left. intros e. by rewrite Ee. }
    destruct (decide (e ∈ dom (b_stages b))) as [He|He].
    2:{ right; left. intros e'. rewrite Ee. by intros [= <-]. }
    destruct (duplicate_edge _) as [[s t]|] eqn:Ed.
    { right; right; left. intros Hnd%duplicate_edge_None. congruence. }
    destruct (elements _) as [|x xs] eqn:Ex; [done|].
    right; right; right. exists e, x.
    assert (Hx : x ∈ dom (b_stages b)
                   ∖ reach (size (dom (b_stages b))) (b_edges b) e).
    { apply elem_of_elements. rewrite Ex. left. }
    apply elem_of_difference in Hx as [Hx Hnot].
    split; [done|]. split; [done|]. intros Hreach. apply Hnot.
    apply reach_complete; [done| |done].
    intros s' t' Hin. by eapply unknown_endpoint_None.
  - intros Hbad. unfold build_fails.
    destruct (build b) as [err|g] eqn:E; [by eexists|exfalso].
    apply build_inr in E as (Hends & Hnd & e & Ee & He & Hreach & _).
    destruct Hbad as [(s & t & Hin & Hno)|[Hno|[Hdup|(e' & x & Ee' & Hx & Hno)]]].
    + destruct (Hends s t Hin). by destruct Hno.
    + by apply (Hno e).
    + done.
    + rewrite Ee in Ee'. injection Ee' as <-. auto.
Qed.
End Build.
End BuildFacts.

(** ** Where the instances of a Run come from *)

Module RunFacts.
Import Engine Runs EngineFacts.
#[local] Open Scope nat_scope.
Section Facts.
Context {Msg Out Inst : Type}.
Implicit Types (g : Graph Msg Out Inst) (r : Run Msg Out Inst).







End Facts.
End RunFacts.

(** ** The sample workflow *)

Module SampleFacts.
Import Engine Runs Samples EngineFacts ChainFacts WorkflowFacts.
#[local] Open Scope nat_scope.

Lemma sample_fraud_workflow_spec :
  edges sample_fraud_workflow = chain_edges fraud_ids
  ∧ entry sample_fraud_workflow = "CustomerDataAgent"
  ∧ dom (stages sample_fraud_workflow) = list_to_set fraud_ids.
Proof.
  unfold sample_fraud_workflow.
  destruct (fraud_workflow_built (replying ["customer profile"])
              (replying ["Risk Score: 82/100"]) (replying ["Alert created"]))
    as (g & -> & He & Hs & _ & _ & _ & Hd).
  split; [exact He|]. split; [exact Hs|exact Hd].
Qed.

Lemma sample_fraud_workflow_linear : linear sample_fraud_workflow fraud_ids.
Proof.
  destruct sample_fraud_workflow_spec as (He & Hs & Hd).
  split; [|split; [|split]].
  - exact (bool_decide_unpack (NoDup fraud_ids) I).
  - rewrite Hs. reflexivity.
  - exact He.
  - intros s Hs'. apply elem_of_dom. rewrite Hd.
    by apply elem_of_list_to_set.
Qed.

Lemma sample_fraud_workflow_ranked :
  ranked (edges sample_fraud_workflow) fraud_rank.
Proof.
  destruct sample_fraud_workflow_spec as (-> & _).
  intros s t Hin. unfold chain_edges, fraud_ids in Hin. simpl in Hin.
  rewrite !elem_of_cons in Hin.
  destruct Hin as [[= -> ->]|[[= -> ->]|Hin]];
    [vm_compute; lia|vm_compute; lia|by apply elem_of_nil in Hin].
Qed.

Lemma sample_fraud_workflow_bound :
  dispatch_bound sample_fraud_workflow fraud_rank = 3.
Proof.
  unfold dispatch_bound.
  destruct sample_fraud_workflow_spec as (-> & -> & _). reflexivity.
Qed.
End SampleFacts.

(* ===================================================================== *)
(** * The properties                                                      *)
(* ===================================================================== *)

Import Engine Runs Samples.
Import ReFacts RiskFacts PyFacts HandlerFacts EngineFacts ChainFacts
       WorkflowFacts BuildFacts RunFacts SampleFacts.

(** The try block of [RiskAnalyserAgentExecutor.handle] never raises once
    the agent replied: it sends the response built from the parsed score. *)
Lemma risk_analyser_handle_success
    (self : Executor.t) (customer_response : CustomerDataResponse.t)
    (messages : list ChatMessage) :
  run (Executor.agent self)
      [mkChatMessage "user" (RiskAnalyserAgentExecutor.prompt customer_response)]
    = AgentResponse messages →
  ∃ score,
    RiskAnalyserAgentExecutor.parse_risk_score
      (last_text_or_no_response messages) = Return score
    ∧ RiskAnalyserAgentExecutor.handle self customer_response
      = ([send_message
            (RiskAnalysisResponse.mk
               (CustomerDataResponse.transaction_id customer_response)
               (CustomerDataResponse.customer_id customer_response)
               (last_text_or_no_response messages) score
               (RiskAnalyserAgentExecutor.level_of score)
               (RiskAnalyserAgentExecutor.recommendation_of
                  (RiskAnalyserAgentExecutor.level_of score))
               "SUCCESS"
               (CustomerDataResponse.amount customer_response)
               (CustomerDataResponse.currency customer_response)
               (Some (RiskAnalyserAgentExecutor.confidence_of score)))],
         Return tt).
Proof.
  intros Hrun.
  destruct (parse_risk_score_spec (last_text_or_no_response messages))
    as (score & Hparse & _).
  exists score. split; [exact Hparse|].
  unfold RiskAnalyserAgentExecutor.handle, agent_run. rewrite Hrun.
  unfold mbind, Handler_bind, h_ret, lift; simpl. rewrite Hparse.
  reflexivity.
Qed.

(** On any graph, a stream that ended is RUNNING, FAILED or RUNNING,
    COMPLETED, output. *)
Lemma ended_stream_settled {Msg Out Inst}
    (g : Graph Msg Out Inst) (fuel : nat) (input : Msg)
    (stream : list (Event Out)) :
  run_stream fuel g input = Some stream →
  stream = [StatusEvent RUNNING; StatusEvent FAILED]
  ∨ ∃ o, stream = [StatusEvent RUNNING; StatusEvent COMPLETED; OutputEvent o].
Proof.
  unfold run_stream, execute.
  destruct (run_loop fuel g _) as [r|] eqn:E; [|done]. intros [= <-].
  apply run_loop_settles in E; [|apply begin_in_progress].
  destruct E as [(_ & _ & ->)|(o & _ & _ & ->)]; [by left|right; by exists o].
Qed.


(** C1: on an acyclic graph every Run ends, and its Event Stream holds
    exactly one terminal event: [FAILED] with no [OutputEvent], or
    [COMPLETED] immediately followed by the one [OutputEvent] that carries
    the terminal output of the Run; the loop of
    [run_fraud_detection_workflow] then sees at most one output and returns
    its payload ([None] after [FAILED]). *)
Theorem one_terminal_event {Msg Out Inst}
    (g : Graph Msg Out Inst) (rank : string → nat) (input : Msg) (fuel : nat) :
  ranked (edges g) rank →
  (dispatch_bound g rank ≤ fuel)%nat →
  ∃ r stream,
    execute fuel g input = Some r
    ∧ run_stream fuel g input = Some stream
    ∧ length (filter (λ ev, is_terminal ev = true) stream) = 1%nat
    ∧ ((state r = FAILED ∧ output r = None
        ∧ stream = [StatusEvent RUNNING; StatusEvent FAILED]
        ∧ outputs stream = [] ∧ consume stream = None)
       ∨ (∃ o, state r = COMPLETED ∧ output r = Some o
               ∧ stream = [StatusEvent RUNNING; StatusEvent COMPLETED;
                           OutputEvent o]
               ∧ outputs stream = [o] ∧ consume stream = Some o)).
Proof.
  intros Hranked Hfuel.
  destruct (execute_ends g rank input fuel Hranked Hfuel) as (r & Hr & Hset).
  exists r, (events r). split; [exact Hr|].
  unfold run_stream. rewrite Hr. split; [reflexivity|].
  destruct Hset as [(Hst & Ho & ->)|(o & Hst & Ho & ->)].
  - split; [reflexivity|]. left. repeat split; assumption.
  - split; [reflexivity|]. right. exists o. repeat split; assumption.
Qed.

Lemma one_terminal_event_witness :
  ranked (edges sample_fraud_workflow) fraud_rank
  ∧ (dispatch_bound sample_fraud_workflow fraud_rank ≤ 3)%nat
  ∧ ∃ r stream,
    execute 3 sample_fraud_workflow sample_request = Some r
    ∧ run_stream 3 sample_fraud_workflow sample_request = Some stream
    ∧ length (filter (λ ev, is_terminal ev = true) stream) = 1%nat
    ∧ ((state r = FAILED ∧ output r = None
        ∧ stream = [StatusEvent RUNNING; StatusEvent FAILED]
        ∧ outputs stream = [] ∧ consume stream = None)
       ∨ (∃ o, state r = COMPLETED ∧ output r = Some o
               ∧ stream = [StatusEvent RUNNING; StatusEvent COMPLETED;
                           OutputEvent o]
               ∧ outputs stream = [o] ∧ consume stream = Some o)).
Proof.
  split; [exact sample_fraud_workflow_ranked|].
  split; [rewrite sample_fraud_workflow_bound; lia|].
  apply (one_terminal_event sample_fraud_workflow fraud_rank sample_request 3
           sample_fraud_workflow_ranked).
  rewrite sample_fraud_workflow_bound. lia.
Defined.

(** C2, as stated, fails: the handler of [ResearcherAgentV2Executor] has no
    [try]; when its agent raises it makes no context call and the exception
    leaves the handler. *)
Lemma every_handler_one_call_refuted :
  let h := ResearcherAgentV2Executor.handle
             (ResearcherAgentV2Executor.init (failing "service unavailable"))
             (inl (mkChatMessage "user" "task")) in
  calls h = [] ∧ raised h = Some "service unavailable"
  ∧ ¬ (∃ c, calls h = [c]).
Proof.
  simpl. split; [reflexivity|]. split; [reflexivity|].
  intros [c Hc]. discriminate Hc.
Qed.

(** C2, amended: each of the three fraud-detection handlers makes exactly
    one context call per invocation: [send_message] (for the terminal stage
    [yield_output]) of the success response when the agent replied, and of
    the response with status "ERROR" and the text "Error: " followed by the
    exception text when it raised.  Each of the three sequential handlers
    makes exactly one call, with the conversation extended by the reply,
    when its agent returned a message; when the agent raised or returned
    no message it makes no call and the exception leaves the handler. *)
Theorem handlers_context_calls :
  (∀ self request,
     CustomerDataAgentExecutor.handle self request =
     match run (Executor.agent self)
             [mkChatMessage "user" (CustomerDataAgentExecutor.prompt request)]
     with
     | AgentResponse messages =>
         ([send_message
             (CustomerDataResponse.mk
                (AnalysisRequest.customer_id request)
                (AnalysisRequest.transaction_id request)
                (last_text_or_no_response messages) "SUCCESS"
                (AnalysisRequest.amount request)
                (AnalysisRequest.currency request))], Return tt)
     | AgentRaises e =>
         ([send_message
             (CustomerDataResponse.mk
                (AnalysisRequest.customer_id request)
                (AnalysisRequest.transaction_id request)
                ("Error: " +:+ e) "ERROR" None (Some "USD"))], Return tt)
     end)
  ∧ (∀ self customer_response,
     match run (Executor.agent self)
             [mkChatMessage "user"
                (RiskAnalyserAgentExecutor.prompt customer_response)]
     with
     | AgentResponse messages =>
         ∃ response,
           RiskAnalyserAgentExecutor.handle self customer_response
           = ([send_message response], Return tt)
           ∧ RiskAnalysisResponse.status response = "SUCCESS"
     | AgentRaises e =>
         RiskAnalyserAgentExecutor.handle self customer_response
         = ([send_message
               (RiskAnalysisResponse.mk
                  (CustomerDataResponse.transaction_id customer_response)
                  (CustomerDataResponse.customer_id customer_response)
                  ("Error: " +:+ e) 0 "UNKNOWN" "INVESTIGATE" "ERROR"
                  None (Some "USD") None)], Return tt)
     end)
  ∧ (∀ self risk_response,
     match run (Executor.agent self)
             [mkChatMessage "user"
                (FraudAlertAgentExecutor.prompt risk_response)]
     with
     | AgentResponse messages =>
         ∃ response,
           FraudAlertAgentExecutor.handle self risk_response
           = ([yield_output response], Return tt)
           ∧ FraudAlertResponse.workflow_status response = "SUCCESS"
     | AgentRaises e =>
         FraudAlertAgentExecutor.handle self risk_response
         = ([yield_output
               (FraudAlertResponse.mk
                  (RiskAnalysisResponse.transaction_id risk_response)
                  (RiskAnalysisResponse.customer_id risk_response)
                  ("Error: " +:+ e) false "ERROR"
                  (RiskAnalysisResponse.risk_score risk_response)
                  (RiskAnalysisResponse.risk_level risk_response))],
            Return tt)
     end)
  ∧ (∀ self message,
     extends_conversation (Executor.agent self)
       (match message with inr l => l | inl m => [m] end) send_message
       (ResearcherAgentV2Executor.handle self message))
  ∧ (∀ self messages,
     extends_conversation (Executor.agent self) messages send_message
       (WriterAgentV2Executor.handle self messages))
  ∧ (∀ self messages,
     extends_conversation (Executor.agent self) messages yield_output
       (ReviewerAgentV2Executor.handle self messages)).
Proof.
  split; [|split; [|split; [|split; [|split]]]].
  - intros self request.
    unfold CustomerDataAgentExecutor.handle, agent_run.
    destruct (run _ _); reflexivity.
  - intros self customer_response.
    destruct (run _ _) as [e|messages] eqn:Hrun.
    + unfold RiskAnalyserAgentExecutor.handle, agent_run. rewrite Hrun.
      reflexivity.
    + destruct (risk_analyser_handle_success self customer_response messages
                  Hrun) as (score & _ & ->).
      eexists. split; reflexivity.
  - intros self risk_response.
    destruct (run _ _) as [e|messages] eqn:Hrun.
    + unfold FraudAlertAgentExecutor.handle, agent_run. rewrite Hrun.
      reflexivity.
    + eexists. split.
      { unfold FraudAlertAgentExecutor.handle, agent_run. rewrite Hrun.
        reflexivity. }
      reflexivity.
  - apply researcher_extends.
  - apply writer_extends.
  - apply reviewer_extends.
Qed.

(** C3, as stated, fails: a stage appends all the messages of its agent's
    response; with two-message responses the three stages leave a history of
    seven messages, not of three plus the one initial message. *)
Lemma history_length_refuted :
  let agent := replying ["found it"; "summary"] in
  let task := mkChatMessage "user" "task" in
  ∃ h1 h2 h3,
    calls (ResearcherAgentV2Executor.handle
             (ResearcherAgentV2Executor.init agent) (inl task))
      = [send_message h1]
    ∧ calls (WriterAgentV2Executor.handle
               (WriterAgentV2Executor.init agent) h1) = [send_message h2]
    ∧ calls (ReviewerAgentV2Executor.handle
               (ReviewerAgentV2Executor.init agent) h2) = [yield_output h3]
    ∧ length h3 = 7%nat
    ∧ length h3 ≠ (3 + 1)%nat.
Proof.
  simpl. do 3 eexists.
  split; [reflexivity|]. split; [reflexivity|]. split; [reflexivity|].
  split; [reflexivity|]. discriminate.
Qed.

(** C3, amended: each sequential stage emits the history it received,
    unchanged, followed by the messages of its agent's response; when the
    three stages executed, the length of the terminal history is the length
    of the initial input plus the number of messages the three responses
    held, which is the number of stages plus the initial input when every
    response is a single message. *)
Theorem sequential_history_accumulates
    (researcher writer reviewer : Executor.t)
    (message : ChatMessage + list ChatMessage)
    (h1 h2 h3 : list ChatMessage) :
  calls (ResearcherAgentV2Executor.handle researcher message)
    = [send_message h1] →
  calls (WriterAgentV2Executor.handle writer h1) = [send_message h2] →
  calls (ReviewerAgentV2Executor.handle reviewer h2) = [yield_output h3] →
  let received := match message with inr l => l | inl m => [m] end in
  ∃ r1 r2 r3,
    run (Executor.agent researcher) received = AgentResponse r1
    ∧ run (Executor.agent writer) h1 = AgentResponse r2
    ∧ run (Executor.agent reviewer) h2 = AgentResponse r3
    ∧ h1 = received ++ r1 ∧ h2 = h1 ++ r2 ∧ h3 = h2 ++ r3
    ∧ (length h3 = length received + (length r1 + length r2 + length r3))%nat
    ∧ (length r1 = 1 → length r2 = 1 → length r3 = 1 →
       length h3 = 3 + length received)%nat.
Proof.
  intros H1 H2 H3 received.
  destruct (extends_conversation_inv _ _ _ _ _
              (researcher_extends researcher message) H1)
    as (r1 & E1 & _ & [= ->]).
  destruct (extends_conversation_inv _ _ _ _ _
              (writer_extends writer _) H2) as (r2 & E2 & _ & [= ->]).
  destruct (extends_conversation_inv _ _ _ _ _
              (reviewer_extends reviewer _) H3) as (r3 & E3 & _ & [= ->]).
  exists r1, r2, r3. fold received in E1, E2, E3 |- *.
  split; [exact E1|]. split; [exact E2|]. split; [exact E3|].
  split; [reflexivity|]. split; [reflexivity|]. split; [reflexivity|].
  split.
  - rewrite !length_app. lia.
  - rewrite !length_app. lia.
Qed.

Lemma sequential_history_accumulates_witness :
  let researcher := ResearcherAgentV2Executor.init (replying ["facts"]) in
  let writer := WriterAgentV2Executor.init (replying ["draft"]) in
  let reviewer := ReviewerAgentV2Executor.init (replying ["review"]) in
  let task := mkChatMessage "user" "task" in
  let h1 := [task; mkChatMessage "assistant" "facts"] in
  let h2 := h1 ++ [mkChatMessage "assistant" "draft"] in
  let h3 := h2 ++ [mkChatMessage "assistant" "review"] in
  calls (ResearcherAgentV2Executor.handle researcher (inl task))
    = [send_message h1]
  ∧ calls (WriterAgentV2Executor.handle writer h1) = [send_message h2]
  ∧ calls (ReviewerAgentV2Executor.handle reviewer h2) = [yield_output h3]
  ∧ ∃ r1 r2 r3,
    run (Executor.agent researcher) [task] = AgentResponse r1
    ∧ run (Executor.agent writer) h1 = AgentResponse r2
    ∧ run (Executor.agent reviewer) h2 = AgentResponse r3
    ∧ h1 = [task] ++ r1 ∧ h2 = h1 ++ r2 ∧ h3 = h2 ++ r3
    ∧ (length h3 = length [task] + (length r1 + length r2 + length r3))%nat
    ∧ (length r1 = 1 → length r2 = 1 → length r3 = 1 →
       length h3 = 3 + length [task])%nat.
Proof.
  intros researcher writer reviewer task h1 h2 h3.
  split; [reflexivity|]. split; [reflexivity|]. split; [reflexivity|].
  exact (sequential_history_accumulates researcher writer reviewer
           (inl task) h1 h2 h3 eq_refl eq_refl eq_refl).
Defined.

(** C4, as stated, fails: in the sequential chain a Run whose first agent
    raises ends in [FAILED] after the first stage; the second stage is not
    invoked at all. *)
Lemma one_invocation_per_stage_refuted :
  ∃ g r,
    SequentialWorkflow.workflow (failing "service unavailable")
      (replying ["draft"]) (replying ["review"]) = inr g
    ∧ execute 3 g (inl (mkChatMessage "user" "task")) = Some r
    ∧ events r = [StatusEvent RUNNING; StatusEvent FAILED]
    ∧ history r = [Invoked "ResearcherAgentV2"; Faulted "ResearcherAgentV2"]
    ∧ invocations "WriterAgentV2" (history r) ≠ 1%nat.
Proof.
  destruct (sequential_workflow_built (failing "service unavailable")
              (replying ["draft"]) (replying ["review"]))
    as (g & Hg & Hedges & Hentry & Hr & _).
  exists g. eexists. split; [exact Hg|]. split.
  - unfold execute.
    erewrite (step_fault g _ _ "ResearcherAgentV2"); cycle 1.
    { reflexivity. } { simpl. by rewrite Hentry. } { exact Hr. }
    { reflexivity. }
    reflexivity.
  - split; [reflexivity|]. split; [reflexivity|]. vm_compute. discriminate.
Qed.

(** C4, amended: every Run of a linear graph of N stages ends within N
    dispatches; the stages are invoked in the order of the chain, each one
    right after its predecessor emitted, up to a stage [k] that completes
    the Run or faults; every stage up to [k] is invoked exactly once and no
    later stage is invoked. *)
Theorem linear_run_order {Msg Out Inst}
    (g : Graph Msg Out Inst) (ids : list string) (input : Msg) (fuel : nat) :
  linear g ids → (length ids ≤ fuel)%nat →
  ∃ r k s,
    execute fuel g input = Some r ∧ ids !! k = Some s
    ∧ (history r = forwarded (take k ids) ++ [Invoked s; Completed s]
       ∨ history r = forwarded (take k ids) ++ [Invoked s; Faulted s])
    ∧ ∀ i id, ids !! i = Some id →
        invocations id (history r) = if decide (i ≤ k)%nat then 1%nat else 0%nat.
Proof.
  intros Hlin Hfuel.
  destruct (execute_linear g ids input fuel Hlin Hfuel)
    as (r & k & s & Hr & Hk & Hh).
  exists r, k, s. split; [exact Hr|]. split; [exact Hk|]. split; [exact Hh|].
  intros i id Hi. destruct Hlin as (Hnd & _).
  destruct Hh as [-> | ->]; by apply invocations_chain.
Qed.

Lemma linear_run_order_witness :
  linear sample_fraud_workflow fraud_ids ∧ (length fraud_ids ≤ 3)%nat
  ∧ ∃ r k s,
    execute 3 sample_fraud_workflow sample_request = Some r
    ∧ fraud_ids !! k = Some s
    ∧ (history r = forwarded (take k fraud_ids) ++ [Invoked s; Completed s]
       ∨ history r = forwarded (take k fraud_ids) ++ [Invoked s; Faulted s])
    ∧ ∀ i id, fraud_ids !! i = Some id →
        invocations id (history r) = if decide (i ≤ k)%nat then 1%nat else 0%nat.
Proof.
  split; [exact sample_fraud_workflow_linear|].
  split; [simpl; lia|].
  apply (linear_run_order sample_fraud_workflow fraud_ids sample_request 3
           sample_fraud_workflow_linear).
  simpl; lia.
Defined.

(** C5, as stated, fails: [build] also rejects a graph in which an edge is
    recorded twice, although its endpoints are registered, its entry is set
    and every stage is reachable. *)
Lemma build_fails_iff_three_refuted :
  build two_edges_builder = inl (InvalidGraphError (DuplicateEdge "A" "B"))
  ∧ build_fails two_edges_builder
  ∧ ¬ (unregistered_endpoint two_edges_builder ∨ no_entry two_edges_builder
       ∨ unreachable_stage two_edges_builder).
Proof.
  assert (E : build two_edges_builder
              = inl (InvalidGraphError (DuplicateEdge "A" "B")))
    by (vm_compute; reflexivity).
  split; [exact E|]. split; [by eexists|].
  assert (Hdom : dom (b_stages two_edges_builder)
                 = ({["A"]} ∪ {["B"]} : gset string))
    by (vm_compute; reflexivity).
  unfold unregistered_endpoint, no_entry, unreachable_stage.
  rewrite Hdom.
  assert (Hedges : b_edges two_edges_builder = [("A", "B"); ("A", "B")])
    by reflexivity.
  assert (Hentry : b_entry two_edges_builder = Some "A") by reflexivity.
  rewrite Hedges, Hentry.
  intros [(s & t & Hin & Hno)|[Hno|(e & x & He & Hx & Hno)]].
  - assert (s = "A" ∧ t = "B") as [-> ->].
    { rewrite !elem_of_cons in Hin.
      destruct Hin as [Hin|[Hin|Hin]]; [by injection Hin|by injection Hin|].
      by apply elem_of_nil in Hin. }
    destruct Hno as [Hno|Hno]; apply Hno; apply elem_of_union.
    + left. by apply elem_of_singleton.
    + right. by apply elem_of_singleton.
  - apply (Hno "A" eq_refl). apply elem_of_union. left.
    by apply elem_of_singleton.
  - injection He as <-. apply Hno.
    apply elem_of_union in Hx as [Hx|Hx]; apply elem_of_singleton in Hx as ->.
    + apply rtc_refl.
    + apply rtc_once. left.
Qed.

(** C5, amended: [build] fails if and only if the graph under construction
    has an unregistered edge endpoint, no entry stage, an edge recorded
    twice, or an unreachable stage, and succeeds otherwise; for the two
    three-stage chains built in the sources it succeeds and returns the
    graph of the three stages, the two chain edges and the chain's head as
    entry. *)
Theorem build_validation :
  (∀ (Msg Out Inst : Type) (b : Builder Msg Out Inst),
     build_fails b ↔
     unregistered_endpoint b ∨ no_entry b ∨ repeated_edge b
     ∨ unreachable_stage b)
  ∧ (∀ a1 a2 a3 : ChatAgent,
       ∃ g, FraudWorkflow.workflow a1 a2 a3 = inr g
            ∧ edges g = chain_edges fraud_ids
            ∧ entry g = "CustomerDataAgent"
            ∧ dom (stages g) = list_to_set fraud_ids)
  ∧ (∀ a1 a2 a3 : ChatAgent,
       ∃ g, SequentialWorkflow.workflow a1 a2 a3 = inr g
            ∧ edges g = chain_edges sequential_ids
            ∧ entry g = "ResearcherAgentV2"
            ∧ dom (stages g) = list_to_set sequential_ids).
Proof.
  split; [intros Msg Out Inst b; apply build_fails_iff|]. split.
  - intros a1 a2 a3.
    destruct (fraud_workflow_built a1 a2 a3)
      as (g & Hg & He & Hs & _ & _ & _ & Hd).
    exists g. split; [exact Hg|]. split; [exact He|]. split; [exact Hs|exact Hd].
  - intros a1 a2 a3.
    destruct (sequential_workflow_built a1 a2 a3)
      as (g & Hg & He & Hs & _ & _ & _ & Hd).
    exists g. split; [exact Hg|]. split; [exact He|]. split; [exact Hs|exact Hd].
Qed.

(** A stage that keeps a count starts from its factory's count in each of
    two successive Runs. *)
Example counting_stage_starts_afresh :
  (λ r : option (Run unit nat nat), r ≫= output)
    <$> run_each 1 counting_graph [tt; tt]
  = [Some 1%nat; Some 1%nat].
Proof. reflexivity. Qed.

(** The handlers of the six executors leave their instance as it was. *)
Lemma source_stages_keep_instance (a : ChatAgent) :
  (∀ self m, (handler (FraudWorkflow.customer_data_stage a) self m).1 = self)
  ∧ (∀ self m, (handler (FraudWorkflow.risk_analyser_stage a) self m).1 = self)
  ∧ (∀ self m, (handler (FraudWorkflow.fraud_alert_stage a) self m).1 = self)
  ∧ (∀ self m, (handler (SequentialWorkflow.researcher_stage a) self m).1 = self)
  ∧ (∀ self m, (handler (SequentialWorkflow.writer_stage a) self m).1 = self)
  ∧ (∀ self m, (handler (SequentialWorkflow.reviewer_stage a) self m).1 = self).
Proof. repeat split. Qed.

(** C8: when the agent replied, [RiskAnalyserAgentExecutor.handle] sends
    one response with status "SUCCESS" whose score lies in 0..100 and was
    either read by one of the patterns or is the fallback 85, 55, 25 or 50;
    its level is HIGH iff score >= 75, MEDIUM iff 40 <= score < 75 and LOW
    otherwise, and its recommendation is BLOCK, INVESTIGATE or ALLOW for
    HIGH, MEDIUM or LOW. *)
Theorem risk_analyser_success_response
    (self : Executor.t) (customer_response : CustomerDataResponse.t) :
  match run (Executor.agent self)
            [mkChatMessage "user"
               (RiskAnalyserAgentExecutor.prompt customer_response)] with
  | AgentRaises e =>
      ∃ response,
        RiskAnalyserAgentExecutor.handle self customer_response
        = ([send_message response], Return tt)
        ∧ RiskAnalysisResponse.status response = "ERROR"
  | AgentResponse messages =>
      ∃ response,
        RiskAnalyserAgentExecutor.handle self customer_response
        = ([send_message response], Return tt)
        ∧ RiskAnalysisResponse.status response = "SUCCESS"
        ∧ RiskAnalysisResponse.risk_analysis response
          = last_text_or_no_response messages
        ∧ (let score := RiskAnalysisResponse.risk_score response in
           let level := RiskAnalysisResponse.risk_level response in
           let recommendation :=
             RiskAnalysisResponse.recommendation response in
           let lowered := Py.lower (last_text_or_no_response messages) in
           0 <= score <= 100
           ∧ ((∃ p m, p ∈ RiskAnalyserAgentExecutor.patterns
                      ∧ Re.search p lowered = Some m
                      ∧ RiskAnalyserAgentExecutor.int_group1 m = Return score)
              ∨ (RiskAnalyserAgentExecutor.scan_patterns
                   RiskAnalyserAgentExecutor.patterns lowered = Return None
                 ∧ score = RiskAnalyserAgentExecutor.fallback_score lowered
                 ∧ score ∈ [85; 55; 25; 50]))
           ∧ (level = "HIGH" ↔ 75 <= score)
           ∧ (level = "MEDIUM" ↔ 40 <= score < 75)
           ∧ (level = "LOW" ↔ score < 40)
           ∧ (recommendation = "BLOCK" ↔ level = "HIGH")
           ∧ (recommendation = "INVESTIGATE" ↔ level = "MEDIUM")
           ∧ (recommendation = "ALLOW" ↔ level = "LOW"))
  end.
Proof.
  destruct (run _ _) as [e|messages] eqn:Hrun.
  { eexists. split.
    - unfold RiskAnalyserAgentExecutor.handle, agent_run. rewrite Hrun.
      reflexivity.
    - reflexivity. }
  destruct (risk_analyser_handle_success self customer_response messages Hrun)
    as (score & Hparse & ->).
  destruct (parse_risk_score_spec (last_text_or_no_response messages))
    as (score' & Hparse' & Hrange & Horigin).
  assert (score' = score) as -> by congruence.
  eexists. split; [reflexivity|]. simpl.
  split; [reflexivity|]. split; [reflexivity|]. split; [exact Hrange|].
  split; [exact Horigin|].
  destruct (level_of_spec score) as (Hh & Hm & Hl).
  destruct (recommendation_of_level score) as (Hb & Hi & Ha).
  split; [exact Hh|]. split; [exact Hm|]. split; [exact Hl|].
  split; [exact Hb|]. split; [exact Hi|exact Ha].
Qed.


(** C10: the loop of [run_fraud_detection_workflow] leaves in
    [final_result] the payload of the last [WorkflowOutputEvent] of the
    stream, and [None] when the stream has none, as after RUNNING, FAILED;
    the function returns that value. *)
Theorem final_result_is_last_output
    (fuel : nat) (a1 a2 a3 : ChatAgent) (transaction_id customer_id : string)
    (amount : option float) (currency : option string) :
  (∀ stream : list (Event FraudAlertResponse.t),
     consume stream = last (outputs stream)
     ∧ (outputs stream = [] → consume stream = None))
  ∧ consume (P := FraudAlertResponse.t)
      [StatusEvent RUNNING; StatusEvent FAILED] = None
  ∧ FraudWorkflow.run_fraud_detection_workflow
      fuel a1 a2 a3 transaction_id customer_id amount currency
    = match FraudWorkflow.workflow a1 a2 a3 with
      | inl _ => None
      | inr workflow =>
          (fun stream => last (outputs stream))
          <$> Engine.run_stream fuel workflow
                (FraudWorkflow.Request
                   (AnalysisRequest.mk transaction_id customer_id
                                       amount currency))
      end.
Proof.
  assert (H : ∀ stream : list (Event FraudAlertResponse.t),
             consume stream = last (outputs stream)).
  { intros stream. unfold consume. rewrite consume_from.
    by destruct (last (outputs stream)). }
  split; [|split; [reflexivity|]].
  - intros stream. split; [apply H|]. intros E. by rewrite H, E.
  - unfold FraudWorkflow.run_fraud_detection_workflow.
    destruct (FraudWorkflow.workflow a1 a2 a3) as [|wf]; [reflexivity|].
    destruct (Engine.run_stream _ _ _); simpl; [|reflexivity]. by rewrite H.
Qed.

(* ===================================================================== *)
(** * Facts about the metrics, the clients, the prints and the runner     *)
(* ===================================================================== *)

(** ** The three fraud-detection handlers, case by case *)

Module FraudChainFacts.
Import RiskAnalyserAgentExecutor.

Lemma customer_data_handle_cases
    (self : Executor.t) (request : AnalysisRequest.t) :
  match run (Executor.agent self)
            [mkChatMessage "user" (CustomerDataAgentExecutor.prompt request)]
  with
  | AgentRaises e =>
      CustomerDataAgentExecutor.handle self request
      = ([send_message
            (CustomerDataResponse.mk
               (AnalysisRequest.customer_id request)
               (AnalysisRequest.transaction_id request)
               ("Error: " +:+ e) "ERROR" None (Some "USD"))], Return tt)
  | AgentResponse messages =>
      CustomerDataAgentExecutor.handle self request
      = ([send_message
            (CustomerDataResponse.mk
               (AnalysisRequest.customer_id request)
               (AnalysisRequest.transaction_id request)
               (last_text_or_no_response messages) "SUCCESS"
               (AnalysisRequest.amount request)
               (AnalysisRequest.currency request))], Return tt)
  end.
Proof.
  unfold CustomerDataAgentExecutor.handle, agent_run.
  destruct (run _ _); reflexivity.
Qed.

Lemma risk_analyser_handle_cases
    (self : Executor.t) (customer_response : CustomerDataResponse.t) :
  match run (Executor.agent self)
            [mkChatMessage "user"
               (RiskAnalyserAgentExecutor.prompt customer_response)]
  with
  | AgentRaises e =>
      RiskAnalyserAgentExecutor.handle self customer_response
      = ([send_message
            (RiskAnalysisResponse.mk
               (CustomerDataResponse.transaction_id customer_response)
               (CustomerDataResponse.customer_id customer_response)
               ("Error: " +:+ e) 0 "UNKNOWN" "INVESTIGATE" "ERROR"
               None (Some "USD") None)], Return tt)
  | AgentResponse messages =>
      ∃ score,
        parse_risk_score (last_text_or_no_response messages) = Return score
        ∧ 0 <= score <= 100
        ∧ RiskAnalyserAgentExecutor.handle self customer_response
          = ([send_message
                (RiskAnalysisResponse.mk
                   (CustomerDataResponse.transaction_id customer_response)
                   (CustomerDataResponse.customer_id customer_response)
                   (last_text_or_no_response messages) score
                   (level_of score) (recommendation_of (level_of score))
                   "SUCCESS"
                   (CustomerDataResponse.amount customer_response)
                   (CustomerDataResponse.currency customer_response)
                   (Some (confidence_of score)))], Return tt)
  end.
Proof.
  destruct (run _ _) as [e|messages] eqn:Hrun.
  - unfold RiskAnalyserAgentExecutor.handle, agent_run. rewrite Hrun.
    reflexivity.
  - destruct (parse_risk_score_spec (last_text_or_no_response messages))
      as (score & Hparse & Hrange & _).
    exists score. split; [exact Hparse|]. split; [exact Hrange|].
    unfold RiskAnalyserAgentExecutor.handle, agent_run. rewrite Hrun.
    unfold mbind, Handler_bind, h_ret, lift; simpl. rewrite Hparse.
    reflexivity.
Qed.

Lemma fraud_alert_handle_cases
    (self : Executor.t) (risk_response : RiskAnalysisResponse.t) :
  match run (Executor.agent self)
            [mkChatMessage "user"
               (FraudAlertAgentExecutor.prompt risk_response)]
  with
  | AgentRaises e =>
      FraudAlertAgentExecutor.handle self risk_response
      = ([yield_output
            (FraudAlertResponse.mk
               (RiskAnalysisResponse.transaction_id risk_response)
               (RiskAnalysisResponse.customer_id risk_response)
               ("Error: " +:+ e) false "ERROR"
               (RiskAnalysisResponse.risk_score risk_response)
               (RiskAnalysisResponse.risk_level risk_response))], Return tt)
  | AgentResponse messages =>
      FraudAlertAgentExecutor.handle self risk_response
      = ([yield_output
            (FraudAlertResponse.mk
               (RiskAnalysisResponse.transaction_id risk_response)
               (RiskAnalysisResponse.customer_id risk_response)
               (last_text_or_no_response messages)
               (FraudAlertAgentExecutor.alert_created_of
                  (last_text_or_no_response messages)
                  (RiskAnalysisResponse.risk_score risk_response))
               "SUCCESS"
               (RiskAnalysisResponse.risk_score risk_response)
               (RiskAnalysisResponse.risk_level risk_response))], Return tt)
  end.
Proof.
  unfold FraudAlertAgentExecutor.handle, agent_run.
  destruct (run _ _); reflexivity.
Qed.

(** The three handlers always hand on one payload each. *)
Lemma fraud_chain_exists (s1 s2 s3 : Executor.t) (request : AnalysisRequest.t) :
  ∃ c k f, fraud_chain s1 s2 s3 request c k f.
Proof.
  assert (∃ c, calls (CustomerDataAgentExecutor.handle s1 request)
               = [send_message c]) as [c Hc].
  { pose proof (customer_data_handle_cases s1 request) as H.
    destruct (run _ _); rewrite H; eexists; reflexivity. }
  assert (∃ k, calls (RiskAnalyserAgentExecutor.handle s2 c)
               = [send_message k]) as [k Hk].
  { pose proof (risk_analyser_handle_cases s2 c) as H.
    destruct (run _ _); [|destruct H as (score & _ & _ & H)];
      rewrite H; eexists; reflexivity. }
  assert (∃ f, calls (FraudAlertAgentExecutor.handle s3 k)
               = [yield_output f]) as [f Hf].
  { pose proof (fraud_alert_handle_cases s3 k) as H.
    destruct (run _ _); rewrite H; eexists; reflexivity. }
  exists c, k, f. split; [exact Hc|]. split; [exact Hk|exact Hf].
Qed.

(** When one of the first two agents raised, the risk response has lost
    the amount and the currency of the request. *)
Lemma amount_lost s1 s2 s3 request c k f :
  fraud_chain s1 s2 s3 request c k f →
  agent_raised s1 (CustomerDataAgentExecutor.prompt request)
  ∨ agent_raised s2 (RiskAnalyserAgentExecutor.prompt c) →
  RiskAnalysisResponse.amount k = None
  ∧ RiskAnalysisResponse.currency k = Some "USD".
Proof.
  intros (H1 & H2 & _). unfold agent_raised.
  pose proof (customer_data_handle_cases s1 request) as C1.
  pose proof (risk_analyser_handle_cases s2 c) as C2.
  destruct (run (Executor.agent s1) _) as [e1|m1]; rewrite C1 in H1;
    injection H1 as <-; clear C1;
    (destruct (run (Executor.agent s2) _) as [e2|m2];
     [|destruct C2 as (? & _ & _ & C2)]; rewrite C2 in H2;
     injection H2 as <-; clear C2); simpl.
  all: intros [[? E1]|[? E2]].
  all: try discriminate E1; try discriminate E2; done.
Qed.

Lemma alert_created_of_spec reply score :
  FraudAlertAgentExecutor.alert_created_of reply score = true
  ↔ contains_ci "alert created" reply ∨ 40 <= score.
Proof.
  unfold FraudAlertAgentExecutor.alert_created_of.
  rewrite orb_true_iff, contains_lower. by rewrite Z.leb_le.
Qed.

Lemma severity_of_spec score :
  let severity := FraudAlertAgentExecutor.severity_of score in
  (severity = "CRITICAL" ↔ 90 <= score)
  ∧ (severity = "HIGH" ↔ 75 <= score < 90)
  ∧ (severity = "MEDIUM" ↔ 50 <= score < 75)
  ∧ (severity = "LOW" ↔ score < 50).
Proof.
  unfold FraudAlertAgentExecutor.severity_of.
  destruct (Z.leb_spec 90 score), (Z.leb_spec 75 score),
    (Z.leb_spec 50 score); repeat split; intros; try done; try lia.
Qed.

End FraudChainFacts.

(** ** What the score patterns read *)

Module ScoreFacts.
Import Re ReSem RiskAnalyserAgentExecutor.

Lemma digit_plain c :
  Py.is_digit c = true →
  Py.lower_char c = c ∧ Py.is_space c = false
  ∧ Ascii.eqb c ":"%char = false ∧ Py.is_word c = true.
Proof.
  destruct c as [[] [] [] [] [] [] [] []]; intros H;
    try discriminate H; repeat split; reflexivity.
Qed.

Lemma is_digit_lower_char c : Py.is_digit (Py.lower_char c) = Py.is_digit c.
Proof. destruct c as [[] [] [] [] [] [] [] []]; reflexivity. Qed.

Lemma lower_digits d : Py.all_chars Py.is_digit d = true → Py.lower d = d.
Proof.
  induction d as [|c d IH]; simpl; [done|].
  intros [Hc Hd]%andb_prop. rewrite IH by done.
  by destruct (digit_plain c Hc) as (-> & _).
Qed.

Lemma all_chars_app p a b :
  Py.all_chars p (a +:+ b) = Py.all_chars p a && Py.all_chars p b.
Proof.
  induction a as [|c a IH]; [done|].
  rewrite append_cons; simpl. rewrite IH. by rewrite andb_assoc.
Qed.

Lemma digit_free_lower s : digit_free (Py.lower s) = digit_free s.
Proof.
  unfold digit_free. induction s as [|c s IH]; simpl; [done|].
  by rewrite is_digit_lower_char, IH.
Qed.

Lemma next_is_digit_lower s : next_is_digit (Py.lower s) = next_is_digit s.
Proof. destruct s; simpl; [done|apply is_digit_lower_char]. Qed.

Lemma int_Some d n :
  Py.int d = Some n →
  d ≠ EmptyString ∧ Py.all_chars Py.is_digit d = true
  ∧ n = Py.int_digits 0 d.
Proof.
  unfold Py.int. destruct d as [|c d]; [done|].
  destruct (Py.all_chars _ _); [|done]. by intros [= <-].
Qed.

(** *** The first candidate of a match *)

Lemma head_bind {A B} (f : A → list B) l x y :
  head l = Some x → head (f x) = Some y → head (l ≫= f) = Some y.
Proof.
  destruct l as [|x' l]; [done|]. intros [= ->] Hy.
  change ((x :: l) ≫= f) with (f x ++ l ≫= f).
  destruct (f x); [done|]. exact Hy.
Qed.

Lemma head_lit l prev s g :
  head (matches (Lit l) prev (l +:+ s) g) = Some (Cand l s g).
Proof. simpl. by rewrite strip_prefix_app. Qed.

Lemma head_rep cls : ∀ d lo hi prev s g,
  Py.all_chars cls d = true →
  (lo ≤ String.length d)%nat →
  (∀ h, hi = Some h → (String.length d ≤ h)%nat) →
  (hi = Some (String.length d)
   ∨ match s with String c _ => cls c = false | EmptyString => True end) →
  head (matches (Rep cls lo hi) prev (d +:+ s) g) = Some (Cand d s g).
Proof.
  induction d as [|a d IH]; intros lo hi prev s g Hall Hlo Hhi Hstop.
  - rewrite append_empty. simpl in Hlo.
    assert (lo = 0)%nat as -> by lia.
    destruct s as [|c s]; [done|]. simpl.
    destruct Hstop as [-> | ->]; [by rewrite andb_false_r|done].
  - rewrite append_cons. simpl in *.
    apply andb_prop in Hall as [Ha Hd]. rewrite Ha. simpl.
    assert (hi_open hi = true) as ->.
    { destruct hi as [[|h]|]; try done. specialize (Hhi _ eq_refl). lia. }
    specialize (IH (Nat.pred lo) (hi_pred hi) prev s g Hd).
    destruct (rep cls (Nat.pred lo) (hi_pred hi) (d +:+ s) g) as [|k ks].
    + exfalso. enough (@None cand = Some (Cand d s g)) by done.
      apply IH; [lia| |].
      * intros h Hh. destruct hi as [h'|]; [|done]. simpl in Hh.
        specialize (Hhi _ eq_refl). injection Hh as <-. lia.
      * destruct Hstop as [-> | ?]; [left|by right]. done.
    + simpl. f_equal.
      enough (Some k = Some (Cand d s g)) as [= ->] by done.
      apply IH; [lia| |].
      * intros h Hh. destruct hi as [h'|]; [|done]. simpl in Hh.
        specialize (Hhi _ eq_refl). injection Hh as <-. lia.
      * destruct Hstop as [-> | ?]; [left|by right]. done.
Qed.

Lemma head_grp i r prev s g k :
  head (matches r prev s g) = Some k →
  head (matches (Grp i r) prev s g)
  = Some (Cand (consumed k) (rest k) (<[i := consumed k]> (groups k))).
Proof.
  simpl. destruct (matches r prev s g); [done|]. by intros [= ->].
Qed.

(** The first candidate of a sequence whose second part starts wherever
    the first part stopped. *)
Lemma head_seq (G : gmap nat string) r1 r2 prev s g k1 :
  head (matches r1 prev s g) = Some k1 →
  (∀ prev', ∃ k2,
     head (matches r2 prev' (rest k1) (groups k1)) = Some k2
     ∧ groups k2 = G) →
  ∃ k, head (matches (Seq r1 r2) prev s g) = Some k ∧ groups k = G.
Proof.
  intros H1 H2.
  destruct (H2 (Py.last_char prev (consumed k1))) as (k2 & Hk2 & HG).
  exists (Cand (consumed k1 +:+ consumed k2) (rest k2) (groups k2)).
  split; [|exact HG].
  simpl. eapply head_bind; [exact H1|].
  eapply head_bind; [exact Hk2|]. reflexivity.
Qed.

Lemma head_opt r prev s g :
  (∀ k, k ∈ matches r prev s g → groups k = g) →
  ∃ k, head (matches (Opt r) prev s g) = Some k ∧ groups k = g.
Proof.
  intros H. simpl. destruct (matches r prev s g) as [|k ks].
  - by eexists.
  - exists k. split; [done|]. apply H. left.
Qed.

Lemma search_from_head r prev s k :
  head (matches r prev s ∅) = Some k →
  search_from r prev s = Some (groups k).
Proof.
  destruct s; simpl; destruct (matches r prev _ ∅); by intros [= ->].
Qed.

Lemma scan_patterns_hit p ps lowered m n :
  search p lowered = Some m → int_group1 m = Return n →
  0 <= n <= 100 →
  scan_patterns (p :: ps) lowered = Return (Some n).
Proof.
  intros Hs Hi Hn. simpl. rewrite Hs, Hi.
  destruct (Z.leb_spec 0 n), (Z.leb_spec n 100); try lia. reflexivity.
Qed.

(** The first pattern on a text that opens with "risk score: " and a run
    of digits: group 1 is that run. *)
Lemma risk_score_pattern_reads d tail :
  d ≠ EmptyString →
  Py.all_chars Py.is_digit d = true →
  (String.length d ≤ 3)%nat →
  (String.length d = 3%nat ∨ next_is_digit tail = false) →
  search (Lit "risk" ⋅ ws ⋅ Lit "score" ⋅ colon_ws ⋅ digits13
            ⋅ Opt (ws ⋅ Lit "/" ⋅ ws ⋅ Lit "100"))
         ("risk score: " +:+ d +:+ tail)
  = Some (<[1%nat := d]> ∅).
Proof.
  intros Hne Hall Hlen Hstop.
  enough (∃ k, head (matches
                 (Lit "risk" ⋅ ws ⋅ Lit "score" ⋅ colon_ws ⋅ digits13
                  ⋅ Opt (ws ⋅ Lit "/" ⋅ ws ⋅ Lit "100"))
                 None ("risk score: " +:+ d +:+ tail) ∅) = Some k
               ∧ groups k = <[1%nat := d]> ∅) as (k & Hk & <-).
  { by apply search_from_head. }
  change ("risk score: " +:+ d +:+ tail)
    with ("risk" +:+ " " +:+ "score" +:+ ": " +:+ d +:+ tail).
  eapply head_seq; [apply head_lit|]. cbn [rest groups]. intros prev1.
  eapply head_seq.
  { unfold ws. apply head_rep; [reflexivity|simpl; lia|done|].
    right. reflexivity. }
  cbn [rest groups]. intros prev2.
  eapply head_seq; [apply head_lit|]. cbn [rest groups]. intros prev3.
  eapply head_seq.
  { unfold colon_ws. apply head_rep; [reflexivity|simpl; lia|done|].
    right. destruct d as [|c d]; [done|]. rewrite append_cons.
    simpl in Hall. apply andb_prop in Hall as [Hc _].
    destruct (digit_plain c Hc) as (_ & -> & -> & _). reflexivity. }
  cbn [rest groups]. intros prev4.
  eapply head_seq.
  { unfold digits13. apply head_grp. apply head_rep; [exact Hall| | |].
    - destruct d; [done|]. simpl. lia.
    - intros h [= <-]. exact Hlen.
    - destruct Hstop as [-> | Hstop]; [by left|right].
      destruct tail; [done|]. exact Hstop. }
  cbn [rest groups consumed]. intros prev5.
  apply head_opt. intros k Hk.
  apply matches_sound in Hk as [_ Hk]. sem_inv. assumption.
Qed.

(** *** Texts without a digit *)

(** A group that a match sets holds a piece of the text matched. *)
Lemma sem_group_within r : ∀ txt c c' i g,
  sem r txt c c' → c' !! i = Some g →
  c !! i = Some g ∨ ∃ a b, txt = a +:+ g +:+ b.
Proof.
  induction r as [l|cls lo hi|r1 IH1 r2 IH2|r1 IH1 r2 IH2|r IH|j r IH|];
    intros txt c c' i g; simpl.
  - intros [_ ->]; auto.
  - intros (_ & _ & _ & ->); auto.
  - intros (t1 & t2 & c1 & -> & S1 & S2) Hg.
    destruct (IH2 _ _ _ _ _ S2 Hg) as [Hc1|(a & b & ->)].
    + destruct (IH1 _ _ _ _ _ S1 Hc1) as [?|(a & b & ->)]; [by left|].
      right. exists a, (b +:+ t2). by rewrite !append_assoc.
    + right. exists (t1 +:+ a), b. by rewrite !append_assoc.
  - intros [S|S] Hg; eauto.
  - intros [S|[-> ->]] Hg; eauto.
  - intros (c1 & S & ->) Hg.
    destruct (decide (j = i)) as [->|Hne].
    + rewrite lookup_insert_eq in Hg. injection Hg as ->.
      right. exists EmptyString, EmptyString.
      rewrite append_empty. clear. induction g; [done|].
      rewrite append_cons. congruence.
    + rewrite lookup_insert_ne in Hg by done. eauto.
  - intros [_ ->]; auto.
Qed.

Lemma search_from_within r : ∀ s prev m,
  search_from r prev s = Some m →
  ∃ pre txt post, s = pre +:+ txt +:+ post ∧ sem r txt ∅ m.
Proof.
  induction s as [|c s IH]; intros prev m; simpl.
  - destruct (matches r prev EmptyString ∅) as [|k ?] eqn:E; [done|].
    intros [= <-]. exists EmptyString, (consumed k), (rest k).
    rewrite append_empty. eapply matches_sound. rewrite E. left.
  - destruct (matches r prev (String c s) ∅) as [|k ?] eqn:E.
    + intros (pre & txt & post & -> & Hsem)%IH.
      exists (String c pre), txt, post. by rewrite append_cons.
    + intros [= <-]. exists EmptyString, (consumed k), (rest k).
      rewrite append_empty. eapply matches_sound. rewrite E. left.
Qed.

Lemma digit_free_no_score p s :
  p ∈ patterns → digit_free s = true → search p s = None.
Proof.
  intros Hp Hfree. destruct (search p s) as [m|] eqn:E; [|done]. exfalso.
  apply search_from_within in E as (pre & txt & post & -> & Hsem).
  destruct (patterns_score_group _ _ _ Hp Hsem) as (g & Hg & Hne & Hall).
  destruct (sem_group_within _ _ _ _ _ _ Hsem Hg) as [?|(a & b & ->)]; [done|].
  unfold digit_free in Hfree.
  rewrite !all_chars_app in Hfree.
  destruct g as [|ch g]; [done|]. simpl in Hall, Hfree.
  apply andb_prop in Hall as [Hch _]. rewrite Hch in Hfree.
  simpl in Hfree. by rewrite !andb_false_r, ?andb_false_l in Hfree.
Qed.

Lemma scan_patterns_none ps s :
  (∀ p, p ∈ ps → search p s = None) → scan_patterns ps s = Return None.
Proof.
  induction ps as [|p ps IH]; intros H; simpl; [done|].
  rewrite (H p) by left. apply IH. intros q Hq. apply H. by right.
Qed.

(** *** Keywords *)

Lemma found_search_from r : ∀ pre prev s,
  matches r (Py.last_char prev pre) s ∅ ≠ [] →
  found (search_from r prev (pre +:+ s)) = true.
Proof.
  induction pre as [|c pre IH]; intros prev s Hne.
  - rewrite append_empty. simpl in Hne.
    destruct s; simpl; by destruct (matches r prev _ ∅).
  - rewrite append_cons. simpl.
    destruct (matches r prev _ ∅); [|done]. by apply IH.
Qed.

Lemma rep_zero_nonempty cls hi s g : rep cls 0 hi s g ≠ [].
Proof.
  destruct s as [|c s]; simpl; [done|].
  destruct (cls c && hi_open hi); [|done].
  by destruct (_ <$> _).
Qed.

Lemma level_pattern_matches words prev s :
  xorb (word_before prev) (word_after s) = true →
  matches words prev s ∅ ≠ [] →
  matches (level_pattern words) prev s ∅ ≠ [].
Proof.
  intros Hb Hw. unfold level_pattern. simpl. rewrite Hb. simpl.
  destruct (matches words prev s ∅) as [|k ks]; [done|].
  rewrite fmap_cons. simpl.
  pose proof (rep_zero_nonempty Py.is_space None (rest k)
                (<[1%nat := consumed k]> (groups k))) as Hr.
  destruct (rep _ _ _ _ _) as [|k2 ks2]; [done|]. simpl.
  match goal with
  | |- context [?l ++ [?x]] => destruct l
  end; done.
Qed.

(** *** The documented formats *)

Lemma digit_in_digit_chars c : Py.is_digit c = true → In c digit_chars.
Proof.
  destruct c as [[] [] [] [] [] [] [] []]; intros H;
    try discriminate H; unfold digit_chars; simpl; tauto.
Qed.

Lemma digit_value_nonneg c : Py.is_digit c = true → 0 <= Py.digit_value c.
Proof.
  destruct c as [[] [] [] [] [] [] [] []]; intros H;
    try discriminate H; by vm_compute.
Qed.

Lemma int_digits_nonneg d : ∀ acc,
  Py.all_chars Py.is_digit d = true → 0 <= acc → 0 <= Py.int_digits acc d.
Proof.
  induction d as [|c d IH]; intros acc; simpl; [done|].
  intros [Hc Hd]%andb_prop Hacc. apply IH; [done|].
  pose proof (digit_value_nonneg c Hc). lia.
Qed.

Lemma reads_documented_all :
  forallb (λ c1, reads_documented (String c1 EmptyString)
     && forallb (λ c2, reads_documented (String c1 (String c2 EmptyString))
          && forallb (λ c3,
               reads_documented (String c1 (String c2 (String c3 EmptyString))))
               digit_chars)
          digit_chars)
    digit_chars = true.
Proof. vm_compute. reflexivity. Qed.

Lemma reads_documented_digits d :
  Py.all_chars Py.is_digit d = true → (String.length d ≤ 3)%nat →
  reads_documented d = true.
Proof.
  intros Hall Hlen.
  pose proof reads_documented_all as H.
  rewrite forallb_forall in H.
  destruct d as [|c1 d]; [reflexivity|].
  simpl in Hall. apply andb_prop in Hall as [H1 Hall].
  specialize (H c1 (digit_in_digit_chars c1 H1)).
  apply andb_prop in H as [Hd1 H].
  destruct d as [|c2 d]; [exact Hd1|].
  simpl in Hall. apply andb_prop in Hall as [H2 Hall].
  rewrite forallb_forall in H.
  specialize (H c2 (digit_in_digit_chars c2 H2)).
  apply andb_prop in H as [Hd2 H].
  destruct d as [|c3 d]; [exact Hd2|].
  simpl in Hall. apply andb_prop in Hall as [H3 Hall].
  rewrite forallb_forall in H.
  specialize (H c3 (digit_in_digit_chars c3 H3)).
  destruct d as [|c4 d]; [exact H|]. simpl in Hlen. lia.
Qed.

End ScoreFacts.

(** ** The metrics *)

Module TelemetryFacts.
Import Telemetry.

Lemma amount_threshold_spec (amount : option float) :
  amount_threshold amount = true
  ↔ ∃ a, amount = Some a ∧ (inject_Z 10000 <= a)%Q.
Proof.
  unfold amount_threshold, PyText.or_float, PyText.truthy.
  destruct amount as [a|].
  - destruct (Qeq_bool a 0) eqn:E; simpl.
    + apply Qeq_bool_iff in E. split.
      * intros H. apply Qle_bool_iff in H. by vm_compute in H.
      * intros (a' & [= <-] & H). exfalso. rewrite E in H.
        by vm_compute in H.
    + rewrite Qle_bool_iff. split; [by exists a|by intros (? & [= <-] & ?)].
  - split; [|by intros (? & [=] & _)].
    intros H. apply Qle_bool_iff in H. by vm_compute in H.
Qed.

Lemma truthy_spec (amount : option float) :
  PyText.truthy amount = true ↔ ∃ a, amount = Some a ∧ ¬ (a == 0)%Q.
Proof.
  unfold PyText.truthy. destruct amount as [a|].
  - rewrite negb_true_iff. split.
    + intros E. exists a. split; [done|]. intros H.
      apply Qeq_bool_iff in H. congruence.
    + intros (? & [= <-] & H). destruct (Qeq_bool a 0) eqn:E; [|done].
      by apply Qeq_bool_iff in E.
  - split; [done|by intros (? & [=] & _)].
Qed.

Lemma high_severity_spec score :
  String.eqb (FraudAlertAgentExecutor.severity_of score) "CRITICAL"
  || String.eqb (FraudAlertAgentExecutor.severity_of score) "HIGH" = true
  ↔ 75 <= score.
Proof.
  unfold FraudAlertAgentExecutor.severity_of.
  destruct (Z.leb_spec 90 score), (Z.leb_spec 75 score),
    (Z.leb_spec 50 score); simpl; split; intros; try done; lia.
Qed.

(** The calls of the alert handler once its agent replied. *)
Lemma fraud_alert_handle_replied ambient self k messages :
  run (Executor.agent self)
      [mkChatMessage "user" (FraudAlertAgentExecutor.prompt k)]
  = AgentResponse messages →
  let tid := RiskAnalysisResponse.transaction_id k in
  let score := RiskAnalysisResponse.risk_score k in
  let amount := RiskAnalysisResponse.amount k in
  fraud_alert_handle ambient self k
  = if FraudAlertAgentExecutor.alert_created_of
         (last_text_or_no_response messages) score
    then
      [record_fraud_alert_created ("ALERT-" +:+ tid)
         (FraudAlertAgentExecutor.severity_of score)
         (RiskAnalysisResponse.recommendation k) tid]
      ++ (if String.eqb (RiskAnalysisResponse.recommendation k) "BLOCK"
             && PyText.truthy amount
          then [record_fraud_prevented tid amount
                  (PyText.or_str (RiskAnalysisResponse.currency k) "USD")
                  "general_fraud" score]
          else [])
      ++ (if String.eqb (FraudAlertAgentExecutor.severity_of score) "CRITICAL"
             || String.eqb (FraudAlertAgentExecutor.severity_of score) "HIGH"
             || amount_threshold amount
          then [record_sar_filed tid (sar_id_of ambient) (in_30_days ambient)
                  (amount_threshold amount)
                  (RiskAnalysisResponse.customer_id k)]
          else [])
    else [].
Proof. intros Hrun. unfold fraud_alert_handle. by rewrite Hrun. Qed.

End TelemetryFacts.

(** ** The shared client *)

Module ClientFacts.
Import Clients.

Section Library.
Context {ChatClient : Type}.
Variable OpenAIChatClient :
  gmap string string → AsyncAzureOpenAI → string → result ChatClient.

Lemma create_chat_clients_cached : ∀ environs client i environ,
  environs !! i = Some environ →
  create_chat_clients OpenAIChatClient environs (Some client) !! i
  = Some (OpenAIChatClient environ client (get_model_id environ)).
Proof.
  induction environs as [|env environs IH]; intros client i environ;
    [done|].
  destruct i as [|i]; simpl.
  - by intros [= ->].
  - apply IH.
Qed.
End Library.

Lemma first_endpoint_cons environ environs :
  first_endpoint (environ :: environs)
  = match environ !! "AZURE_OPENAI_ENDPOINT" with
    | Some endpoint => Some endpoint
    | None => first_endpoint environs
    end.
Proof.
  unfold first_endpoint. simpl.
  by destruct (environ !! "AZURE_OPENAI_ENDPOINT").
Qed.

End ClientFacts.

(** ** What the sequential handlers print *)

Module OutputFacts.
Import SequentialOutput.

Lemma length_app (a b : string) :
  String.length (a +:+ b) = (String.length a + String.length b)%nat.
Proof.
  induction a as [|c a IH]; [done|]. rewrite append_cons. simpl. by rewrite IH.
Qed.

Lemma length_slice_to : ∀ n s,
  String.length (PyText.slice_to n s) = (n `min` String.length s)%nat.
Proof.
  induction n as [|n IH]; intros [|c s]; simpl; try done. by rewrite IH.
Qed.

Lemma slice_to_app : ∀ n a b,
  String.length a = n → PyText.slice_to n (a +:+ b) = a.
Proof.
  induction n as [|n IH]; intros [|c a] b; simpl; try done.
  intros [= H]. rewrite ?append_cons. simpl. by rewrite IH.
Qed.

Lemma slice_to_idemp n s :
  PyText.slice_to n (PyText.slice_to n s) = PyText.slice_to n s.
Proof.
  revert s. induction n as [|n IH]; intros [|c s]; simpl; try done.
  by rewrite IH.
Qed.

Lemma slice_to_all : ∀ n s,
  (String.length s ≤ n)%nat → PyText.slice_to n s = s.
Proof.
  induction n as [|n IH]; intros [|c s]; simpl; try done; [lia|].
  intros H. rewrite IH; [done|lia].
Qed.

Lemma preview_spec text :
  let p := preview text in
  (String.length p ≤ 503)%nat
  ∧ ((String.length text ≤ 500)%nat → p = text)
  ∧ ((500 < String.length text)%nat →
     p = PyText.slice_to 500 text +:+ "..."
     ∧ String.length p = 503%nat)
  ∧ PyText.slice_to 500 p = PyText.slice_to 500 text.
Proof.
  unfold preview.
  destruct (Nat.ltb_spec 500 (String.length text)) as [H|H].
  - assert (String.length (PyText.slice_to 500 text) = 500%nat) as Hl.
    { rewrite length_slice_to. lia. }
    assert (String.length "..." = 3%nat) as H3 by reflexivity.
    split; [rewrite length_app, Hl, H3; lia|].
    split; [intros; lia|].
    split; [intros _; split; [done|rewrite length_app, Hl, H3; lia]|].
    by apply slice_to_app.
  - split; [lia|]. split; [done|]. split; [intros; lia|done].
Qed.

End OutputFacts.

(** ** The loop of the continuous runner *)

Module RunnerFacts.
Import ContinuousRunner.

Lemma started_cons a l :
  started (a :: l)
  = match a with PrintRun n => n :: started l | _ => started l end.
Proof. by destruct a. Qed.

Lemma sleeps_cons a l :
  sleeps (a :: l)
  = match a with Sleep s => s :: sleeps l | _ => sleeps l end.
Proof. by destruct a. Qed.

Lemma started_loop : ∀ turns n,
  ∃ k : nat,
    (k ≤ length turns)%nat
    ∧ started (loop n turns) = seqZ (n + 1) (Z.of_nat k)
    ∧ (turns ≠ [] → (1 ≤ k)%nat)
    ∧ (Forall uninterrupted turns → k = length turns).
Proof.
  induction turns as [|turn turns IH]; intros n.
  - exists 0%nat. simpl. split; [done|]. split; [done|]. split; done.
  - destruct (IH (n + 1)) as (k & Hk & Hs & _ & Hall).
    assert (Hfull :
      started ([PrintRun (n + 1); RunBatch 15 (inject_Z 1) true true]
               ++ [PrintNextRun (delay_minutes turn);
                   Sleep (delay_minutes turn * 60)]
               ++ loop (n + 1) turns)
      = seqZ (n + 1) (Z.of_nat (S k))).
    { cbn [app]. rewrite !started_cons, Hs.
      rewrite (seqZ_cons (n + 1)) by lia. do 2 f_equal; lia. }
    assert (Hfull' : ∀ e,
      started ([PrintRun (n + 1); RunBatch 15 (inject_Z 1) true true]
               ++ PrintFailed (n + 1) e
                  :: [PrintNextRun (delay_minutes turn);
                      Sleep (delay_minutes turn * 60)]
               ++ loop (n + 1) turns)
      = seqZ (n + 1) (Z.of_nat (S k))).
    { intros e. cbn [app]. rewrite !started_cons, Hs.
      rewrite (seqZ_cons (n + 1)) by lia. do 2 f_equal; lia. }
    assert (Hone : seqZ (n + 1) (Z.of_nat 1) = [n + 1]) by reflexivity.
    cbn [loop].
    destruct (batch turn) eqn:Eb, (sleep_cancelled turn) eqn:Es.
    all: try (exists 1%nat; split; [simpl; lia|]; split; [exact Hone|];
              split; [done|];
              intros [[Hb Hc] _]%Forall_cons; congruence).
    + exists (S k). split; [simpl; lia|]. split; [exact Hfull|].
      split; [lia|]. intros [_ H]%Forall_cons. by rewrite Hall.
    + exists (S k). split; [simpl; lia|]. split; [apply Hfull'|].
      split; [lia|]. intros [_ H]%Forall_cons. by rewrite Hall.
Qed.

Lemma sleeps_loop : ∀ turns n,
  Forall (λ s, ∃ turn, turn ∈ turns ∧ s = delay_minutes turn * 60)
         (sleeps (loop n turns))
  ∧ (Forall uninterrupted turns →
     sleeps (loop n turns) = (λ turn, delay_minutes turn * 60) <$> turns).
Proof.
  induction turns as [|turn turns IH]; intros n.
  - split; [constructor|done].
  - destruct (IH (n + 1)) as [Hin Hall].
    assert (Hin' : Forall
              (λ s, ∃ t, t ∈ turn :: turns ∧ s = delay_minutes t * 60)
              (sleeps (loop (n + 1) turns))).
    { eapply Forall_impl; [exact Hin|].
      intros s (t & Ht & ->). exists t. split; [by right|done]. }
    assert (Hhere : ∃ t, t ∈ turn :: turns
                         ∧ delay_minutes turn * 60 = delay_minutes t * 60).
    { exists turn. split; [left|done]. }
    cbn [loop].
    destruct (batch turn) eqn:Eb, (sleep_cancelled turn) eqn:Es;
      cbn [app]; rewrite !sleeps_cons.
    all: split;
      [repeat (first [apply Forall_nil_2 | apply Forall_cons_2]); try done|].
    all: intros [[Hb Hc] H]%Forall_cons; try congruence.
    all: by rewrite Hall.
Qed.

End RunnerFacts.

(* ===================================================================== *)
(** * Further properties of the sources                                   *)
(* ===================================================================== *)

Import FraudChainFacts ScoreFacts TelemetryFacts ClientFacts OutputFacts
       RunnerFacts.

(** Without a digit no pattern matches, and the keywords decide. *)
Lemma digit_free_parse (risk_analysis : string) :
  digit_free risk_analysis = true →
  RiskAnalyserAgentExecutor.scan_patterns
    RiskAnalyserAgentExecutor.patterns (Py.lower risk_analysis) = Return None
  ∧ RiskAnalyserAgentExecutor.parse_risk_score risk_analysis
    = Return (RiskAnalyserAgentExecutor.fallback_score
                (Py.lower risk_analysis)).
Proof.
  intros Hfree.
  assert (RiskAnalyserAgentExecutor.scan_patterns
            RiskAnalyserAgentExecutor.patterns (Py.lower risk_analysis)
          = Return None) as Hscan.
  { apply scan_patterns_none. intros p Hp.
    apply digit_free_no_score; [done|]. by rewrite digit_free_lower. }
  split; [exact Hscan|].
  unfold RiskAnalyserAgentExecutor.parse_risk_score. by rewrite Hscan.
Qed.

(** X1: the identity of the transaction and the score travel unchanged:
    whatever the three agents do, every payload of the chain carries the
    transaction and customer ids of the request, and the final response
    carries the score and level of the risk response. *)
Theorem chain_keeps_identity
    (s1 s2 s3 : Executor.t) (request : AnalysisRequest.t)
    (c : CustomerDataResponse.t) (k : RiskAnalysisResponse.t)
    (f : FraudAlertResponse.t) :
  fraud_chain s1 s2 s3 request c k f →
  CustomerDataResponse.transaction_id c
  = AnalysisRequest.transaction_id request
  ∧ CustomerDataResponse.customer_id c = AnalysisRequest.customer_id request
  ∧ RiskAnalysisResponse.transaction_id k
    = AnalysisRequest.transaction_id request
  ∧ RiskAnalysisResponse.customer_id k = AnalysisRequest.customer_id request
  ∧ FraudAlertResponse.transaction_id f
    = AnalysisRequest.transaction_id request
  ∧ FraudAlertResponse.customer_id f = AnalysisRequest.customer_id request
  ∧ FraudAlertResponse.risk_score f = RiskAnalysisResponse.risk_score k
  ∧ FraudAlertResponse.risk_level f = RiskAnalysisResponse.risk_level k.
Proof.
  intros (H1 & H2 & H3).
  pose proof (customer_data_handle_cases s1 request) as C1.
  pose proof (risk_analyser_handle_cases s2 c) as C2.
  pose proof (fraud_alert_handle_cases s3 k) as C3.
  assert (CustomerDataResponse.transaction_id c
          = AnalysisRequest.transaction_id request
          ∧ CustomerDataResponse.customer_id c
            = AnalysisRequest.customer_id request) as [Ec1 Ec2].
  { destruct (run _ _); rewrite C1 in H1; injection H1 as <-; done. }
  assert (RiskAnalysisResponse.transaction_id k
          = CustomerDataResponse.transaction_id c
          ∧ RiskAnalysisResponse.customer_id k
            = CustomerDataResponse.customer_id c) as [Ek1 Ek2].
  { clear C1 C3. destruct (run _ _); [|destruct C2 as (? & _ & _ & C2)];
      rewrite C2 in H2; injection H2 as <-; done. }
  assert (FraudAlertResponse.transaction_id f
          = RiskAnalysisResponse.transaction_id k
          ∧ FraudAlertResponse.customer_id f
            = RiskAnalysisResponse.customer_id k
          ∧ FraudAlertResponse.risk_score f
            = RiskAnalysisResponse.risk_score k
          ∧ FraudAlertResponse.risk_level f
            = RiskAnalysisResponse.risk_level k) as (Ef1 & Ef2 & Ef3 & Ef4).
  { clear C1 C2. destruct (run _ _); rewrite C3 in H3; injection H3 as <-;
      done. }
  rewrite Ef1, Ef2, Ek1, Ek2, Ec1, Ec2. done.
Qed.

Lemma chain_keeps_identity_witness :
  ∃ f,
    calls (FraudAlertAgentExecutor.handle
             (FraudAlertAgentExecutor.init (replying ["No alert needed"]))
             (RiskAnalysisResponse.mk "TX1001" "CUST1001" "Error: timeout"
                0 "UNKNOWN" "INVESTIGATE" "ERROR" None (Some "USD") None))
    = [yield_output f]
    ∧ FraudAlertResponse.transaction_id f = "TX1001"
    ∧ FraudAlertResponse.risk_level f = "UNKNOWN".
Proof.
  eexists. split; [reflexivity|].
  pose proof (chain_keeps_identity
    (CustomerDataAgentExecutor.init (replying ["profile"]))
    (RiskAnalyserAgentExecutor.init (failing "timeout"))
    (FraudAlertAgentExecutor.init (replying ["No alert needed"]))
    (AnalysisRequest.mk "TX1001" "CUST1001" None (Some "USD"))
    _ _ _ (conj eq_refl (conj eq_refl eq_refl))) as H.
  split; [exact (proj1 (proj2 (proj2 (proj2 (proj2 H)))))|].
  exact (proj2 (proj2 (proj2 (proj2 (proj2 (proj2 (proj2 H))))))).
Defined.

(** X2: each status reports its own stage only.  A payload is marked
    "ERROR" exactly when the agent of the stage that built it raised, and
    "SUCCESS" exactly when that agent replied; a failure of an earlier stage
    does not show in the [workflow_status] of the final response. *)
Theorem chain_status_is_local
    (s1 s2 s3 : Executor.t) (request : AnalysisRequest.t)
    (c : CustomerDataResponse.t) (k : RiskAnalysisResponse.t)
    (f : FraudAlertResponse.t) :
  fraud_chain s1 s2 s3 request c k f →
  let p1 := CustomerDataAgentExecutor.prompt request in
  let p2 := RiskAnalyserAgentExecutor.prompt c in
  let p3 := FraudAlertAgentExecutor.prompt k in
  (CustomerDataResponse.status c = "ERROR" ↔ agent_raised s1 p1)
  ∧ (CustomerDataResponse.status c = "SUCCESS" ↔ agent_replied s1 p1)
  ∧ (RiskAnalysisResponse.status k = "ERROR" ↔ agent_raised s2 p2)
  ∧ (RiskAnalysisResponse.status k = "SUCCESS" ↔ agent_replied s2 p2)
  ∧ (FraudAlertResponse.workflow_status f = "ERROR" ↔ agent_raised s3 p3)
  ∧ (FraudAlertResponse.workflow_status f = "SUCCESS"
     ↔ agent_replied s3 p3).
Proof.
  intros (H1 & H2 & H3) p1 p2 p3. subst p1 p2 p3.
  unfold agent_raised, agent_replied.
  pose proof (customer_data_handle_cases s1 request) as C1.
  pose proof (risk_analyser_handle_cases s2 c) as C2.
  pose proof (fraud_alert_handle_cases s3 k) as C3.
  assert (∀ (r : AgentRunResponse) (st : string),
    match r with
    | AgentRaises _ => st = "ERROR"
    | AgentResponse _ => st = "SUCCESS"
    end →
    (st = "ERROR" ↔ ∃ e, r = AgentRaises e)
    ∧ (st = "SUCCESS" ↔ ∃ messages, r = AgentResponse messages)) as Hst.
  { intros [e|messages] st ->; split; split; try done.
    - intros _. by exists e.
    - intros [? [=]].
    - intros [? [=]].
    - intros _. by exists messages. }
  split; [|split; [|split; [|split]]].
  1,2: apply Hst; clear C2 C3; destruct (run _ _); rewrite C1 in H1;
    by injection H1 as <-.
  1,2: apply Hst; clear C1 C3; destruct (run _ _);
    [|destruct C2 as (? & _ & _ & C2)]; rewrite C2 in H2;
    by injection H2 as <-.
  apply Hst; clear C1 C2; destruct (run _ _); rewrite C3 in H3;
    by injection H3 as <-.
Qed.

Lemma chain_status_is_local_witness :
  ∃ c f,
    calls (CustomerDataAgentExecutor.handle
             (CustomerDataAgentExecutor.init (failing "timeout"))
             (AnalysisRequest.mk "TX1001" "CUST1001" None (Some "USD")))
    = [send_message c]
    ∧ CustomerDataResponse.status c = "ERROR"
    ∧ (FraudAlertResponse.workflow_status f = "SUCCESS"
       ↔ agent_replied
           (FraudAlertAgentExecutor.init (replying ["Alert created"]))
           (FraudAlertAgentExecutor.prompt
              (RiskAnalysisResponse.mk "TX1001" "CUST1001" "Risk Score: 82"
                 82 "HIGH" "BLOCK" "SUCCESS" None (Some "USD")
                 (Some (RiskAnalyserAgentExecutor.confidence_of 82))))).
Proof.
  eexists. eexists. split; [reflexivity|]. split; [reflexivity|].
  exact (proj2 (proj2 (proj2 (proj2 (proj2
    (chain_status_is_local
       (CustomerDataAgentExecutor.init (failing "timeout"))
       (RiskAnalyserAgentExecutor.init (replying ["Risk Score: 82"]))
       (FraudAlertAgentExecutor.init (replying ["Alert created"]))
       (AnalysisRequest.mk "TX1001" "CUST1001" None (Some "USD"))
       _ _ _ (conj eq_refl (conj eq_refl eq_refl)))))))).
Defined.

(** X3: the amount and the currency of the request reach the alert stage
    only if the first two agents both replied.  If either raised, the risk
    response has no amount and the currency "USD", whatever the request
    said. *)
Theorem chain_amount
    (s1 s2 s3 : Executor.t) (request : AnalysisRequest.t)
    (c : CustomerDataResponse.t) (k : RiskAnalysisResponse.t)
    (f : FraudAlertResponse.t) :
  fraud_chain s1 s2 s3 request c k f →
  let p1 := CustomerDataAgentExecutor.prompt request in
  let p2 := RiskAnalyserAgentExecutor.prompt c in
  (agent_replied s1 p1 ∧ agent_replied s2 p2 →
   RiskAnalysisResponse.amount k = AnalysisRequest.amount request
   ∧ RiskAnalysisResponse.currency k = AnalysisRequest.currency request)
  ∧ (agent_raised s1 p1 ∨ agent_raised s2 p2 →
     RiskAnalysisResponse.amount k = None
     ∧ RiskAnalysisResponse.currency k = Some "USD").
Proof.
  intros (H1 & H2 & _) p1 p2. subst p1 p2.
  unfold agent_raised, agent_replied.
  pose proof (customer_data_handle_cases s1 request) as C1.
  pose proof (risk_analyser_handle_cases s2 c) as C2.
  destruct (run (Executor.agent s1) _) as [e1|m1]; rewrite C1 in H1;
    injection H1 as <-; clear C1;
    (destruct (run (Executor.agent s2) _) as [e2|m2];
     [|destruct C2 as (? & _ & _ & C2)]; rewrite C2 in H2;
     injection H2 as <-; clear C2); simpl.
  all: split; [intros [[? E1] [? E2]]|intros [[? E1]|[? E2]]].
  all: try discriminate E1; try discriminate E2; done.
Qed.

Lemma chain_amount_witness :
  ∃ k,
    calls (RiskAnalyserAgentExecutor.handle
             (RiskAnalyserAgentExecutor.init (replying ["Risk Score: 82"]))
             (CustomerDataResponse.mk "CUST1005" "TX1005" "Error: timeout"
                "ERROR" None (Some "USD")))
    = [send_message k]
    ∧ RiskAnalysisResponse.amount k = None.
Proof.
  eexists. split; [reflexivity|].
  refine (proj1 (proj2
    (chain_amount
       (CustomerDataAgentExecutor.init (failing "timeout"))
       (RiskAnalyserAgentExecutor.init (replying ["Risk Score: 82"]))
       (FraudAlertAgentExecutor.init (replying ["Alert created"]))
       (AnalysisRequest.mk "TX1005" "CUST1005" (Some (inject_Z 15000))
          (Some "EUR"))
       _ _ _ (conj eq_refl (conj eq_refl eq_refl))) _)).
  left. exists "timeout". reflexivity.
Defined.

(** X4: when the risk agent raises, the chain goes on with the score 0, the
    level "UNKNOWN" and the recommendation "INVESTIGATE": the final
    response carries that score and level, the severity is "LOW", and an
    alert is reported only if the alert agent replies with a text that
    contains "alert created" (case ignored). *)
Theorem failed_risk_analysis_downstream
    (s1 s2 s3 : Executor.t) (request : AnalysisRequest.t)
    (c : CustomerDataResponse.t) (k : RiskAnalysisResponse.t)
    (f : FraudAlertResponse.t) :
  fraud_chain s1 s2 s3 request c k f →
  agent_raised s2 (RiskAnalyserAgentExecutor.prompt c) →
  RiskAnalysisResponse.risk_score k = 0
  ∧ RiskAnalysisResponse.risk_level k = "UNKNOWN"
  ∧ RiskAnalysisResponse.recommendation k = "INVESTIGATE"
  ∧ RiskAnalysisResponse.model_confidence k = None
  ∧ FraudAlertAgentExecutor.severity_of (RiskAnalysisResponse.risk_score k)
    = "LOW"
  ∧ FraudAlertResponse.risk_score f = 0
  ∧ FraudAlertResponse.risk_level f = "UNKNOWN"
  ∧ (FraudAlertResponse.alert_created f = true
     ↔ ∃ messages,
         run (Executor.agent s3)
             [mkChatMessage "user" (FraudAlertAgentExecutor.prompt k)]
         = AgentResponse messages
         ∧ contains_ci "alert created" (last_text_or_no_response messages)).
Proof.
  intros (H1 & H2 & H3) [e He].
  pose proof (risk_analyser_handle_cases s2 c) as C2.
  pose proof (fraud_alert_handle_cases s3 k) as C3.
  rewrite He in C2. rewrite C2 in H2. injection H2 as <-.
  split; [done|]. split; [done|]. split; [done|]. split; [done|].
  split; [done|].
  destruct (run (Executor.agent s3) _) as [e3|messages]; rewrite C3 in H3;
    injection H3 as <-; simpl.
  - split; [done|]. split; [done|].
    split; [done|]. by intros (? & [=] & _).
  - split; [done|]. split; [done|].
    rewrite alert_created_of_spec. split.
    + intros [H|H]; [|lia]. by exists messages.
    + intros (? & [= <-] & H). by left.
Qed.

Lemma failed_risk_analysis_downstream_witness :
  ∃ f,
    calls (FraudAlertAgentExecutor.handle
             (FraudAlertAgentExecutor.init (replying ["No alert needed"]))
             (RiskAnalysisResponse.mk "TX1001" "CUST1001" "Error: timeout"
                0 "UNKNOWN" "INVESTIGATE" "ERROR" None (Some "USD") None))
    = [yield_output f]
    ∧ FraudAlertResponse.risk_score f = 0.
Proof.
  eexists. split; [reflexivity|].
  refine (proj1 (proj2 (proj2 (proj2 (proj2 (proj2
    (failed_risk_analysis_downstream
       (CustomerDataAgentExecutor.init (replying ["profile"]))
       (RiskAnalyserAgentExecutor.init (failing "timeout"))
       (FraudAlertAgentExecutor.init (replying ["No alert needed"]))
       (AnalysisRequest.mk "TX1001" "CUST1001" None (Some "USD"))
       _ _ _ (conj eq_refl (conj eq_refl eq_refl)) _))))))).
  exists "timeout". reflexivity.
Defined.

(** X5: a risk agent that returns no message is read as "No response": the
    stage sends the default score 50 with level "MEDIUM", recommendation
    "INVESTIGATE" and status "SUCCESS", and the alert stage then reports an
    alert as soon as its agent replies. *)
Theorem no_message_is_medium_risk
    (self : Executor.t) (customer_response : CustomerDataResponse.t) :
  run (Executor.agent self)
      [mkChatMessage "user"
         (RiskAnalyserAgentExecutor.prompt customer_response)]
  = AgentResponse [] →
  ∃ k,
    RiskAnalyserAgentExecutor.handle self customer_response
    = ([send_message k], Return tt)
    ∧ RiskAnalysisResponse.risk_analysis k = "No response"
    ∧ RiskAnalysisResponse.risk_score k = 50
    ∧ RiskAnalysisResponse.risk_level k = "MEDIUM"
    ∧ RiskAnalysisResponse.recommendation k = "INVESTIGATE"
    ∧ RiskAnalysisResponse.status k = "SUCCESS"
    ∧ ∀ reply,
        FraudAlertAgentExecutor.alert_created_of reply
          (RiskAnalysisResponse.risk_score k) = true.
Proof.
  intros Hrun.
  pose proof (risk_analyser_handle_cases self customer_response) as C.
  rewrite Hrun in C. destruct C as (score & Hparse & _ & ->).
  assert (score = 50) as ->.
  { change (last_text_or_no_response []) with "No response" in Hparse.
    assert (RiskAnalyserAgentExecutor.parse_risk_score "No response"
            = Return 50) as E by (vm_compute; reflexivity).
    congruence. }
  eexists. split; [reflexivity|]. simpl.
  split; [done|]. split; [done|]. split; [done|]. split; [done|].
  split; [done|]. intros reply.
  unfold FraudAlertAgentExecutor.alert_created_of. apply orb_true_r.
Qed.

Lemma no_message_is_medium_risk_witness :
  ∃ k,
    RiskAnalyserAgentExecutor.handle
      (RiskAnalyserAgentExecutor.init (replying []))
      (CustomerDataResponse.mk "CUST1001" "TX1001" "profile" "SUCCESS"
         None (Some "USD"))
    = ([send_message k], Return tt)
    ∧ RiskAnalysisResponse.risk_score k = 50.
Proof.
  destruct (no_message_is_medium_risk
              (RiskAnalyserAgentExecutor.init (replying []))
              (CustomerDataResponse.mk "CUST1001" "TX1001" "profile"
                 "SUCCESS" None (Some "USD")) eq_refl)
    as (k & Hk & _ & Hs & _).
  exists k. split; [exact Hk|exact Hs].
Defined.

(** X6: the thresholds of the two stages agree only in part.  The
    recommendation is "BLOCK" exactly when the severity is "CRITICAL" or
    "HIGH"; every score that is not "ALLOW"ed gives an alert whatever the
    alert agent says; but the scores 40 to 49 are "MEDIUM" risk with
    severity "LOW"; and below 40 an alert is reported only when the reply
    contains "alert created". *)
Theorem thresholds_across_stages (score : Z) (reply : string) :
  let level := RiskAnalyserAgentExecutor.level_of score in
  let recommendation := RiskAnalyserAgentExecutor.recommendation_of level in
  let severity := FraudAlertAgentExecutor.severity_of score in
  let alert_created :=
    FraudAlertAgentExecutor.alert_created_of reply score in
  (recommendation = "BLOCK" ↔ severity = "CRITICAL" ∨ severity = "HIGH")
  ∧ (recommendation ≠ "ALLOW" ↔ 40 <= score)
  ∧ (40 <= score → alert_created = true)
  ∧ (40 <= score < 50 → level = "MEDIUM" ∧ severity = "LOW")
  ∧ (score < 40 →
     severity = "LOW"
     ∧ (alert_created = true ↔ contains_ci "alert created" reply)).
Proof.
  intros level recommendation severity alert_created.
  subst level recommendation severity alert_created.
  destruct (severity_of_spec score) as (Hc & Hh & Hm & Hl).
  destruct (level_of_spec score) as (Lh & Lm & Ll).
  destruct (recommendation_of_level score) as (Rb & Ri & Ra).
  simpl in *.
  rewrite alert_created_of_spec.
  split; [|split; [|split; [|split]]].
  - rewrite Rb, Lh, Hc, Hh. lia.
  - rewrite Ra, Ll. lia.
  - intros ?. by right.
  - intros ?. rewrite Lm, Hl. lia.
  - intros ?. rewrite Hl. split; [lia|]. split; [|by left].
    intros [?|?]; [done|lia].
Qed.

(** X7: every format named in the comments of the pattern list is read back:
    around one to three digits [d] whose value [n] is at most 100, each of
    "Risk Score: d", "Risk Score: d/100", "Score: d/100", "d out of 100",
    "d/100", "**Risk: d**", "Overall Risk: d" and "Assessment: d" is scored
    [n]. *)
Theorem documented_formats_read (d : string) (n : Z) (t : string) :
  Py.int d = Some n → (String.length d ≤ 3)%nat → n <= 100 →
  t ∈ documented_formats d →
  RiskAnalyserAgentExecutor.parse_risk_score t = Return n.
Proof.
  intros Hint Hlen Hn Ht.
  destruct (int_Some d n Hint) as (_ & Hall & _).
  pose proof (reads_documented_digits d Hall Hlen) as H.
  unfold reads_documented in H. rewrite Hint in H.
  destruct (Z.leb_spec n 100); [|lia].
  rewrite forallb_forall in H.
  apply list_elem_of_In in Ht. specialize (H t Ht).
  destruct (RiskAnalyserAgentExecutor.parse_risk_score t) as [m|]; [|done].
  apply Z.eqb_eq in H. by subst.
Qed.

Lemma documented_formats_read_witness :
  RiskAnalyserAgentExecutor.parse_risk_score "075 out of 100" = Return 75.
Proof.
  apply (documented_formats_read "075" 75);
    [reflexivity|simpl; lia|lia|].
  unfold documented_formats. set_solver.
Defined.

(** X8: a reply that opens with "Risk Score: " (in any letter case) and one
    to three digits of value [n] at most 100 is scored [n] whatever comes
    after, provided the digits are three or are not followed by a further
    digit.  So "Risk Score: 0.85" is scored 0 and "Risk Score: 1000" is
    scored 100. *)
Theorem risk_score_prefix_decides (opening d tail : string) (n : Z) :
  Py.lower opening = "risk score: " →
  Py.int d = Some n → (String.length d ≤ 3)%nat → n <= 100 →
  (String.length d = 3%nat ∨ next_is_digit tail = false) →
  RiskAnalyserAgentExecutor.parse_risk_score (opening +:+ d +:+ tail)
  = Return n.
Proof.
  intros Hopen Hint Hlen Hn Hstop.
  destruct (int_Some d n Hint) as (Hne & Hall & Hval).
  unfold RiskAnalyserAgentExecutor.parse_risk_score.
  rewrite !lower_app, Hopen, (lower_digits d Hall).
  unfold RiskAnalyserAgentExecutor.patterns.
  erewrite scan_patterns_hit; [reflexivity| | |].
  - apply risk_score_pattern_reads; [done..|].
    destruct Hstop as [? | Hstop]; [by left|right].
    by rewrite next_is_digit_lower.
  - unfold RiskAnalyserAgentExecutor.int_group1, Re.group.
    rewrite lookup_insert_eq, Hint. reflexivity.
  - split; [|done]. subst n. by apply int_digits_nonneg.
Qed.

Lemma risk_score_prefix_decides_witness :
  RiskAnalyserAgentExecutor.parse_risk_score "Risk Score: 0.85 (high)"
  = Return 0
  ∧ RiskAnalyserAgentExecutor.parse_risk_score "RISK SCORE: 1000"
    = Return 100.
Proof.
  split.
  - apply (risk_score_prefix_decides "Risk Score: " "0" ".85 (high)" 0);
      [reflexivity|reflexivity|simpl; lia|lia|right; reflexivity].
  - apply (risk_score_prefix_decides "RISK SCORE: " "100" "0" 100);
      [reflexivity|reflexivity|simpl; lia|lia|left; reflexivity].
Defined.

(** X9: a reply without any digit is never scored by a pattern: its score is
    the keyword fallback, 85, 55, 25 or 50. *)
Theorem digit_free_reply_scored_by_keywords (risk_analysis : string) :
  digit_free risk_analysis = true →
  (∀ p, p ∈ RiskAnalyserAgentExecutor.patterns →
        Re.search p (Py.lower risk_analysis) = None)
  ∧ RiskAnalyserAgentExecutor.parse_risk_score risk_analysis
    = Return (RiskAnalyserAgentExecutor.fallback_score
                (Py.lower risk_analysis))
  ∧ RiskAnalyserAgentExecutor.fallback_score (Py.lower risk_analysis)
    ∈ [85; 55; 25; 50].
Proof.
  intros Hfree. split; [|split].
  - intros p Hp. apply digit_free_no_score; [done|].
    by rewrite digit_free_lower.
  - by apply digit_free_parse.
  - apply fallback_score_values.
Qed.

Lemma digit_free_reply_scored_by_keywords_witness :
  RiskAnalyserAgentExecutor.parse_risk_score "Moderate concerns only"
  = Return 55.
Proof.
  apply (digit_free_reply_scored_by_keywords "Moderate concerns only").
  reflexivity.
Defined.

(** X10: in a reply without digits, "high", "critical" or "severe" (in any
    letter case) at the start of a word gives the score 85, whatever else
    the reply says: the keyword need not be a whole word, and a "low" or
    "medium" elsewhere is not looked at. *)
Theorem high_keyword_scores_85 (before keyword after : string) :
  digit_free (before +:+ keyword +:+ after) = true →
  Py.lower keyword ∈ ["high"; "critical"; "severe"] →
  Re.word_before (Py.last_char None (Py.lower before)) = false →
  RiskAnalyserAgentExecutor.parse_risk_score (before +:+ keyword +:+ after)
  = Return 85.
Proof.
  intros Hfree Hkw Hb.
  destruct (digit_free_parse _ Hfree) as [_ ->].
  f_equal. unfold RiskAnalyserAgentExecutor.fallback_score.
  rewrite !lower_app.
  assert (Re.found
            (Re.search RiskAnalyserAgentExecutor.high_pattern
               (Py.lower before +:+ Py.lower keyword +:+ Py.lower after))
          = true) as ->; [|reflexivity].
  apply found_search_from.
  apply level_pattern_matches.
  - rewrite Hb.
    rewrite !elem_of_cons, elem_of_nil in Hkw.
    destruct Hkw as [-> | [-> | [-> | []]]]; reflexivity.
  - rewrite !elem_of_cons, elem_of_nil in Hkw.
    destruct Hkw as [-> | [-> | [-> | []]]]; simpl;
      rewrite ?append_cons; simpl; rewrite ?strip_prefix_app; simpl; try done.
Qed.

Lemma high_keyword_scores_85_witness :
  RiskAnalyserAgentExecutor.parse_risk_score
    "Low risk overall; fraud is highly unlikely"
  = Return 85.
Proof.
  apply (high_keyword_scores_85 "Low risk overall; fraud is " "high"
           "ly unlikely");
    [reflexivity|set_solver|reflexivity].
Defined.

(** X11: the risk stage records customer friction by the score it sends:
    nothing below 40, "step_up_auth" without decline from 40 to 74,
    "transaction_blocked" with decline from 75 on; it records the score and
    the model prediction before that, and records nothing at all when its
    agent raised. *)
Theorem friction_recorded_by_score
    (self : Executor.t) (customer_response : CustomerDataResponse.t) :
  let tid := CustomerDataResponse.transaction_id customer_response in
  let cid := CustomerDataResponse.customer_id customer_response in
  ∃ k,
    calls (RiskAnalyserAgentExecutor.handle self customer_response)
    = [send_message k]
    ∧ Telemetry.risk_analyser_handle self customer_response
      = match run (Executor.agent self)
                  [mkChatMessage "user"
                     (RiskAnalyserAgentExecutor.prompt customer_response)]
        with
        | AgentRaises _ => []
        | AgentResponse _ =>
            let score := RiskAnalysisResponse.risk_score k in
            [Telemetry.record_risk_score score tid
               (RiskAnalysisResponse.recommendation k);
             Telemetry.record_model_prediction tid "v2.3.1"
               (RiskAnalyserAgentExecutor.confidence_of score)
               (RiskAnalysisResponse.risk_level k)
               ["general_risk_assessment"]]
            ++ (if 75 <=? score then
                  [Telemetry.record_customer_friction cid tid
                     "transaction_blocked" true]
                else if 40 <=? score then
                  [Telemetry.record_customer_friction cid tid
                     "step_up_auth" false]
                else [])
        end.
Proof.
  intros tid cid. subst tid cid.
  pose proof (risk_analyser_handle_cases self customer_response) as C.
  unfold Telemetry.risk_analyser_handle.
  destruct (run _ _) as [e|messages].
  - rewrite C. eexists. split; reflexivity.
  - destruct C as (score & Hparse & _ & ->). rewrite Hparse.
    eexists. split; [reflexivity|]. simpl.
    unfold RiskAnalyserAgentExecutor.level_of.
    destruct (75 <=? score); [reflexivity|].
    destruct (40 <=? score); reflexivity.
Qed.

(** X12: what the alert stage records once its agent replied.  Nothing is
    recorded unless an alert is reported; the alert comes first; a
    prevented fraud is recorded exactly for a "BLOCK" with an amount other
    than zero; a suspicious-activity report is filed exactly when the score
    is at least 75 or the amount at least 10000, and its flag tells whether
    the amount was. *)
Theorem alert_stage_records
    (ambient : Telemetry.Ambient) (self : Executor.t)
    (k : RiskAnalysisResponse.t) (messages : list ChatMessage) :
  run (Executor.agent self)
      [mkChatMessage "user" (FraudAlertAgentExecutor.prompt k)]
  = AgentResponse messages →
  let score := RiskAnalysisResponse.risk_score k in
  let amount := RiskAnalysisResponse.amount k in
  let created :=
    contains_ci "alert created" (last_text_or_no_response messages)
    ∨ 40 <= score in
  let large := ∃ a, amount = Some a ∧ (inject_Z 10000 <= a)%Q in
  let recorded := Telemetry.fraud_alert_handle ambient self k in
  (¬ created → recorded = [])
  ∧ (created →
     head recorded
     = Some (Telemetry.record_fraud_alert_created
               ("ALERT-" +:+ RiskAnalysisResponse.transaction_id k)
               (FraudAlertAgentExecutor.severity_of score)
               (RiskAnalysisResponse.recommendation k)
               (RiskAnalysisResponse.transaction_id k))
     ∧ length (filter (λ c, Telemetry.is_alert c = true) recorded) = 1%nat)
  ∧ ((∃ c, c ∈ recorded ∧ Telemetry.is_prevented c = true)
     ↔ created ∧ RiskAnalysisResponse.recommendation k = "BLOCK"
       ∧ ∃ a, amount = Some a ∧ ¬ (a == 0)%Q)
  ∧ ((∃ c, c ∈ recorded ∧ Telemetry.is_sar c = true)
     ↔ created ∧ (75 <= score ∨ large))
  ∧ (∀ tid sar_id deadline exceeded cid,
       Telemetry.record_sar_filed tid sar_id deadline exceeded cid
       ∈ recorded →
       (exceeded = true ↔ large)
       ∧ sar_id = Telemetry.sar_id_of ambient
       ∧ deadline = Telemetry.in_30_days ambient).
Proof.
  intros Hrun score amount created large recorded.
  subst recorded. rewrite (fraud_alert_handle_replied _ _ _ _ Hrun).
  fold score amount.
  assert (Hc : FraudAlertAgentExecutor.alert_created_of
                 (last_text_or_no_response messages) score = true
               ↔ created) by apply alert_created_of_spec.
  assert (Hl : Telemetry.amount_threshold amount = true ↔ large)
    by apply amount_threshold_spec.
  pose proof (truthy_spec amount) as Ht.
  pose proof (high_severity_spec score) as Hs.
  destruct (FraudAlertAgentExecutor.alert_created_of _ _).
  2: { assert (¬ created) as Hn by (intros H; apply Hc in H; done).
       split; [done|]. split; [done|].
       split; [split; [by intros (? & ?%elem_of_nil & _)|tauto]|].
       split; [split; [by intros (? & ?%elem_of_nil & _)|tauto]|].
       by intros ????? ?%elem_of_nil. }
  assert created as Hcr by (by apply Hc).
  split; [done|]. split; [intros _; split; [reflexivity|]|].
  { destruct (_ && _), (_ || _ || _); reflexivity. }
  assert (Hb : String.eqb (RiskAnalysisResponse.recommendation k) "BLOCK"
               = true
               ↔ RiskAnalysisResponse.recommendation k = "BLOCK")
    by apply String.eqb_eq.
  split; [|split].
  - destruct (String.eqb _ "BLOCK"), (PyText.truthy amount); simpl.
    + split; [intros _; naive_solver|]. intros _.
      eexists (Telemetry.record_fraud_prevented _ _ _ _ _).
      split; [|reflexivity]. right. left.
    + split; [|naive_solver]. intros (c & Hin & Hp).
      destruct (_ || _ || _); set_unfold; naive_solver.
    + split; [|naive_solver]. intros (c & Hin & Hp).
      destruct (_ || _ || _); set_unfold; naive_solver.
    + split; [|naive_solver]. intros (c & Hin & Hp).
      destruct (_ || _ || _); set_unfold; naive_solver.
  - rewrite <- Hs, <- Hl, <- orb_true_iff.
    destruct (_ || _ || _) eqn:E.
    + split; [intros _; split; done|].
      intros _. eexists (Telemetry.record_sar_filed _ _ _ _ _).
      split; [|reflexivity].
      destruct (_ && _); simpl; [right; right; left|right; left].
    + split; [|intros [_ H]; discriminate H].
      intros (c & Hin & Hp). destruct (_ && _); set_unfold; naive_solver.
  - intros tid sar_id deadline exceeded cid Hin.
    rewrite <- Hl.
    destruct (_ && _), (_ || _ || _); set_unfold; naive_solver.
Qed.

Lemma alert_stage_records_witness :
  ∃ call,
    call ∈ Telemetry.fraud_alert_handle
             (Telemetry.mkAmbient "2026" "0123456789abcdef" "2026-12-04")
             (FraudAlertAgentExecutor.init (replying ["No action"]))
             (RiskAnalysisResponse.mk "TX1005" "CUST1005" "Risk Score: 45"
                45 "MEDIUM" "INVESTIGATE" "SUCCESS"
                (Some (inject_Z 15000)) (Some "USD")
                (Some (RiskAnalyserAgentExecutor.confidence_of 45)))
    ∧ Telemetry.is_sar call = true.
Proof.
  apply (alert_stage_records
           (Telemetry.mkAmbient "2026" "0123456789abcdef" "2026-12-04")
           (FraudAlertAgentExecutor.init (replying ["No action"]))
           (RiskAnalysisResponse.mk "TX1005" "CUST1005" "Risk Score: 45"
              45 "MEDIUM" "INVESTIGATE" "SUCCESS"
              (Some (inject_Z 15000)) (Some "USD")
              (Some (RiskAnalyserAgentExecutor.confidence_of 45)))
           [mkChatMessage "assistant" "No action"] eq_refl).
  simpl. split; [right; lia|]. right. eexists. split; [reflexivity|].
  by vm_compute.
Defined.

(** X13: a failure of either of the first two agents hides the amount from
    the alert stage: it then never records a prevented fraud, not even for
    a "BLOCK", and files a report on the score alone, with the amount flag
    off. *)
Theorem upstream_failure_hides_amount
    (ambient : Telemetry.Ambient) (s1 s2 s3 : Executor.t)
    (request : AnalysisRequest.t)
    (c : CustomerDataResponse.t) (k : RiskAnalysisResponse.t)
    (f : FraudAlertResponse.t) :
  fraud_chain s1 s2 s3 request c k f →
  agent_raised s1 (CustomerDataAgentExecutor.prompt request)
  ∨ agent_raised s2 (RiskAnalyserAgentExecutor.prompt c) →
  let recorded := Telemetry.fraud_alert_handle ambient s3 k in
  (∀ call, call ∈ recorded → Telemetry.is_prevented call = false)
  ∧ (∀ tid sar_id deadline exceeded cid,
       Telemetry.record_sar_filed tid sar_id deadline exceeded cid
       ∈ recorded →
       exceeded = false ∧ 75 <= RiskAnalysisResponse.risk_score k).
Proof.
  intros Hchain Hraised recorded. subst recorded.
  destruct (amount_lost _ _ _ _ _ _ _ Hchain Hraised) as [Ha _].
  unfold Telemetry.fraud_alert_handle. rewrite Ha.
  change (PyText.truthy None) with false.
  change (Telemetry.amount_threshold None) with false.
  rewrite andb_false_r, orb_false_r.
  pose proof (high_severity_spec (RiskAnalysisResponse.risk_score k)) as Hs.
  destruct (run _ _) as [e|messages].
  { split; [by intros ? ?%elem_of_nil|by intros ????? ?%elem_of_nil]. }
  destruct (FraudAlertAgentExecutor.alert_created_of _ _).
  2: { split; [by intros ? ?%elem_of_nil|by intros ????? ?%elem_of_nil]. }
  destruct (_ || _); simpl.
  - split.
    + intros call. rewrite !elem_of_cons, elem_of_nil.
      intros [-> | [-> | []]]; reflexivity.
    + intros tid sar_id deadline exceeded cid.
      rewrite !elem_of_cons, elem_of_nil.
      intros [[=] | [[= -> -> -> -> ->] | []]]. split; [done|].
      by apply Hs.
  - split.
    + intros call. rewrite !elem_of_cons, elem_of_nil.
      intros [-> | []]; reflexivity.
    + intros tid sar_id deadline exceeded cid.
      rewrite !elem_of_cons, elem_of_nil. intros [[=] | []].
Qed.

Lemma upstream_failure_hides_amount_witness :
  Forall (λ call, Telemetry.is_prevented call = false)
    (Telemetry.fraud_alert_handle
       (Telemetry.mkAmbient "2026" "0123456789abcdef" "2026-12-04")
       (FraudAlertAgentExecutor.init (replying ["Alert created"]))
       (RiskAnalysisResponse.mk "TX1005" "CUST1005" "Risk Score: 82"
          82 "HIGH" "BLOCK" "SUCCESS" None (Some "USD")
          (Some (RiskAnalyserAgentExecutor.confidence_of 82)))).
Proof.
  apply Forall_forall.
  refine (proj1
    (upstream_failure_hides_amount
       (Telemetry.mkAmbient "2026" "0123456789abcdef" "2026-12-04")
       (CustomerDataAgentExecutor.init (failing "timeout"))
       (RiskAnalyserAgentExecutor.init (replying ["Risk Score: 82"]))
       (FraudAlertAgentExecutor.init (replying ["Alert created"]))
       (AnalysisRequest.mk "TX1005" "CUST1005" (Some (inject_Z 15000))
          (Some "EUR"))
       _ _ _ (conj eq_refl (conj eq_refl eq_refl)) _)).
  left. exists "timeout". reflexivity.
Defined.

(** X14: the endpoint of the shared client is fixed by the first call of
    [create_chat_client] that finds [AZURE_OPENAI_ENDPOINT] set.  Calls
    before that raise a [KeyError] and do not reach [OpenAIChatClient];
    every later call, whatever the variable holds by then and even if it
    is unset, hands [OpenAIChatClient] the client on that first endpoint,
    with the model id read anew at each call, "gpt-4" when
    [MODEL_DEPLOYMENT_NAME] is unset.  What the constructor then returns
    or raises is the library's. *)
Theorem shared_client_first_endpoint {ChatClient : Type}
    (OpenAIChatClient :
       gmap string string → Clients.AsyncAzureOpenAI → string
       → result ChatClient)
    (environs : list (gmap string string)) (i : nat)
    (environ : gmap string string) :
  environs !! i = Some environ →
  Clients.create_chat_clients OpenAIChatClient environs None !! i
  = Some
      match Clients.first_endpoint (take (S i) environs) with
      | Some endpoint =>
          OpenAIChatClient environ
            (Clients.mkAsyncAzureOpenAI endpoint
               "https://cognitiveservices.azure.com/.default" "2024-10-21")
            (default "gpt-4" (environ !! "MODEL_DEPLOYMENT_NAME"))
      | None => Raise "'AZURE_OPENAI_ENDPOINT'"
      end.
Proof.
  revert i. induction environs as [|env environs IH]; intros i; [done|].
  rewrite firstn_cons, first_endpoint_cons.
  destruct i as [|i]; simpl.
  - intros [= ->]. unfold Clients.create_chat_client, Clients.get_openai_client.
    destruct (environ !! "AZURE_OPENAI_ENDPOINT"); reflexivity.
  - intros Hi.
    unfold Clients.create_chat_client, Clients.get_openai_client.
    destruct (env !! "AZURE_OPENAI_ENDPOINT") as [endpoint|].
    + by apply create_chat_clients_cached.
    + by apply IH.
Qed.

Lemma shared_client_first_endpoint_witness :
  Clients.create_chat_clients
    (λ _ client model_id,
       match model_id with
       | EmptyString => Raise "model id required"
       | _ => Return (client, model_id)
       end)
    [∅; {["AZURE_OPENAI_ENDPOINT" := "https://a.example"]};
     {["AZURE_OPENAI_ENDPOINT" := "https://b.example";
       "MODEL_DEPLOYMENT_NAME" := "gpt-4o"]};
     {["MODEL_DEPLOYMENT_NAME" := ""]}] None !! 2%nat
  = Some
      (Return
         (Clients.mkAsyncAzureOpenAI "https://a.example"
            "https://cognitiveservices.azure.com/.default" "2024-10-21",
          "gpt-4o")).
Proof.
  exact (shared_client_first_endpoint
    (λ _ client model_id,
       match model_id with
       | EmptyString => Raise "model id required"
       | _ => Return (client, model_id)
       end)
    [∅; {["AZURE_OPENAI_ENDPOINT" := "https://a.example"]};
     {["AZURE_OPENAI_ENDPOINT" := "https://b.example";
       "MODEL_DEPLOYMENT_NAME" := "gpt-4o"]};
     {["MODEL_DEPLOYMENT_NAME" := ""]}] 2 _ eq_refl).
Defined.

(** X16: what the sequential handlers print.  Each prints nothing when its
    agent raises; its header alone when the reply holds no message (the
    handler then raises without a context call); otherwise the header and
    the text of the last message, cut to its first 500 characters followed
    by "..." when it is longer than that, so never more than 503
    characters.  The reply is printed exactly when the conversation is
    handed on. *)
Theorem sequential_handler_prints
    (self : Executor.t) (messages : list ChatMessage)
    (message : ChatMessage + list ChatMessage) :
  prints_reply (nl +:+ "ResearcherAgentV2 output:") (Executor.agent self)
    (match message with inr l => l | inl m => [m] end)
    (SequentialOutput.researcher_prints self message)
  ∧ prints_reply (nl +:+ "WriterAgentV2 output:") (Executor.agent self)
      messages (SequentialOutput.writer_prints self messages)
  ∧ prints_reply (nl +:+ "ReviewerAgentV2 output:") (Executor.agent self)
      messages (SequentialOutput.reviewer_prints self messages)
  ∧ (length (SequentialOutput.researcher_prints self message) = 2%nat
     ↔ ∃ conversation,
         calls (ResearcherAgentV2Executor.handle self message)
         = [send_message conversation])
  ∧ (length (SequentialOutput.writer_prints self messages) = 2%nat
     ↔ ∃ conversation,
         calls (WriterAgentV2Executor.handle self messages)
         = [send_message conversation])
  ∧ (length (SequentialOutput.reviewer_prints self messages) = 2%nat
     ↔ ∃ conversation,
         calls (ReviewerAgentV2Executor.handle self messages)
         = [yield_output conversation]).
Proof.
  assert (Hgen : ∀ T W (outcome : list ChatMessage → CtxCall T W)
                   (hd : string) ms (h : Handler T W unit),
    extends_conversation (Executor.agent self) ms outcome h →
    (length (SequentialOutput.prints hd (Executor.agent self) ms) = 2%nat
     ↔ ∃ conversation, calls h = [outcome conversation])).
  { intros T W outcome hd ms h Hext.
    unfold extends_conversation in Hext. unfold SequentialOutput.prints.
    destruct (run _ _) as [e|response].
    - subst h. simpl. split; [done|]. by intros [? [=]].
    - destruct response as [|m response].
      + subst h. simpl. split; [done|]. by intros [? [=]].
      + subst h.
        destruct (last (m :: response)) eqn:El.
        * simpl. split; [|done]. intros _. by eexists.
        * by apply last_None in El. }
  assert (Hprints : ∀ hd ms,
    prints_reply hd (Executor.agent self) ms
      (SequentialOutput.prints hd (Executor.agent self) ms)).
  { intros hd ms. unfold prints_reply, SequentialOutput.prints.
    destruct (run _ _) as [e|response]; [done|].
    destruct (last response) as [m|]; [|done].
    destruct (preview_spec (text m)) as (H1 & H2 & H3 & H4).
    exists (SequentialOutput.preview (text m)).
    split; [done|]. split; [done|]. split; [done|].
    split; [|done]. intros H. by apply H3. }
  split; [apply Hprints|]. split; [apply Hprints|]. split; [apply Hprints|].
  split; [apply Hgen, researcher_extends|].
  split; [apply Hgen, writer_extends|apply Hgen, reviewer_extends].
Qed.

(** X17: the runs of the continuous runner are numbered 1, 2, 3, ... without
    a gap, and an [Exception] of a batch never ends the loop: along turns
    that are not cancelled, one run is started per turn, whether or not its
    batch failed. *)
Theorem runs_numbered_from_one (turns : list ContinuousRunner.Turn) :
  ∃ k : nat,
    (k ≤ length turns)%nat
    ∧ ContinuousRunner.started (ContinuousRunner.main turns)
      = seqZ 1 (Z.of_nat k)
    ∧ (turns ≠ [] → (1 ≤ k)%nat)
    ∧ (Forall ContinuousRunner.uninterrupted turns → k = length turns).
Proof. apply (started_loop turns 0). Qed.

(** X18: after every batch, failed or not, the runner sleeps the minutes it
    drew times 60 seconds: with draws of [random.randint(1, 6)] that is
    between 60 and 360 seconds, a whole number of minutes, and so never the
    10 to 30 minutes the module's docstring announces. *)
Theorem runner_sleeps_one_to_six_minutes
    (turns : list ContinuousRunner.Turn) :
  Forall (λ turn, 1 <= ContinuousRunner.delay_minutes turn <= 6) turns →
  Forall (λ seconds, 60 <= seconds <= 360 ∧ seconds `mod` 60 = 0
                     ∧ seconds < 10 * 60)
         (ContinuousRunner.sleeps (ContinuousRunner.main turns))
  ∧ (Forall ContinuousRunner.uninterrupted turns →
     length (ContinuousRunner.sleeps (ContinuousRunner.main turns))
     = length turns).
Proof.
  intros Hdraws.
  destruct (sleeps_loop turns 0) as [Hin Hall]. split.
  - eapply Forall_impl; [exact Hin|].
    intros s (turn & Ht & ->).
    rewrite Forall_forall in Hdraws. specialize (Hdraws turn Ht).
    rewrite Z.mod_mul by lia. lia.
  - intros H. unfold ContinuousRunner.main. rewrite (Hall H).
    by rewrite length_fmap.
Qed.

Lemma runner_sleeps_one_to_six_minutes_witness :
  Forall (λ seconds, 60 <= seconds <= 360 ∧ seconds `mod` 60 = 0
                     ∧ seconds < 10 * 60)
         (ContinuousRunner.sleeps
            (ContinuousRunner.main
               [ContinuousRunner.mkTurn (ContinuousRunner.Raises "boom") 6
                  false;
                ContinuousRunner.mkTurn ContinuousRunner.Returns 1 false])).
Proof.
  apply (runner_sleeps_one_to_six_minutes
           [ContinuousRunner.mkTurn (ContinuousRunner.Raises "boom") 6 false;
            ContinuousRunner.mkTurn ContinuousRunner.Returns 1 false]).
  repeat constructor; simpl; lia.
Defined.

(* ===================================================================== *)
(** * Stage instances across the Runs of one workflow                     *)
(* ===================================================================== *)

(** ** Runs on kept instances *)

Module ReuseFacts.
Import Engine Runs Reuse EngineFacts RunFacts.
#[local] Open Scope nat_scope.

Section Facts.
Context {Msg Out Inst : Type}.
Implicit Types (g : Graph Msg Out Inst) (r : Run Msg Out Inst).














End Facts.



End ReuseFacts.

(** ** The batches of the continuous runner *)

Module BatchFacts.
Import ContinuousRunner.


End BatchFacts.

Import Reuse ReuseFacts BatchFacts.





